(** * ART stack layer (runtime/stack.h) and the dexdiag tool (dexlayout/dexdiag.cc)

    A shallow embedding of the interpreter frame [ShadowFrame], its monitor
    ledger [LockCountData], the frame numbering of [StackVisitor], and the
    page attribution and exit codes of the [dexdiag] tool, with the
    properties the specification states about them. *)

From Stdlib Require Import ZArith Lia Bool Ascii String.
From stdpp Require Import base option list sorting gmap.

Local Open Scope Z_scope.

(** ** Machine integers

    Fixed-width C++ integers are carried as [Z]; every operation that can
    leave the range writes its wrap-around out. *)
Module Machine.

Definition wrap (bits : Z) (z : Z) : Z := z mod 2 ^ bits.

Definition to_uint16 (z : Z) : Z := wrap 16 z.
Definition to_uint32 (z : Z) : Z := wrap 32 z.
Definition to_uint64 (z : Z) : Z := wrap 64 z.

(** Two's-complement reading of a [bits]-wide pattern. *)
Definition to_signed (bits : Z) (z : Z) : Z :=
  let u := wrap bits z in
  if u <? 2 ^ (bits - 1) then u else u - 2 ^ bits.

Definition to_int32 (z : Z) : Z := to_signed 32 z.
Definition to_int64 (z : Z) : Z := to_signed 64 z.

(** A debug assertion: the run has no result when it fails. *)
Definition DCHECK (b : bool) : option unit := if b then Some tt else None.

End Machine.
Import Machine.

(** ** Build configuration and target

    [kMovingCollector], [kUseReadBarrier], the verification flags and the
    two heap checks come from headers outside this layer (globals.h,
    read_barrier.h, verify_object.h); they are parameters of the model. *)
Record Config := {
  kMovingCollector : bool;
  kUseReadBarrier : bool;
  kVerifyReads : bool;   (* kVerifyFlags & kVerifyReads *)
  kVerifyWrites : bool;  (* kVerifyFlags & kVerifyWrites *)
  AssertToSpaceInvariant : Z -> bool;  (* ReadBarrier::AssertToSpaceInvariant holds *)
  VerifyObject : Z -> bool             (* VerifyObject holds *)
}.

(** [pointer_size] is sizeof(void* ) = sizeof(size_t) in bytes;
    [sizeof_StackReference] is sizeof(StackReference<mirror::Object>), whose
    declaration (stack_reference.h) is outside this layer. *)
Record Target := {
  pointer_size : Z;
  sizeof_StackReference : Z
}.

Definition size_t_bits (t : Target) : Z := 8 * pointer_size t.
Definition to_size_t (t : Target) (z : Z) : Z := wrap (size_t_bits t) z.

Definition target_ok (t : Target) : Prop :=
  (pointer_size t = 4 \/ pointer_size t = 8) /\ 0 < sizeof_StackReference t <= 8.

(** ** LockCountData (the data; its operations are in the ledger module) *)
Record LockCountData := {
  monitors_ : option (list Z)  (* std::unique_ptr<std::vector<mirror::Object*>> *)
}.

(** DexFile::CodeItem, reduced to the address of its instruction array. *)
Record CodeItem := { insns_ : Z }.

Definition nullptr : Z := 0.

(** ** ShadowFrame *)
Module ShadowFrame.

(** Struct layout: each member is placed at the next multiple of its
    alignment; the struct is as large as its end rounded to the largest
    member alignment. *)
Record Member := { m_size : Z; m_align : Z }.

Definition align_up (x a : Z) : Z := (x + a - 1) / a * a.

Fixpoint place (ms : list Member) (off al : Z) : list Z * Z * Z :=
  match ms with
  | [] => ([], off, al)
  | m :: ms' =>
      let o := align_up off (m_align m) in
      let '(os, e, al') := place ms' (o + m_size m) (Z.max al (m_align m)) in
      (o :: os, e, al')
  end.

(** The data members of ShadowFrame in declaration order. *)
Definition members (tg : Target) : list Member :=
  let ptr := {| m_size := pointer_size tg; m_align := pointer_size tg |} in
  [ ptr                                   (* ShadowFrame* link_ *)
  ; ptr                                   (* ArtMethod* method_ *)
  ; ptr                                   (* JValue* result_register_ *)
  ; ptr                                   (* const uint16_t* dex_pc_ptr_ *)
  ; ptr                                   (* const DexFile::CodeItem* code_item_ *)
  ; ptr                                   (* LockCountData lock_count_data_: one unique_ptr *)
  ; {| m_size := 4; m_align := 4 |}       (* const uint32_t number_of_vregs_ *)
  ; {| m_size := 4; m_align := 4 |}       (* uint32_t dex_pc_ *)
  ; {| m_size := 2; m_align := 2 |}       (* int16_t cached_hotness_countdown_ *)
  ; {| m_size := 2; m_align := 2 |}       (* int16_t hotness_countdown_ *)
  ; {| m_size := 0; m_align := 4 |}       (* uint32_t vregs_[0] *)
  ].

(** sizeof(ShadowFrame). *)
Definition sizeof_ShadowFrame (tg : Target) : Z :=
  let '(_, e, al) := place (members tg) 0 1 in align_up e al.

(** OFFSETOF_MEMBER(ShadowFrame, vregs_). *)
Definition VRegsOffset (tg : Target) : Z :=
  let '(os, _, _) := place (members tg) 0 1 in List.last os 0.

Definition size_add (tg : Target) (a b : Z) : Z := to_size_t tg (a + b).
Definition size_mul (tg : Target) (a b : Z) : Z := to_size_t tg (a * b).

(** static size_t ComputeSize(uint32_t num_vregs) *)
Definition ComputeSize (tg : Target) (num_vregs : Z) : Z :=
  size_add tg
    (size_add tg (sizeof_ShadowFrame tg) (size_mul tg 4 num_vregs))
    (size_mul tg (sizeof_StackReference tg) num_vregs).

Record frame := {
  link_ : Z;
  method_ : Z;
  result_register_ : Z;
  dex_pc_ptr_ : Z;
  code_item_ : option CodeItem;
  lock_count_data_ : LockCountData;
  number_of_vregs_ : nat;
  dex_pc_ : Z;
  cached_hotness_countdown_ : Z;
  hotness_countdown_ : Z;
  vregs_ : list Z;        (* vregs_[0 .. number_of_vregs_): raw 32-bit patterns *)
  references_ : list Z    (* References()[0 .. number_of_vregs_): object addresses *)
}.

(** The length passed to memset by the constructor. *)
Definition memset_length (tg : Target) (num_vregs : Z) (has_reference_array : bool) : Z :=
  if has_reference_array
  then size_mul tg num_vregs (size_add tg 4 (sizeof_StackReference tg))
  else size_mul tg num_vregs 4.

(** ShadowFrame(num_vregs, link, method, dex_pc, has_reference_array) *)
Definition construct (num_vregs : nat) (link method dex_pc : Z)
    (has_reference_array : bool) : option frame :=
  _ ← DCHECK has_reference_array;
  Some {| link_ := link;
          method_ := method;
          result_register_ := nullptr;
          dex_pc_ptr_ := nullptr;
          code_item_ := None;
          lock_count_data_ := {| monitors_ := None |};
          number_of_vregs_ := num_vregs;
          dex_pc_ := dex_pc;
          cached_hotness_countdown_ := 0;
          hotness_countdown_ := 0;
          vregs_ := replicate num_vregs 0;
          references_ := replicate num_vregs nullptr |}.

(** CreateShadowFrameImpl(num_vregs, link, method, dex_pc, memory) *)
Definition CreateShadowFrameImpl (num_vregs : nat) (link method dex_pc : Z) : option frame :=
  construct num_vregs link method dex_pc true.

(** One past the last byte of [memory] that CreateShadowFrameImpl writes:
    the object itself, and the memset from vregs_. *)
Definition bytes_consumed (tg : Target) (num_vregs : Z) : Z :=
  Z.max (sizeof_ShadowFrame tg) (VRegsOffset tg + memset_length tg num_vregs true).


(** Updates of the two register arrays. *)
Definition with_vregs (f : frame) (l : list Z) : frame :=
  {| link_ := link_ f; method_ := method_ f; result_register_ := result_register_ f;
     dex_pc_ptr_ := dex_pc_ptr_ f; code_item_ := code_item_ f;
     lock_count_data_ := lock_count_data_ f; number_of_vregs_ := number_of_vregs_ f;
     dex_pc_ := dex_pc_ f; cached_hotness_countdown_ := cached_hotness_countdown_ f;
     hotness_countdown_ := hotness_countdown_ f;
     vregs_ := l; references_ := references_ f |}.

Definition with_references (f : frame) (l : list Z) : frame :=
  {| link_ := link_ f; method_ := method_ f; result_register_ := result_register_ f;
     dex_pc_ptr_ := dex_pc_ptr_ f; code_item_ := code_item_ f;
     lock_count_data_ := lock_count_data_ f; number_of_vregs_ := number_of_vregs_ f;
     dex_pc_ := dex_pc_ f; cached_hotness_countdown_ := cached_hotness_countdown_ f;
     hotness_countdown_ := hotness_countdown_ f;
     vregs_ := vregs_ f; references_ := l |}.

Definition with_dex_pc (f : frame) (pc ptr : Z) : frame :=
  {| link_ := link_ f; method_ := method_ f; result_register_ := result_register_ f;
     dex_pc_ptr_ := ptr; code_item_ := code_item_ f;
     lock_count_data_ := lock_count_data_ f; number_of_vregs_ := number_of_vregs_ f;
     dex_pc_ := pc; cached_hotness_countdown_ := cached_hotness_countdown_ f;
     hotness_countdown_ := hotness_countdown_ f;
     vregs_ := vregs_ f; references_ := references_ f |}.

Definition with_code_item (f : frame) (ci : option CodeItem) : frame :=
  {| link_ := link_ f; method_ := method_ f; result_register_ := result_register_ f;
     dex_pc_ptr_ := dex_pc_ptr_ f; code_item_ := ci;
     lock_count_data_ := lock_count_data_ f; number_of_vregs_ := number_of_vregs_ f;
     dex_pc_ := dex_pc_ f; cached_hotness_countdown_ := cached_hotness_countdown_ f;
     hotness_countdown_ := hotness_countdown_ f;
     vregs_ := vregs_ f; references_ := references_ f |}.

(** A store through a pointer into an array: defined inside the array only. *)
Definition store (l : list Z) (i : nat) (v : Z) : option (list Z) :=
  if bool_decide (i < length l)%nat then Some (<[i:=v]> l) else None.

(** The frame's arrays have [number_of_vregs_] elements, a uint32_t. *)
Definition wf (f : frame) : Prop :=
  length (vregs_ f) = number_of_vregs_ f /\
  length (references_ f) = number_of_vregs_ f /\
  Z.of_nat (number_of_vregs_ f) < 2 ^ 32.

Definition HasReferenceArray (f : frame) : bool := true.

Definition NumberOfVRegs (f : frame) : nat := number_of_vregs_ f.

(** uint32_t GetDexPC() const: the pointer difference counts uint16_t
    units and is converted to uint32_t. *)
Definition GetDexPC (f : frame) : option Z :=
  if dex_pc_ptr_ f =? nullptr then Some (dex_pc_ f)
  else ci ← code_item_ f;
       Some (to_uint32 ((dex_pc_ptr_ f - insns_ ci) / 2)).

Definition SetDexPC (f : frame) (dex_pc : Z) : frame :=
  with_dex_pc f (to_uint32 dex_pc) nullptr.

Definition GetDexPCPtr (f : frame) : Z := dex_pc_ptr_ f.

Definition SetDexPCPtr (f : frame) (dex_pc_ptr : Z) : frame :=
  with_dex_pc f (dex_pc_ f) dex_pc_ptr.

Definition SetCodeItem (f : frame) (code_item : option CodeItem) : frame :=
  with_code_item f code_item.

Definition GetCodeItem (f : frame) : option CodeItem := code_item_ f.

(** int32_t GetVReg(size_t i) const *)
Definition GetVReg (f : frame) (i : nat) : option Z :=
  _ ← DCHECK (bool_decide (i < NumberOfVRegs f)%nat);
  v ← vregs_ f !! i;
  Some (to_int32 v).

(** The memory behind vregs_, in uint32_t slots counted from vregs_: the
    reference array lies right behind the register array (References() is
    &vregs_[NumberOfVRegs()]), one slot for each reference with the four-byte
    StackReference of this code base, and behind the reference array the
    frame ends.  An eight-byte access at the last register therefore has its
    high word in References()[0]. *)
Definition load_raw (f : frame) (k : nat) : option Z :=
  if bool_decide (k < length (vregs_ f))%nat then vregs_ f !! k
  else references_ f !! (k - length (vregs_ f))%nat.

Definition store_raw (f : frame) (k : nat) (v : Z) : option frame :=
  if bool_decide (k < length (vregs_ f))%nat
  then Some (with_vregs f (<[k:=v]> (vregs_ f)))
  else refs ← store (references_ f) (k - length (vregs_ f)) v;
       Some (with_references f refs).

(** int64_t GetVRegLong(size_t i) const: an eight-byte load at &vregs_[i],
    the low word first. *)
Definition GetVRegLong (f : frame) (i : nat) : option Z :=
  _ ← DCHECK (bool_decide (i < NumberOfVRegs f)%nat);
  lo ← vregs_ f !! i;
  hi ← load_raw f (S i);
  Some (to_int64 (lo + hi * 2 ^ 32)).

(** The reference stored in slot i of References(). *)
Definition References (f : frame) (i : nat) : option Z := references_ f !! i.

(** mirror::Object* GetVRegReference(size_t i) const *)
Definition GetVRegReference (cfg : Config) (f : frame) (i : nat) : option Z :=
  _ ← DCHECK (bool_decide (i < NumberOfVRegs f)%nat);
  ref ← (if HasReferenceArray f then References f i else vregs_ f !! i);
  _ ← (if kUseReadBarrier cfg then DCHECK (AssertToSpaceInvariant cfg ref) else Some tt);
  _ ← (if kVerifyReads cfg then DCHECK (VerifyObject cfg ref) else Some tt);
  Some ref.

(** References()[j].Clear() for the [n] shadow slots from [i] on.  The
    register checked is [i] alone; References()[N], which a wide write at the
    last register clears as its second slot, lies behind the frame, and the
    store there leaves the frame as it is. *)
Fixpoint clear_references (refs : list Z) (i : nat) (n : nat) : list Z :=
  match n with
  | O => refs
  | S n' => clear_references (<[i:=nullptr]> refs) (S i) n'
  end.

(** void SetVReg(size_t i, int32_t val) *)
Definition SetVReg (cfg : Config) (f : frame) (i : nat) (val : Z) : option frame :=
  _ ← DCHECK (bool_decide (i < NumberOfVRegs f)%nat);
  regs ← store (vregs_ f) i (to_uint32 val);
  let f := with_vregs f regs in
  if kMovingCollector cfg && HasReferenceArray f
  then Some (with_references f (clear_references (references_ f) i 1))
  else Some f.

(** void SetVRegFloat(size_t i, float val); [val] is the IEEE-754 bit
    pattern of the float, which the store copies unchanged. *)
Definition SetVRegFloat (cfg : Config) (f : frame) (i : nat) (val : Z) : option frame :=
  _ ← DCHECK (bool_decide (i < NumberOfVRegs f)%nat);
  regs ← store (vregs_ f) i (to_uint32 val);
  let f := with_vregs f regs in
  if kMovingCollector cfg && HasReferenceArray f
  then Some (with_references f (clear_references (references_ f) i 1))
  else Some f.

(** void SetVRegLong(size_t i, int64_t val): an eight-byte store at
    &vregs_[i], at 4-byte alignment, low word in slot i and high word in the
    slot behind it; only i is checked against the register count. *)
Definition SetVRegLong (cfg : Config) (f : frame) (i : nat) (val : Z) : option frame :=
  _ ← DCHECK (bool_decide (i < NumberOfVRegs f)%nat);
  regs ← store (vregs_ f) i (to_uint32 (to_uint64 val));
  f ← store_raw (with_vregs f regs) (S i) (to_uint32 (to_uint64 val / 2 ^ 32));
  if kMovingCollector cfg && HasReferenceArray f
  then Some (with_references f (clear_references (references_ f) i 2))
  else Some f.

(** void SetVRegDouble(size_t i, double val); [val] is the bit pattern. *)
Definition SetVRegDouble (cfg : Config) (f : frame) (i : nat) (val : Z) : option frame :=
  _ ← DCHECK (bool_decide (i < NumberOfVRegs f)%nat);
  regs ← store (vregs_ f) i (to_uint32 (to_uint64 val));
  f ← store_raw (with_vregs f regs) (S i) (to_uint32 (to_uint64 val / 2 ^ 32));
  if kMovingCollector cfg && HasReferenceArray f
  then Some (with_references f (clear_references (references_ f) i 2))
  else Some f.

(** void SetVRegReference(size_t i, mirror::Object* val): the same
    StackReference::Assign on the raw slot and on the shadow slot, which keeps
    the low 32 bits of the address in each. *)
Definition SetVRegReference (cfg : Config) (f : frame) (i : nat) (val : Z) : option frame :=
  _ ← DCHECK (bool_decide (i < NumberOfVRegs f)%nat);
  _ ← (if kVerifyWrites cfg then DCHECK (VerifyObject cfg val) else Some tt);
  _ ← (if kUseReadBarrier cfg then DCHECK (AssertToSpaceInvariant cfg val) else Some tt);
  regs ← store (vregs_ f) i (to_uint32 val);
  let f := with_vregs f regs in
  if HasReferenceArray f
  then refs ← store (references_ f) i (to_uint32 val); Some (with_references f refs)
  else Some f.

(** Addresses inside a frame placed at [this]. *)
Definition VRegAddr (tg : Target) (this : Z) (k : Z) : Z :=
  this + VRegsOffset tg + 4 * k.

Definition ReferencesAddr (tg : Target) (this : Z) (f : frame) (k : Z) : Z :=
  VRegAddr tg this (Z.of_nat (NumberOfVRegs f)) + sizeof_StackReference tg * k.

(** uint32_t* GetShadowRefAddr(size_t i) *)
Definition GetShadowRefAddr (tg : Target) (this : Z) (f : frame) (i : nat) : option Z :=
  _ ← DCHECK (HasReferenceArray f);
  _ ← DCHECK (bool_decide (i < NumberOfVRegs f)%nat);
  Some (VRegAddr tg this (Z.of_nat i + Z.of_nat (NumberOfVRegs f))).

(** bool Contains(StackReference<mirror::Object>* shadow_frame_entry_obj) const;
    NumberOfVRegs() - 1 is computed in uint32_t.  Addresses are integers
    without an upper end: this is the comparison of the code for a frame with
    registers that lies in the address space, where no address computed here
    wraps around. *)
Definition Contains (tg : Target) (this : Z) (f : frame) (shadow_frame_entry_obj : Z) : bool :=
  let last := to_uint32 (Z.of_nat (NumberOfVRegs f) - 1) in
  if HasReferenceArray f
  then (ReferencesAddr tg this f 0 <=? shadow_frame_entry_obj) &&
       (shadow_frame_entry_obj <=? ReferencesAddr tg this f last)
  else (VRegAddr tg this 0 <=? shadow_frame_entry_obj) &&
       (shadow_frame_entry_obj <=? VRegAddr tg this last).

(** int16_t GetVRegShort(size_t i) const *)
Definition GetVRegShort (f : frame) (i : nat) : option Z :=
  v ← GetVReg f i;
  Some (to_signed 16 v).

(** float GetVRegFloat(size_t i) const; the result is the bit pattern of
    the float. *)
Definition GetVRegFloat (f : frame) (i : nat) : option Z :=
  _ ← DCHECK (bool_decide (i < NumberOfVRegs f)%nat);
  vregs_ f !! i.

(** double GetVRegDouble(size_t i) const; the result is the bit pattern
    of the double, an eight-byte load at &vregs_[i], the low word first. *)
Definition GetVRegDouble (f : frame) (i : nat) : option Z :=
  _ ← DCHECK (bool_decide (i < NumberOfVRegs f)%nat);
  lo ← vregs_ f !! i;
  hi ← load_raw f (S i);
  Some (lo + hi * 2 ^ 32).

End ShadowFrame.

(** ** LockCountData operations *)
Module LockCount.

Inductive Exception :=
  | IllegalMonitorStateException
  | OtherException (tag : Z).

(** The part of Thread the ledger touches: the pending exception. *)
Record Thread := { exception_ : option Exception }.

Definition IsExceptionPending (self : Thread) : bool :=
  match exception_ self with Some _ => true | None => false end.

Definition ClearException (self : Thread) : Thread := {| exception_ := None |}.

Definition ThrowNew (self : Thread) (e : Exception) : Thread := {| exception_ := Some e |}.

(** The held monitors, oldest first; an absent vector holds none. *)
Definition monitors (l : LockCountData) : list Z := default [] (monitors_ l).

(** Removes the most recent entry equal to [obj]; [None] when there is none. *)
Fixpoint remove_last (obj : Z) (ms : list Z) : option (list Z) :=
  match ms with
  | [] => None
  | m :: ms' =>
      match remove_last obj ms' with
      | Some r => Some (m :: r)
      | None => if m =? obj then Some ms' else None
      end
  end.

(** Modelled from the spec: LockCountData::AddMonitor, whose body is in the
    .cc file: appends unconditionally, and is skipped when an exception is
    pending on entry. *)
Definition AddMonitor (self : Thread) (l : LockCountData) (obj : Z) : LockCountData :=
  if IsExceptionPending self then l
  else {| monitors_ := Some (monitors l ++ [obj]) |}.

(** Modelled from the spec: LockCountData::RemoveMonitorOrThrow, whose body
    is in the .cc file: removes one matching entry (the most recent one);
    when no lock is recorded for the object it clears any pending exception
    and raises IllegalMonitorState. *)
Definition RemoveMonitorOrThrow (self : Thread) (l : LockCountData) (obj : Z)
    : Thread * LockCountData :=
  match remove_last obj (monitors l) with
  | Some ms => (self, {| monitors_ := Some ms |})
  | None => (ThrowNew (ClearException self) IllegalMonitorStateException, l)
  end.

(** Modelled from the spec: LockCountData::CheckAllMonitorsReleasedOrThrow,
    whose body is in the .cc file: raises IllegalMonitorState, clearing any
    pending exception, when the ledger is not empty, and answers whether
    everything is in order. *)
Definition CheckAllMonitorsReleasedOrThrow (self : Thread) (l : LockCountData)
    : Thread * bool :=
  match monitors l with
  | [] => (self, true)
  | _ :: _ => (ThrowNew (ClearException self) IllegalMonitorStateException, false)
  end.

(** The call raised: it answered false and left IllegalMonitorState pending. *)
Definition raises (r : Thread * bool) : Prop :=
  snd r = false /\ exception_ (fst r) = Some IllegalMonitorStateException.

(** void VisitMonitors(T visitor, Args&&... args): the visitor may rewrite
    each entry in place. *)
Definition VisitMonitors (visitor : Z -> Z) (l : LockCountData) : LockCountData :=
  match monitors_ l with
  | Some ms => {| monitors_ := Some (map visitor ms) |}
  | None => l
  end.

End LockCount.

(** ** StackVisitor *)
Module StackVisitor.

Inductive StackWalkKind := kIncludeInlinedFrames | kSkipInlinedFrames.
Inductive CountTransitions := kYes | kNo.

(** Modelled from the spec: the thread's live stack, which is owned
    outside this layer: newest first, interpreter frames, compiled frames
    with the calls inlined into them (innermost first), and the transition
    frames at tier boundaries. *)
Inductive StackEntry :=
  | ShadowEntry (method : Z)
  | QuickEntry (method : Z) (inlined : list Z)
  | TransitionEntry.

Inductive FrameKind := Interpreted | Compiled | Inlined | Transition.

Record LogicalFrame := { lf_kind : FrameKind; lf_method : Z; lf_inlining_depth : Z }.

(** The inlined calls of one compiled frame, innermost first, with their
    inlining depth. *)
Fixpoint inlined_frames (ms : list Z) : list LogicalFrame :=
  match ms with
  | [] => []
  | m :: ms' =>
      {| lf_kind := Inlined; lf_method := m;
         lf_inlining_depth := Z.of_nat (length ms) |} :: inlined_frames ms'
  end.

(** Modelled from the spec: the logical frames of one stack entry; a
    compiled frame yields one logical frame per inlined call it contains,
    innermost first, then the physical frame itself. *)
Definition logical_frames_of (walk_kind : StackWalkKind) (e : StackEntry) : list LogicalFrame :=
  match e with
  | ShadowEntry m => [ {| lf_kind := Interpreted; lf_method := m; lf_inlining_depth := 0 |} ]
  | QuickEntry m inls =>
      (match walk_kind with
       | kIncludeInlinedFrames => inlined_frames inls
       | kSkipInlinedFrames => []
       end) ++ [ {| lf_kind := Compiled; lf_method := m; lf_inlining_depth := 0 |} ]
  | TransitionEntry => [ {| lf_kind := Transition; lf_method := nullptr; lf_inlining_depth := 0 |} ]
  end.

(** Every logical frame of the stack, newest first. *)
Definition logical_frames (walk_kind : StackWalkKind) (stack : list StackEntry)
    : list LogicalFrame :=
  concat (map (logical_frames_of walk_kind) stack).

(** Modelled from the spec: StackVisitor::ComputeNumFrames, whose body is in
    the .cc file: the total frame count of a full pre-walk; GetFrameHeight
    documents the height as counted in managed frames including transitions. *)
Definition ComputeNumFrames (walk_kind : StackWalkKind) (stack : list StackEntry) : Z :=
  Z.of_nat (length (logical_frames walk_kind stack)).

(** The cursor.  [thread_] stands for the stack of the thread, and
    [cur_frame_] for the frame that cur_shadow_frame_ and cur_quick_frame_
    point at. *)
Record visitor := {
  thread_ : list StackEntry;
  walk_kind_ : StackWalkKind;
  cur_frame_ : option LogicalFrame;
  num_frames_ : Z;
  cur_depth_ : Z;
  current_inlining_depth_ : Z
}.

Definition with_num_frames (v : visitor) (n : Z) : visitor :=
  {| thread_ := thread_ v; walk_kind_ := walk_kind_ v; cur_frame_ := cur_frame_ v;
     num_frames_ := n; cur_depth_ := cur_depth_ v;
     current_inlining_depth_ := current_inlining_depth_ v |}.

Definition with_depth (v : visitor) (d : Z) : visitor :=
  {| thread_ := thread_ v; walk_kind_ := walk_kind_ v; cur_frame_ := cur_frame_ v;
     num_frames_ := num_frames_ v; cur_depth_ := d;
     current_inlining_depth_ := current_inlining_depth_ v |}.

Definition with_frame (v : visitor) (fr : LogicalFrame) : visitor :=
  {| thread_ := thread_ v; walk_kind_ := walk_kind_ v; cur_frame_ := Some fr;
     num_frames_ := num_frames_ v; cur_depth_ := cur_depth_ v;
     current_inlining_depth_ := lf_inlining_depth fr |}.

(** StackVisitor(thread, context, walk_kind, num_frames): the protected
    constructor passes num_frames = 0. *)
Definition make (thread : list StackEntry) (walk_kind : StackWalkKind) (num_frames : Z)
    : visitor :=
  {| thread_ := thread; walk_kind_ := walk_kind; cur_frame_ := None;
     num_frames_ := num_frames; cur_depth_ := 0; current_inlining_depth_ := 0 |}.

(** size_t GetNumFrames(): computed on first use and kept. *)
Definition GetNumFrames (v : visitor) : Z * visitor :=
  if num_frames_ v =? 0
  then let n := ComputeNumFrames (walk_kind_ v) (thread_ v) in (n, with_num_frames v n)
  else (num_frames_ v, v).

(** size_t GetFrameHeight() *)
Definition GetFrameHeight (tg : Target) (v : visitor) : Z * visitor :=
  let '(n, v') := GetNumFrames v in
  (to_size_t tg (to_size_t tg (n - cur_depth_ v') - 1), v').

(** size_t GetFrameId() *)
Definition GetFrameId (tg : Target) (v : visitor) : Z * visitor :=
  let '(h, v') := GetFrameHeight tg v in
  (to_size_t tg (h + 1), v').

Definition GetFrameDepth (v : visitor) : Z := cur_depth_ v.

Definition IsInInlinedFrame (v : visitor) : bool :=
  negb (current_inlining_depth_ v =? 0).

Definition GetCurrentInliningDepth (v : visitor) : Z := current_inlining_depth_ v.

(** static int GetOutVROffset(uint16_t out_num, InstructionSet isa) *)
Definition GetOutVROffset (tg : Target) (out_num : Z) : Z :=
  to_int32 (to_size_t tg (pointer_size tg + out_num * 4)).

(** A frame that marks a tier boundary of the stack. *)
Definition is_transition (fr : LogicalFrame) : bool :=
  match lf_kind fr with Transition => true | _ => false end.

(** The cursor after the frame [fr]: cur_depth_++ unless the frame is a
    transition and transitions are not counted. *)
Definition advance (tg : Target) (kCount : CountTransitions) (fr : LogicalFrame)
    (here : visitor) : visitor :=
  match kCount with
  | kNo => if is_transition fr then here
           else with_depth here (to_size_t tg (cur_depth_ here + 1))
  | kYes => with_depth here (to_size_t tg (cur_depth_ here + 1))
  end.

(** Modelled from the spec: StackVisitor::WalkStack, whose body is in the
    .cc file: visits the logical frames newest to oldest, one VisitFrame
    call per frame, stopping when the callback answers false; a transition
    is visited only with include_transitions and is counted toward the
    depth only under CountTransitions::kYes; every other frame advances the
    depth by one.  The result lists the cursor at each VisitFrame call. *)
Fixpoint walk (tg : Target) (kCount : CountTransitions) (include_transitions : bool)
    (VisitFrame : visitor -> bool) (frames : list LogicalFrame) (v : visitor)
    : list visitor * visitor :=
  match frames with
  | [] => ([], v)
  | fr :: rest =>
      let here := with_frame v fr in
      if negb (is_transition fr) || include_transitions
      then if VisitFrame here
           then let '(seen, v') :=
                  walk tg kCount include_transitions VisitFrame rest
                       (advance tg kCount fr here) in
                (here :: seen, v')
           else ([here], here)
      else walk tg kCount include_transitions VisitFrame rest (advance tg kCount fr here)
  end.

(** Modelled from the spec: the entry point of the walk, from the cursor as
    constructed over the logical frames of its thread. *)
Definition WalkStack (tg : Target) (kCount : CountTransitions) (include_transitions : bool)
    (VisitFrame : visitor -> bool) (v : visitor) : list visitor * visitor :=
  walk tg kCount include_transitions VisitFrame
       (logical_frames (walk_kind_ v) (thread_ v)) v.

End StackVisitor.

(** ** dexdiag *)
Module DexDiag.

(** Modelled from the spec: the DexFile::kDexType... item-type codes
    (dex_file.h is outside the tool's source); the spec names them only as the
    container's section types, the numbers are those of the dex format. *)
Definition kDexTypeHeaderItem : Z := 0x0000.
Definition kDexTypeStringIdItem : Z := 0x0001.
Definition kDexTypeTypeIdItem : Z := 0x0002.
Definition kDexTypeProtoIdItem : Z := 0x0003.
Definition kDexTypeFieldIdItem : Z := 0x0004.
Definition kDexTypeMethodIdItem : Z := 0x0005.
Definition kDexTypeClassDefItem : Z := 0x0006.
Definition kDexTypeCallSiteIdItem : Z := 0x0007.
Definition kDexTypeMethodHandleItem : Z := 0x0008.
Definition kDexTypeMapList : Z := 0x1000.
Definition kDexTypeTypeList : Z := 0x1001.
Definition kDexTypeAnnotationSetRefList : Z := 0x1002.
Definition kDexTypeAnnotationSetItem : Z := 0x1003.
Definition kDexTypeClassDataItem : Z := 0x2000.
Definition kDexTypeCodeItem : Z := 0x2001.
Definition kDexTypeStringDataItem : Z := 0x2002.
Definition kDexTypeDebugInfoItem : Z := 0x2003.
Definition kDexTypeAnnotationItem : Z := 0x2004.
Definition kDexTypeEncodedArrayItem : Z := 0x2005.
Definition kDexTypeAnnotationsDirectoryItem : Z := 0x2006.

Definition kLineLength : Z := 32.

Record Flags := { g_show_key : bool; g_verbose : bool; g_show_statistics : bool }.

Definition no_flags : Flags :=
  {| g_show_key := false; g_verbose := false; g_show_statistics := false |}.

Record DexSectionInfo := { name : string; letter : ascii }.

Definition kDexSectionInfoList : list (Z * DexSectionInfo) :=
  [ (kDexTypeHeaderItem, {| name := "Header"; letter := "H" |})
  ; (kDexTypeStringIdItem, {| name := "StringId"; letter := "S" |})
  ; (kDexTypeTypeIdItem, {| name := "TypeId"; letter := "T" |})
  ; (kDexTypeProtoIdItem, {| name := "ProtoId"; letter := "P" |})
  ; (kDexTypeFieldIdItem, {| name := "FieldId"; letter := "F" |})
  ; (kDexTypeMethodIdItem, {| name := "MethodId"; letter := "M" |})
  ; (kDexTypeClassDefItem, {| name := "ClassDef"; letter := "C" |})
  ; (kDexTypeCallSiteIdItem, {| name := "CallSiteId"; letter := "z" |})
  ; (kDexTypeMethodHandleItem, {| name := "MethodHandle"; letter := "Z" |})
  ; (kDexTypeMapList, {| name := "TypeMap"; letter := "L" |})
  ; (kDexTypeTypeList, {| name := "TypeList"; letter := "t" |})
  ; (kDexTypeAnnotationSetRefList, {| name := "AnnotationSetReferenceItem"; letter := "1" |})
  ; (kDexTypeAnnotationSetItem, {| name := "AnnotationSetItem"; letter := "2" |})
  ; (kDexTypeClassDataItem, {| name := "ClassData"; letter := "c" |})
  ; (kDexTypeCodeItem, {| name := "CodeItem"; letter := "X" |})
  ; (kDexTypeStringDataItem, {| name := "StringData"; letter := "s" |})
  ; (kDexTypeDebugInfoItem, {| name := "DebugInfo"; letter := "D" |})
  ; (kDexTypeAnnotationItem, {| name := "AnnotationItem"; letter := "3" |})
  ; (kDexTypeEncodedArrayItem, {| name := "EncodedArrayItem"; letter := "E" |})
  ; (kDexTypeAnnotationsDirectoryItem, {| name := "AnnotationsDirectoryItem"; letter := "4" |})
  ].

(** static const std::map<uint16_t, DexSectionInfo> kDexSectionInfoMap *)
Definition kDexSectionInfoMap : gmap Z DexSectionInfo := list_to_map kDexSectionInfoList.

(** dex_ir::DexFileSection, as far as the tool reads it. *)
Record DexFileSection := { type : Z; size : Z; offset : Z }.

(** A DexFile as the tool sees it; [sorted_sections] is what
    dex_ir::GetSortedDexFileSections(header, kSortDescending) returns for it. *)
Record DexFile := {
  Begin : Z;
  Size : Z;
  GetLocation : string;
  sorted_sections : list DexFileSection
}.

(** One line of the statistics table (the two percentage columns are
    floating-point renderings of these counts and are left out). *)
Record StatRow := { row_name : string; row_resident : Z; row_mapped : Z }.

Inductive Output :=
  | OutUsage (cmd : string)
  | OutInvalidPid (arg : string)
  | OutKernelError
  | OutProcessError (pid : Z)
  | OutMapsError
  | OutVdexOpenError (vdex_name error_msg : string)
  | OutDexOpenError (vdex_name error_msg : string)
  | OutPagemapError
  | OutMapping (map_name : string) (map_start map_end : Z)
  | OutDexStartError (location : string) (map_start dex_file_start : Z)
  | OutDex (location : string) (range_start range_end : Z)
  | OutPageChars (chars : string)
  | OutStatistics (rows : list StatRow) (total_resident_pages total_mapped_pages : Z)
  | OutLetterKey (key : list (ascii * string)).

(** Class PageCount: std::map<uint16_t, size_t>. *)
Definition PageCount_new : gmap Z Z := (fun _ => 0) <$> kDexSectionInfoMap.

Definition Get (type : Z) (m : gmap Z Z) : option Z := m !! type.

(** static void PrintLetterKey(): the map is walked in key order, which
    is the order of [kDexSectionInfoList]. *)
Definition PrintLetterKey : Output :=
  OutLetterKey (map (fun p => (letter (snd p), name (snd p))) kDexSectionInfoList).

Definition PageTypeChar (type : Z) : ascii :=
  match kDexSectionInfoMap !! type with
  | None => "-"%char
  | Some info => letter info
  end.

Section Tool.

(** [kPageSize] (globals.h) and the PM_PAGEMAP_PRESENT macro (pagemap.h)
    are outside the tool's source. *)
Variable tg : Target.
Variable kPageSize : Z.
Variable PM_PAGEMAP_PRESENT : Z -> bool.

Definition Increment (type : Z) (m : gmap Z Z) : gmap Z Z :=
  <[type := to_size_t tg (default 0 (m !! type) + 1)]> m.

(** static uint16_t FindSectionTypeForPage(page, sections) *)
Fixpoint FindSectionTypeForPage (page : Z) (sections : list DexFileSection) : Z :=
  match sections with
  | [] => kDexTypeHeaderItem
  | section :: rest =>
      let first_page_of_section := offset section / kPageSize in
      if size section =? 0 then FindSectionTypeForPage page rest
      else if first_page_of_section <=? page then type section
      else FindSectionTypeForPage page rest
  end.

Definition newline : string := String "010"%char EmptyString.

(** The loop of ProcessPageMap, from [page] for [n] more pages. *)
Fixpoint ProcessPageMap_loop (verbose : bool) (pagemap : list Z) (start page : Z) (n : nat)
    (sections : list DexFileSection) (page_counts : gmap Z Z) (out : string)
    : option (gmap Z Z * string) :=
  match n with
  | O => Some (page_counts, out)
  | S n' =>
      entry ← pagemap !! Z.to_nat page;
      let '(page_counts, type_char) :=
        if PM_PAGEMAP_PRESENT entry
        then let type := FindSectionTypeForPage page sections in
             (Increment type page_counts, PageTypeChar type)
        else (page_counts, "."%char) in
      let out :=
        if verbose
        then let out := (out ++ String type_char EmptyString)%string in
             if (page - start) mod kLineLength =? kLineLength - 1
             then (out ++ newline)%string else out
        else out in
      ProcessPageMap_loop verbose pagemap start (to_size_t tg (page + 1)) n'
                          sections page_counts out
  end.

(** static void ProcessPageMap(pagemap, start, end, sections, page_counts) *)
Definition ProcessPageMap (flags : Flags) (pagemap : list Z) (start end_ : Z)
    (sections : list DexFileSection) (page_counts : gmap Z Z)
    : option (gmap Z Z * list Output) :=
  '(page_counts, out) ← ProcessPageMap_loop (g_verbose flags) pagemap start start
                          (Z.to_nat (end_ - start)) sections page_counts EmptyString;
  if g_verbose flags
  then let out := if negb (to_size_t tg (end_ - start) mod kLineLength =? 0)
                  then (out ++ newline)%string else out in
       Some (page_counts, [OutPageChars out])
  else Some (page_counts, []).

(** The mapped-page count loop of DisplayDexStatistics. *)
Fixpoint count_mapped (page : Z) (n : nat) (sections : list DexFileSection)
    (mapped_pages : gmap Z Z) : gmap Z Z :=
  match n with
  | O => mapped_pages
  | S n' =>
      count_mapped (to_size_t tg (page + 1)) n' sections
                   (Increment (FindSectionTypeForPage page sections) mapped_pages)
  end.

(** The row loop of DisplayDexStatistics over the sections in the order
    they are printed; [total_resident_pages] is the running sum. *)
Fixpoint stat_rows (resident_pages mapped_pages : gmap Z Z)
    (printed : list DexFileSection) (total_resident_pages : Z)
    : option (list StatRow * Z) :=
  match printed with
  | [] => Some ([], total_resident_pages)
  | section :: rest =>
      section_info ← kDexSectionInfoMap !! type section;
      pages_resident ← Get (type section) resident_pages;
      pages_mapped ← Get (type section) mapped_pages;
      '(rows, total) ← stat_rows resident_pages mapped_pages rest
                         (to_size_t tg (total_resident_pages + pages_resident));
      Some ({| row_name := name section_info;
               row_resident := pages_resident;
               row_mapped := pages_mapped |} :: rows, total)
  end.

(** static void DisplayDexStatistics(start, end, resident_pages, sections) *)
Definition DisplayDexStatistics (start end_ : Z) (resident_pages : gmap Z Z)
    (sections : list DexFileSection) : option (list Output) :=
  _ ← DCHECK (start <=? end_);
  let total_mapped_pages := to_size_t tg (end_ - start) in
  if total_mapped_pages =? 0 then Some []
  else
    let mapped_pages :=
      count_mapped start (Z.to_nat (end_ - start)) sections PageCount_new in
    '(rows, total_resident_pages) ← stat_rows resident_pages mapped_pages (rev sections) 0;
    Some [OutStatistics rows total_resident_pages total_mapped_pages].

(** Modelled from the spec: RoundUp (bit_utils.h is outside the tool's
    source): rounds its first argument up to a multiple of the second, in
    the 64-bit unsigned type of the argument. *)
Definition RoundUp (x n : Z) : Z := to_uint64 (x + n - 1) / n * n.

(** The page range ProcessOneDexMapping computes for a dex file. *)
Definition dex_page_range (dex_file_start dex_file_size vdex_start : Z) : Z * Z :=
  let start := to_uint64 (dex_file_start - vdex_start) / kPageSize in
  let end_ := RoundUp (to_uint64 (start + dex_file_size)) kPageSize / kPageSize in
  (start, end_).

(** static void ProcessOneDexMapping(pagemap, map_start, dex_file, vdex_start) *)
Definition ProcessOneDexMapping (flags : Flags) (pagemap : list Z) (map_start : Z)
    (dex_file : DexFile) (vdex_start : Z) : option (list Output) :=
  let dex_file_start := Begin dex_file in
  let dex_file_size := Size dex_file in
  if dex_file_start <? vdex_start
  then Some [OutDexStartError (GetLocation dex_file) map_start dex_file_start]
  else
    let '(start, end_) := dex_page_range dex_file_start dex_file_size vdex_start in
    let header := OutDex (GetLocation dex_file)
                    (to_uint64 (map_start + start * kPageSize))
                    (to_uint64 (map_start + end_ * kPageSize)) in
    let sections := sorted_sections dex_file in
    '(section_resident_pages, chars) ←
        ProcessPageMap flags pagemap (to_size_t tg start) (to_size_t tg end_)
                       sections PageCount_new;
    stats ← (if g_show_statistics flags
             then DisplayDexStatistics (to_size_t tg start) (to_size_t tg end_)
                                       section_resident_pages sections
             else Some []);
    Some (header :: chars ++ stats).

(** What libpagemap and the file system hand to the tool. *)
Record VdexFile := {
  vdex_Begin : Z;
  (* OpenAllDexFiles: success flag, the dex files opened, the error message *)
  OpenAllDexFiles : bool * list DexFile * string
}.

Record pm_map := {
  pm_map_name : string;
  pm_map_start : Z;
  pm_map_end : Z;
  pm_map_pagemap : Z * list Z   (* return code and the page table *)
}.

Record Env := {
  kill : Z -> Z;                              (* kill(pid, 0) *)
  pm_kernel_create : Z;                       (* return code *)
  pm_process_create : Z -> Z;                 (* return code *)
  pm_process_maps : Z -> Z * list pm_map;     (* return code and the maps *)
  VdexFile_Open : string -> VdexFile + string (* the file, or the error message *)
}.

(** strstr(haystack, needle) != nullptr *)
Definition strstr_found (haystack needle : string) : bool :=
  match String.index 0 needle haystack with Some _ => true | None => false end.

(** The dex files of one mapping, in order. *)
Fixpoint process_dex_files (flags : Flags) (pagemap : list Z) (map_start : Z)
    (dex_files : list DexFile) (vdex_start : Z) : option (list Output) :=
  match dex_files with
  | [] => Some []
  | dex_file :: rest =>
      out ← ProcessOneDexMapping flags pagemap map_start dex_file vdex_start;
      outs ← process_dex_files flags pagemap map_start rest vdex_start;
      Some (out ++ outs)
  end.

(** static bool DisplayMappingIfFromVdexFile(pm_map_t* map) *)
Definition DisplayMappingIfFromVdexFile (env : Env) (flags : Flags) (map : pm_map)
    : option (bool * list Output) :=
  if negb (strstr_found (pm_map_name map) ".vdex") then Some (true, [])
  else
    let vdex_name := pm_map_name map in
    match VdexFile_Open env vdex_name with
    | inr error_msg => Some (false, [OutVdexOpenError vdex_name error_msg])
    | inl vdex =>
        let '(ok, dex_files, error_msg) := OpenAllDexFiles vdex in
        let err := if ok then [] else [OutDexOpenError vdex_name error_msg] in
        let '(rc, pagemap) := pm_map_pagemap map in
        if negb (rc =? 0) then Some (false, err ++ [OutPagemapError])
        else
          outs ← process_dex_files flags pagemap (pm_map_start map) dex_files
                                   (vdex_Begin vdex);
          Some (true, err ++ OutMapping (pm_map_name map) (pm_map_start map) (pm_map_end map)
                              :: outs)
    end.

Definition EXIT_FAILURE : Z := 1.

(** The option loop of DexDiagMain over argv[1 .. argc-2]; [None] on an
    option that is none of -k, -s, -v. *)
Fixpoint parse_flags (args : list string) (flags : Flags) : option Flags :=
  match args with
  | [] => Some flags
  | arg :: rest =>
      if String.eqb arg "-k"
      then parse_flags rest {| g_show_key := true; g_verbose := g_verbose flags;
                               g_show_statistics := g_show_statistics flags |}
      else if String.eqb arg "-s"
      then parse_flags rest {| g_show_key := g_show_key flags; g_verbose := g_verbose flags;
                               g_show_statistics := true |}
      else if String.eqb arg "-v"
      then parse_flags rest {| g_show_key := g_show_key flags; g_verbose := true;
                               g_show_statistics := g_show_statistics flags |}
      else None
  end.

(** strtol(nptr, &endptr, 10): the value and the unread rest of the text. *)
Definition isspace (c : ascii) : bool :=
  let n := nat_of_ascii c in
  (n =? 32)%nat || ((9 <=? n)%nat && (n <=? 13)%nat).

Definition digit_value (c : ascii) : option Z :=
  let n := nat_of_ascii c in
  if ((48 <=? n)%nat && (n <=? 57)%nat) then Some (Z.of_nat n - 48) else None.

Fixpoint skip_spaces (s : string) : string :=
  match s with
  | String c r => if isspace c then skip_spaces r else s
  | EmptyString => s
  end.

Fixpoint read_digits (s : string) (acc : Z) (seen : bool) : Z * string * bool :=
  match s with
  | String c r =>
      match digit_value c with
      | Some d => read_digits r (acc * 10 + d) true
      | None => (acc, s, seen)
      end
  | EmptyString => (acc, s, seen)
  end.

Definition LONG_MAX : Z := 2 ^ (size_t_bits tg - 1) - 1.
Definition LONG_MIN : Z := - 2 ^ (size_t_bits tg - 1).

Definition strtol (nptr : string) : Z * string :=
  let s := skip_spaces nptr in
  let '(negative, s) :=
    match s with
    | String "-" r => (true, r)
    | String "+" r => (false, r)
    | _ => (false, s)
    end in
  let '(magnitude, endptr, seen) := read_digits s 0 false in
  if seen
  then (Z.max LONG_MIN (Z.min LONG_MAX (if negative then - magnitude else magnitude)), endptr)
  else (0, nptr).

(** The mapping loop of DexDiagMain. *)
Fixpoint display_mappings (env : Env) (flags : Flags) (maps : list pm_map)
    : option (bool * list Output) :=
  match maps with
  | [] => Some (true, [])
  | map :: rest =>
      '(ok, out) ← DisplayMappingIfFromVdexFile env flags map;
      if (ok : bool)
      then '(ok_rest, outs) ← display_mappings env flags rest; Some (ok_rest, out ++ outs)
      else Some (false, out)
  end.

(** static int DexDiagMain(int argc, char* argv[]); argc is the length of
    [argv].  The result is the exit code and what was printed; there is no
    result when the page processing leaves defined behaviour. *)
Definition DexDiagMain (env : Env) (argv : list string) : option (Z * list Output) :=
  let argc := length argv in
  let cmd := default EmptyString (head argv) in
  if (argc <? 2)%nat then Some (EXIT_FAILURE, [OutUsage cmd])
  else
    match parse_flags (removelast (tail argv)) no_flags with
    | None => Some (EXIT_FAILURE, [OutUsage cmd])
    | Some flags =>
        let pid_arg := List.last argv EmptyString in
        let '(value, endptr) := strtol pid_arg in
        let pid := to_int32 value in
        if negb (String.eqb endptr EmptyString) || negb (kill env pid =? 0)
        then Some (EXIT_FAILURE, [OutInvalidPid pid_arg])
        else if negb (pm_kernel_create env =? 0)
        then Some (EXIT_FAILURE, [OutKernelError])
        else if negb (pm_process_create env pid =? 0)
        then Some (EXIT_FAILURE, [OutProcessError pid])
        else
          let '(rc, maps) := pm_process_maps env pid in
          if negb (rc =? 0) then Some (EXIT_FAILURE, [OutMapsError])
          else
            '(ok, out) ← display_mappings env flags maps;
            if negb (ok : bool) then Some (EXIT_FAILURE, out)
            else Some (0, out ++ (if g_show_key flags then [PrintLetterKey] else []))
    end.

End Tool.

End DexDiag.

(** * Vocabulary of the statements *)

(** ** Register writes *)
Module ShadowFrameSpec.
Import ShadowFrame.

Definition accepts_write (cfg : Config) (val : Z) : bool :=
  (implb (kVerifyWrites cfg) (VerifyObject cfg val)) &&
  (implb (kUseReadBarrier cfg) (AssertToSpaceInvariant cfg val)).

Definition accepts_read (cfg : Config) (ref : Z) : bool :=
  (implb (kUseReadBarrier cfg) (AssertToSpaceInvariant cfg ref)) &&
  (implb (kVerifyReads cfg) (VerifyObject cfg ref)).

(** What a narrow raw write leaves behind. *)
Definition narrow_written (cfg : Config) (f : frame) (i : nat) (val : Z) : frame :=
  let f1 := with_vregs f (<[i:=to_uint32 val]> (vregs_ f)) in
  if kMovingCollector cfg then with_references f1 (<[i:=nullptr]> (references_ f)) else f1.

(** What a wide raw write leaves behind. *)
Definition wide_written (cfg : Config) (f : frame) (i : nat) (val : Z) : frame :=
  let f1 := with_vregs f (<[S i:=to_uint32 (to_uint64 val / 2 ^ 32)]>
                           (<[i:=to_uint32 (to_uint64 val)]> (vregs_ f))) in
  if kMovingCollector cfg
  then with_references f1 (<[S i:=nullptr]> (<[i:=nullptr]> (references_ f)))
  else f1.

(** The register writes of a frame. *)
Inductive RegisterWrite :=
  | WriteInt (i : nat) (val : Z)
  | WriteFloat (i : nat) (val : Z)
  | WriteLong (i : nat) (val : Z)
  | WriteDouble (i : nat) (val : Z)
  | WriteReference (i : nat) (val : Z).

Definition apply_write (cfg : Config) (f : frame) (w : RegisterWrite) : option frame :=
  match w with
  | WriteInt i val => SetVReg cfg f i val
  | WriteFloat i val => SetVRegFloat cfg f i val
  | WriteLong i val => SetVRegLong cfg f i val
  | WriteDouble i val => SetVRegDouble cfg f i val
  | WriteReference i val => SetVRegReference cfg f i val
  end.

Fixpoint apply_writes (cfg : Config) (f : frame) (ws : list RegisterWrite) : option frame :=
  match ws with
  | [] => Some f
  | w :: ws' => f' ← apply_write cfg f w; apply_writes cfg f' ws'
  end.

(** A write that stays inside the register array of a frame of [n]
    registers: its register, and for a wide write the register behind it,
    exist; a reference passes the checks made on it. *)
Definition admissible (cfg : Config) (n : nat) (w : RegisterWrite) : Prop :=
  match w with
  | WriteInt i _ | WriteFloat i _ => (i < n)%nat
  | WriteLong i _ | WriteDouble i _ => (S i < n)%nat
  | WriteReference i val => (i < n)%nat /\ accepts_write cfg val = true
  end.

(** The invariant of the two arrays: a non-null shadow slot has its
    address's 32-bit pattern in the raw slot. *)
Definition shadow_agrees (f : frame) : Prop :=
  forall (i : nat) (ref : Z),
    references_ f !! i = Some ref -> ref <> nullptr ->
    vregs_ f !! i = Some (to_uint32 ref).

(** The invariant as stated for every configuration: it holds after any
    sequence of writes to a new frame. *)
Definition invariant_after_writes (cfg : Config) (n : nat) (ws : list RegisterWrite) : Prop :=
  forall link method dex_pc f0 f,
    CreateShadowFrameImpl n link method dex_pc = Some f0 ->
    apply_writes cfg f0 ws = Some f ->
    shadow_agrees f.

(** Scenario A: a 4-register frame, register 0 set to the object [X] and
    then overwritten with the integer 42; the reference read afterwards. *)
Definition scenario_A (cfg : Config) (X : Z) : option Z :=
  f ← CreateShadowFrameImpl 4 nullptr 1 0;
  f ← SetVRegReference cfg f 0 X;
  f ← SetVReg cfg f 0 42;
  GetVRegReference cfg f 0.

(** The size equation as stated: the formula, and the bytes construction
    writes. *)
Definition size_is_exact (tg : Target) (num_vregs : Z) : Prop :=
  ComputeSize tg num_vregs =
    sizeof_ShadowFrame tg + num_vregs * 4 + num_vregs * sizeof_StackReference tg /\
  ComputeSize tg num_vregs = bytes_consumed tg num_vregs.

End ShadowFrameSpec.

(** ** The monitor ledger *)
Module LockCountSpec.
Import LockCount.

Definition no_exception : Thread := {| exception_ := None |}.

Definition empty_ledger : LockCountData := {| monitors_ := None |}.

(** [n] locks of the object [X]. *)
Fixpoint add_times (self : Thread) (l : LockCountData) (X : Z) (n : nat) : LockCountData :=
  match n with
  | O => l
  | S n' => add_times self (AddMonitor self l X) X n'
  end.

(** [m] unlocks of the object [X]. *)
Fixpoint remove_times (self : Thread) (l : LockCountData) (X : Z) (m : nat)
    : Thread * LockCountData :=
  match m with
  | O => (self, l)
  | S m' => let '(self', l') := RemoveMonitorOrThrow self l X in remove_times self' l' X m'
  end.

(** Scenario B: X locked twice and unlocked once, the check at frame exit;
    then a second unlock and the check again. *)
Definition scenario_B (X : Z) : (Thread * bool) * (Thread * bool) :=
  let self := no_exception in
  let l := AddMonitor self empty_ledger X in
  let l := AddMonitor self l X in
  let '(self, l) := RemoveMonitorOrThrow self l X in
  let first := CheckAllMonitorsReleasedOrThrow self l in
  let '(self, l) := RemoveMonitorOrThrow (fst first) l X in
  let second := CheckAllMonitorsReleasedOrThrow self l in
  (first, second).

End LockCountSpec.

(** ** The numbering of visited frames *)
Module StackVisitorSpec.
Import StackVisitor.

Definition frame_height (tg : Target) (v : visitor) : Z := fst (GetFrameHeight tg v).
Definition frame_id (tg : Target) (v : visitor) : Z := fst (GetFrameId tg v).

(** The logical frames the cursor stood on. *)
Definition seen_frames (seen : list visitor) : list LogicalFrame := omap cur_frame_ seen.

(** Frame ids that increase from 1 along the visit. *)
Definition ids_increase_from_1 (ids : list Z) : Prop :=
  match ids with
  | [] => True
  | id0 :: _ => id0 = 1 /\ StronglySorted Z.le ids
  end.

(** The numbering as stated: heights fall and ids rise from 1 along the
    visit. *)
Definition numbering_as_stated (tg : Target) (seen : list visitor) : Prop :=
  StronglySorted (fun a b => frame_height tg b <= frame_height tg a) seen /\
  ids_increase_from_1 (map (frame_id tg) seen).

Definition visit_all (v : visitor) : bool := true.

(** An interpreted call, a compiled frame with one inlined call, a
    transition, and the oldest interpreted call. *)
Definition example_stack : list StackEntry :=
  [ShadowEntry 1; QuickEntry 2 [3]; TransitionEntry; ShadowEntry 4].

(** The cursor [x] walks the same stack as [v], with the same frame count. *)
Definition same_stack (v x : visitor) : Prop :=
  thread_ x = thread_ v /\ walk_kind_ x = walk_kind_ v /\ num_frames_ x = num_frames_ v.

(** The cursor [x] stands on the frame its depth indexes, counted from
    depth [d0] at the head of [frames]. *)
Definition at_depth_index (frames : list LogicalFrame) (d0 : Z) (x : visitor) : Prop :=
  exists fr, cur_frame_ x = Some fr /\ frames !! Z.to_nat (cur_depth_ x - d0) = Some fr.

End StackVisitorSpec.

(** ** The page attribution of dexdiag *)
Module DexDiagSpec.
Import DexDiag.

(** The sections in the order GetSortedDexFileSections(kSortDescending)
    returns them: from the highest offset to the lowest. *)
Definition sorted_descending (sections : list DexFileSection) : Prop :=
  StronglySorted (fun a b => offset b <= offset a) sections.

(** A section a page can be attributed to: not empty, and starting at or
    below the page. *)
Definition candidate (kPageSize page : Z) (s : DexFileSection) : Prop :=
  size s <> 0 /\ offset s / kPageSize <= page.

(** PM_PAGEMAP_PRESENT of pagemap.h: bit 63 of a page-table entry. *)
Definition pagemap_present (entry : Z) : bool := Z.testbit entry 63.

Definition resident : Z := 2 ^ 63.
Definition absent : Z := 0.

(** The section types the tool knows. *)
Definition known_section (s : DexFileSection) : Prop :=
  is_Some (kDexSectionInfoMap !! type s).

(** Page counts after at most [k] pages: every known section type has a
    count, and no count exceeds [k]. *)
Definition counts_ok (k : Z) (m : gmap Z Z) : Prop :=
  (forall ty, is_Some (kDexSectionInfoMap !! ty) -> is_Some (m !! ty)) /\
  (forall ty c, m !! ty = Some c -> 0 <= c <= k).

(** The sum of the resident-page column. *)
Definition sum_resident (rows : list StatRow) : Z :=
  foldr (fun row acc => row_resident row + acc) 0 rows.

(** Scenario C: three sections at pages 0, 2 and 4, listed from the
    highest offset down, and a page table with pages 0, 2 and 5 resident. *)
Definition scenario_C_sections : list DexFileSection :=
  [ {| type := kDexTypeCodeItem; size := 6000; offset := 16384 |}
  ; {| type := kDexTypeStringIdItem; size := 400; offset := 8192 |}
  ; {| type := kDexTypeHeaderItem; size := 112; offset := 0 |} ].

Definition scenario_C_pagemap : list Z :=
  [resident; absent; resident; absent; absent; resident].

Definition statistics_only : Flags :=
  {| g_show_key := false; g_verbose := false; g_show_statistics := true |}.

(** *** Exit codes *)

Definition is_option (arg : string) : bool :=
  String.eqb arg "-k" || String.eqb arg "-s" || String.eqb arg "-v".

(** A process id as a text: decimal digits and nothing else, at least
    one of them, naming a positive number that a pid_t (a 32-bit int) holds. *)
Definition is_digit (c : ascii) : bool :=
  ((48 <=? nat_of_ascii c)%nat && (nat_of_ascii c <=? 57)%nat)%bool.

Fixpoint all_digits (s : string) : bool :=
  match s with
  | EmptyString => true
  | String c r => is_digit c && all_digits r
  end.

Fixpoint decimal_value (acc : Z) (s : string) : Z :=
  match s with
  | EmptyString => acc
  | String c r => decimal_value (acc * 10 + (Z.of_nat (nat_of_ascii c) - 48)) r
  end.

Definition valid_pid_text (s : string) : bool :=
  negb (String.eqb s EmptyString) && all_digits s &&
  (0 <? decimal_value 0 s) && (decimal_value 0 s <? 2 ^ 31).

(** A mapping backed by a serialized bytecode container. *)
Definition is_container (m : pm_map) : bool := strstr_found (pm_map_name m) ".vdex".

(** What the mapping loop makes of one mapping: a container that cannot
    be opened, or whose page table cannot be read, fails it. *)
Definition mapping_fails (env : Env) (m : pm_map) : bool :=
  is_container m &&
  match VdexFile_Open env (pm_map_name m) with
  | inr _ => true
  | inl _ => negb (fst (pm_map_pagemap m) =? 0)
  end.

Definition known_sectionb (s : DexFileSection) : bool :=
  match kDexSectionInfoMap !! type s with Some _ => true | None => false end.

(** The page processing of a dex file stays inside the page table, and
    the statistics, when asked for, meet their assertion and know every
    section type. *)
Definition dex_file_processable (tg : Target) (kPageSize : Z) (flags : Flags)
    (pagemap : list Z) (vdex_start : Z) (d : DexFile) : bool :=
  (Begin d <? vdex_start) ||
  (let '(start, end_) := dex_page_range kPageSize (Begin d) (Size d) vdex_start in
   let s := to_size_t tg start in
   let e := to_size_t tg end_ in
   ((e <=? s) || (e <=? Z.of_nat (length pagemap))) &&
   (negb (g_show_statistics flags) ||
    (s =? e) ||
    ((s <? e) && forallb known_sectionb (sorted_sections d) &&
     (Z.of_nat (length (sorted_sections d)) * (e - s) <? 2 ^ size_t_bits tg)))).

Definition mapping_processable (tg : Target) (kPageSize : Z) (env : Env) (flags : Flags)
    (m : pm_map) : bool :=
  negb (is_container m) ||
  match VdexFile_Open env (pm_map_name m) with
  | inr _ => true
  | inl vdex =>
      negb (fst (pm_map_pagemap m) =? 0) ||
      forallb (dex_file_processable tg kPageSize flags (snd (pm_map_pagemap m))
                                    (vdex_Begin vdex))
              (snd (fst (OpenAllDexFiles vdex)))
  end.

(** A process with one container mapping holding Scenario C's dex file,
    and one other mapping. *)
Definition scenario_C_dex : DexFile :=
  {| Begin := 0x7000; Size := 0x5800; GetLocation := "classes.dex";
     sorted_sections := scenario_C_sections |}.

Definition scenario_C_vdex : VdexFile :=
  {| vdex_Begin := 0x7000; OpenAllDexFiles := (true, [scenario_C_dex], EmptyString) |}.

Definition scenario_C_env : Env :=
  {| kill := fun pid => if pid =? 1234 then 0 else -1;
     pm_kernel_create := 0;
     pm_process_create := fun pid => if pid =? 1234 then 0 else -1;
     pm_process_maps := fun pid =>
       (0, [ {| pm_map_name := "/system/lib/libc.so"; pm_map_start := 0x1000;
                pm_map_end := 0x5000; pm_map_pagemap := (0, []) |}
           ; {| pm_map_name := "/data/app/base.vdex"; pm_map_start := 0x10000;
                pm_map_end := 0x16000; pm_map_pagemap := (0, scenario_C_pagemap) |} ]);
     VdexFile_Open := fun name =>
       if String.eqb name "/data/app/base.vdex" then inl scenario_C_vdex
       else inr "No such file"%string |}.

(** A second bytecode unit of the container: one page long, beginning 16
    pages behind the start of the container; a page table of 17 resident
    pages; and the process of Scenario C with this container. *)
Definition later_unit : DexFile :=
  {| Begin := 0x17000; Size := 0x1000; GetLocation := "classes2.dex";
     sorted_sections := [ {| type := kDexTypeHeaderItem; size := 112; offset := 0 |} ] |}.

Definition later_unit_pagemap : list Z := replicate 17 resident.

Definition two_unit_vdex : VdexFile :=
  {| vdex_Begin := 0x7000;
     OpenAllDexFiles := (true, [scenario_C_dex; later_unit], EmptyString) |}.

Definition two_unit_env : Env :=
  {| kill := fun pid => if pid =? 1234 then 0 else -1;
     pm_kernel_create := 0;
     pm_process_create := fun pid => if pid =? 1234 then 0 else -1;
     pm_process_maps := fun pid =>
       (0, [ {| pm_map_name := "/data/app/base.vdex"; pm_map_start := 0x10000;
                pm_map_end := 0x21000; pm_map_pagemap := (0, later_unit_pagemap) |} ]);
     VdexFile_Open := fun name =>
       if String.eqb name "/data/app/base.vdex" then inl two_unit_vdex
       else inr "No such file"%string |}.

End DexDiagSpec.

(** Two targets and two collector configurations.  On both targets a
    StackReference takes four bytes: SetVRegReference stores one into a raw
    register slot, and GetShadowRefAddr addresses the shadow slots as
    uint32_t. *)
Definition ILP32 : Target := {| pointer_size := 4; sizeof_StackReference := 4 |}.
Definition LP64 : Target := {| pointer_size := 8; sizeof_StackReference := 4 |}.

Definition cfg_moving : Config :=
  {| kMovingCollector := true; kUseReadBarrier := true;
     kVerifyReads := false; kVerifyWrites := false;
     AssertToSpaceInvariant := fun _ => true; VerifyObject := fun _ => true |}.

Definition cfg_non_moving : Config :=
  {| kMovingCollector := false; kUseReadBarrier := false;
     kVerifyReads := false; kVerifyWrites := false;
     AssertToSpaceInvariant := fun _ => true; VerifyObject := fun _ => true |}.

(** A frame of four registers, all zero. *)
Definition frame4 : ShadowFrame.frame :=
  {| ShadowFrame.link_ := nullptr; ShadowFrame.method_ := 1;
     ShadowFrame.result_register_ := nullptr; ShadowFrame.dex_pc_ptr_ := nullptr;
     ShadowFrame.code_item_ := None;
     ShadowFrame.lock_count_data_ := {| monitors_ := None |};
     ShadowFrame.number_of_vregs_ := 4; ShadowFrame.dex_pc_ := 0;
     ShadowFrame.cached_hotness_countdown_ := 0; ShadowFrame.hotness_countdown_ := 0;
     ShadowFrame.vregs_ := [0; 0; 0; 0];
     ShadowFrame.references_ := [nullptr; nullptr; nullptr; nullptr] |}.


(** * Vocabulary of the further properties *)

(** A frame whose register 0 was written as a reference and holds it in
    both arrays. *)
Definition stale_frame : ShadowFrame.frame :=
  ShadowFrame.with_references (ShadowFrame.with_vregs frame4 [4096; 0; 0; 0])
                              [4096; nullptr; nullptr; nullptr].

(** ** Pages and their attribution *)
Module DexDiagMoreSpec.
Import DexDiag DexDiagSpec.

(** The [n] consecutive pages from [page] on. *)
Fixpoint pages_from (page : Z) (n : nat) : list Z :=
  match n with
  | O => []
  | S n' => page :: pages_from (page + 1) n'
  end.

(** The page has an entry in the page table and the entry is present. *)
Definition page_is_resident (PM_PAGEMAP_PRESENT : Z -> bool) (pagemap : list Z) (page : Z)
    : bool :=
  match pagemap !! Z.to_nat page with
  | Some entry => PM_PAGEMAP_PRESENT entry
  | None => false
  end.

(** How many of the pages are attributed to the section type [ty], and
    how many of them are resident as well. *)
Definition attributed (kPageSize : Z) (sections : list DexFileSection) (ty : Z)
    (pages : list Z) : Z :=
  Z.of_nat (length (List.filter
    (fun p => FindSectionTypeForPage kPageSize p sections =? ty) pages)).

Definition attributed_resident (kPageSize : Z) (PM_PAGEMAP_PRESENT : Z -> bool)
    (pagemap : list Z) (sections : list DexFileSection) (ty : Z) (pages : list Z) : Z :=
  Z.of_nat (length (List.filter
    (fun p => page_is_resident PM_PAGEMAP_PRESENT pagemap p &&
              (FindSectionTypeForPage kPageSize p sections =? ty)) pages)).

(** The count a PageCount holds for a type, 0 for a type without entry. *)
Definition count_of (m : gmap Z Z) (ty : Z) : Z := default 0 (m !! ty).

(** The character of a page in the verbose map. *)
Definition page_char (kPageSize : Z) (PM_PAGEMAP_PRESENT : Z -> bool) (pagemap : list Z)
    (sections : list DexFileSection) (page : Z) : ascii :=
  if page_is_resident PM_PAGEMAP_PRESENT pagemap page
  then PageTypeChar (FindSectionTypeForPage kPageSize page sections)
  else "."%char.

Definition is_newline (c : ascii) : bool := Ascii.eqb c "010"%char.

(** The text without its line breaks. *)
Fixpoint remove_newlines (s : string) : string :=
  match s with
  | EmptyString => EmptyString
  | String c r => if is_newline c then remove_newlines r else String c (remove_newlines r)
  end.

Definition not_empty (s : DexFileSection) : bool := negb (size s =? 0).

(** A section the page can be attributed to, as a test. *)
Definition candidateb (kPageSize page : Z) (s : DexFileSection) : bool :=
  not_empty s && (offset s / kPageSize <=? page).

(** The output is the letter legend. *)
Definition is_legend (o : Output) : bool :=
  match o with OutLetterKey _ => true | _ => false end.

Definition verbose_only : Flags :=
  {| g_show_key := false; g_verbose := true; g_show_statistics := false |}.

(** The output is one of those the mapping loop produces. *)
Definition from_mappings (o : Output) : bool :=
  match o with
  | OutVdexOpenError _ _ | OutDexOpenError _ _ | OutPagemapError | OutMapping _ _ _
  | OutDexStartError _ _ _ | OutDex _ _ _ | OutPageChars _ | OutStatistics _ _ _ => true
  | _ => false
  end.

Definition is_invalid_pid (o : Output) : bool :=
  match o with OutInvalidPid _ => true | _ => false end.

(** The options of a command line name -k. *)
Definition has_key_option (argv : list string) : bool :=
  existsb (fun a => String.eqb a "-k") (removelast (tail argv)).

(** A container of which the dex files could not all be opened, its
    mapping, a mapping of a container that cannot be opened, and a process
    that has them. *)
Definition partly_opened_vdex : VdexFile :=
  {| vdex_Begin := 0x7000; OpenAllDexFiles := (false, [scenario_C_dex], "bad checksum"%string) |}.

Definition container_map : pm_map :=
  {| pm_map_name := "/data/app/base.vdex"; pm_map_start := 0x10000;
     pm_map_end := 0x16000; pm_map_pagemap := (0, scenario_C_pagemap) |}.

Definition broken_map : pm_map :=
  {| pm_map_name := "/data/app/gone.vdex"; pm_map_start := 0x20000;
     pm_map_end := 0x21000; pm_map_pagemap := (0, []) |}.

Definition partly_opened_env : Env :=
  {| kill := fun pid => if pid =? 0 then 0 else -1;
     pm_kernel_create := 0;
     pm_process_create := fun _ => 0;
     pm_process_maps := fun _ => (0, [container_map]);
     VdexFile_Open := fun name =>
       if String.eqb name "/data/app/base.vdex" then inl partly_opened_vdex
       else inr "No such file"%string |}.

End DexDiagMoreSpec.
(** * Properties *)

(** ** Machine integers *)
Section MachineFacts.

Lemma wrap_range bits z : 0 <= bits -> 0 <= wrap bits z < 2 ^ bits.
Proof. intros Hb. unfold wrap. apply Z.mod_pos_bound. apply Z.pow_pos_nonneg; lia. Qed.

Lemma wrap_small bits z : 0 <= z < 2 ^ bits -> wrap bits z = z.
Proof. intros Hz. unfold wrap. apply Z.mod_small. exact Hz. Qed.

Lemma wrap_wrap bits z : 0 <= bits -> wrap bits (wrap bits z) = wrap bits z.
Proof. intros Hb. apply wrap_small. apply wrap_range. exact Hb. Qed.

Lemma to_uint32_range z : 0 <= to_uint32 z < 2 ^ 32.
Proof. apply wrap_range. lia. Qed.

Lemma to_uint32_small z : 0 <= z < 2 ^ 32 -> to_uint32 z = z.
Proof. apply wrap_small. Qed.

Lemma DCHECK_true b : DCHECK b = Some tt <-> b = true.
Proof. destruct b; simpl; split; congruence. Qed.

End MachineFacts.

(** ** Register writes and the shadow array *)
Module ShadowFrameFacts.
Import ShadowFrame ShadowFrameSpec.

Lemma store_in_range (l : list Z) i v :
  (i < length l)%nat -> store l i v = Some (<[i:=v]> l).
Proof. intros Hi. unfold store. rewrite bool_decide_eq_true_2; auto. Qed.

Lemma store_inv (l l' : list Z) i v :
  store l i v = Some l' -> (i < length l)%nat /\ l' = <[i:=v]> l.
Proof.
  unfold store. case_bool_decide; intros Hs; inversion Hs; auto.
Qed.

Lemma DCHECK_lt_in_range f i :
  (i < NumberOfVRegs f)%nat -> DCHECK (bool_decide (i < NumberOfVRegs f)%nat) = Some tt.
Proof. intros Hi. rewrite bool_decide_eq_true_2; auto. Qed.

Lemma DCHECK_lt_inv f i :
  DCHECK (bool_decide (i < NumberOfVRegs f)%nat) = Some tt -> (i < NumberOfVRegs f)%nat.
Proof. case_bool_decide; simpl; intros Hd; [auto | discriminate]. Qed.

Lemma wf_with_vregs f l :
  wf f -> length l = number_of_vregs_ f -> wf (with_vregs f l).
Proof. intros (H1 & H2 & H3) Hl. repeat split; simpl; auto. Qed.

Lemma wf_with_references f l :
  wf f -> length l = number_of_vregs_ f -> wf (with_references f l).
Proof. intros (H1 & H2 & H3) Hl. repeat split; simpl; auto. Qed.

Lemma wf_construct n link method pc f :
  Z.of_nat n < 2 ^ 32 ->
  CreateShadowFrameImpl n link method pc = Some f ->
  wf f /\ number_of_vregs_ f = n.
Proof.
  intros Hn H. unfold CreateShadowFrameImpl, construct in H. simpl in H.
  inversion H; subst; clear H. unfold wf; simpl.
  rewrite !length_replicate. auto.
Qed.

Ltac in_range := unfold NumberOfVRegs in *; simpl; rewrite ?length_insert; lia.

Lemma SetVReg_in_range cfg f i val :
  wf f -> (i < NumberOfVRegs f)%nat ->
  SetVReg cfg f i val = Some (narrow_written cfg f i val).
Proof.
  intros (Hv & Hr & _) Hi. unfold SetVReg, narrow_written.
  rewrite DCHECK_lt_in_range by exact Hi.
  rewrite (store_in_range (vregs_ f)) by in_range.
  destruct (kMovingCollector cfg); reflexivity.
Qed.

Lemma store_raw_in_range f k v :
  (k < length (vregs_ f))%nat ->
  store_raw f k v = Some (with_vregs f (<[k:=v]> (vregs_ f))).
Proof. intros Hk. unfold store_raw. rewrite bool_decide_eq_true_2; auto. Qed.

Lemma load_raw_in_range f k :
  (k < length (vregs_ f))%nat -> load_raw f k = vregs_ f !! k.
Proof. intros Hk. unfold load_raw. rewrite bool_decide_eq_true_2; auto. Qed.

Lemma SetVRegFloat_in_range cfg f i val :
  wf f -> (i < NumberOfVRegs f)%nat ->
  SetVRegFloat cfg f i val = Some (narrow_written cfg f i val).
Proof. apply SetVReg_in_range. Qed.

Lemma SetVRegLong_in_range cfg f i val :
  wf f -> (S i < NumberOfVRegs f)%nat ->
  SetVRegLong cfg f i val = Some (wide_written cfg f i val).
Proof.
  intros (Hv & Hr & _) Hi. unfold SetVRegLong, wide_written.
  rewrite DCHECK_lt_in_range by in_range.
  rewrite (store_in_range (vregs_ f)) by in_range. cbn [mbind option_bind].
  rewrite store_raw_in_range by in_range. cbn [mbind option_bind].
  destruct (kMovingCollector cfg); reflexivity.
Qed.

Lemma SetVRegDouble_in_range cfg f i val :
  wf f -> (S i < NumberOfVRegs f)%nat ->
  SetVRegDouble cfg f i val = Some (wide_written cfg f i val).
Proof. apply SetVRegLong_in_range. Qed.

Lemma SetVRegReference_in_range cfg f i val :
  wf f -> (i < NumberOfVRegs f)%nat -> accepts_write cfg val = true ->
  SetVRegReference cfg f i val =
    Some (with_references (with_vregs f (<[i:=to_uint32 val]> (vregs_ f)))
                          (<[i:=to_uint32 val]> (references_ f))).
Proof.
  intros (Hv & Hr & _) Hi Hacc. unfold SetVRegReference.
  rewrite DCHECK_lt_in_range by exact Hi.
  unfold accepts_write in Hacc. apply andb_true_iff in Hacc as [Hw Hb].
  destruct (kVerifyWrites cfg); simpl in Hw; [rewrite Hw|]; simpl;
    (destruct (kUseReadBarrier cfg); simpl in Hb; [rewrite Hb|]; simpl);
    rewrite (store_in_range (vregs_ f)) by in_range; simpl;
    rewrite (store_in_range (references_ f)) by in_range; reflexivity.
Qed.

Lemma GetVRegReference_in_range cfg f i :
  wf f -> (i < NumberOfVRegs f)%nat ->
  exists ref, references_ f !! i = Some ref /\
    GetVRegReference cfg f i = if accepts_read cfg ref then Some ref else None.
Proof.
  intros (Hv & Hr & _) Hi.
  destruct (lookup_lt_is_Some_2 (references_ f) i) as [ref Href]; [in_range|].
  exists ref. split; [exact Href|].
  unfold GetVRegReference, References, accepts_read. rewrite DCHECK_lt_in_range by exact Hi.
  simpl. rewrite Href. simpl.
  destruct (kUseReadBarrier cfg), (kVerifyReads cfg); simpl;
    repeat (match goal with |- context [DCHECK ?b] => destruct b end; simpl); reflexivity.
Qed.

Lemma narrow_written_cleared cfg f i val :
  kMovingCollector cfg = true -> wf f -> (i < NumberOfVRegs f)%nat ->
  References (narrow_written cfg f i val) i = Some nullptr.
Proof.
  intros Hm (Hv & Hr & _) Hi. unfold narrow_written, References. rewrite Hm. simpl.
  apply list_lookup_insert_eq. in_range.
Qed.

Lemma wide_written_cleared cfg f i val :
  kMovingCollector cfg = true -> wf f -> (S i < NumberOfVRegs f)%nat ->
  References (wide_written cfg f i val) i = Some nullptr /\
  References (wide_written cfg f i val) (S i) = Some nullptr.
Proof.
  intros Hm (Hv & Hr & _) Hi. unfold wide_written, References. rewrite Hm. simpl. split.
  - rewrite list_lookup_insert_ne by lia. apply list_lookup_insert_eq. in_range.
  - apply list_lookup_insert_eq. in_range.
Qed.

(** C1: under a moving-collector configuration a narrow non-reference
    write (SetVReg, SetVRegFloat) succeeds on every register i < N and
    leaves shadow slot i null; a wide write (SetVRegLong, SetVRegDouble)
    succeeds on every register pair i, i+1 < N and leaves shadow slots i and
    i+1 null; and in a 4-register frame, after SetVRegReference(0, X)
    followed by SetVReg(0, 42), GetVRegReference(0) returns null. *)
Theorem C1_raw_write_clears_shadow (cfg : Config) (f : frame) (i : nat) (val X : Z) :
  kMovingCollector cfg = true ->
  wf f ->
  ((i < NumberOfVRegs f)%nat ->
     exists f1 f2,
       SetVReg cfg f i val = Some f1 /\ SetVRegFloat cfg f i val = Some f2 /\
       References f1 i = Some nullptr /\ References f2 i = Some nullptr) /\
  ((S i < NumberOfVRegs f)%nat ->
     exists f1 f2,
       SetVRegLong cfg f i val = Some f1 /\ SetVRegDouble cfg f i val = Some f2 /\
       References f1 i = Some nullptr /\ References f1 (S i) = Some nullptr /\
       References f2 i = Some nullptr /\ References f2 (S i) = Some nullptr) /\
  (accepts_write cfg X = true -> accepts_read cfg nullptr = true ->
     scenario_A cfg X = Some nullptr).
Proof.
  intros Hm Hwf. split; [|split].
  - intros Hi. exists (narrow_written cfg f i val), (narrow_written cfg f i val).
    rewrite SetVReg_in_range, SetVRegFloat_in_range by assumption.
    pose proof (narrow_written_cleared cfg f i val Hm Hwf Hi). repeat split; auto.
  - intros Hi. exists (wide_written cfg f i val), (wide_written cfg f i val).
    rewrite SetVRegLong_in_range, SetVRegDouble_in_range by assumption.
    destruct (wide_written_cleared cfg f i val Hm Hwf Hi). repeat split; auto.
  - intros Hw Hr. unfold scenario_A, CreateShadowFrameImpl, construct. simpl.
    match goal with |- context [SetVRegReference cfg ?g 0%nat X] => set (f0 := g) end.
    assert (Hwf0 : wf f0) by (repeat split; vm_compute; reflexivity).
    rewrite (SetVRegReference_in_range cfg f0 0 X Hwf0) by (simpl; auto; lia). simpl.
    match goal with |- context [SetVReg cfg ?g 0%nat 42] => set (f1 := g) end.
    assert (Hwf1 : wf f1) by (repeat split; vm_compute; reflexivity).
    rewrite (SetVReg_in_range cfg f1 0 42 Hwf1) by (simpl; lia). simpl.
    set (f2 := narrow_written cfg f1 0 42).
    assert (Hwf2 : wf f2).
    { unfold f2, narrow_written. rewrite Hm. repeat split; vm_compute; reflexivity. }
    destruct (GetVRegReference_in_range cfg f2 0 Hwf2) as (ref & Href & Hget).
    { unfold f2, narrow_written. rewrite Hm. simpl. lia. }
    assert (ref = nullptr).
    { unfold f2, narrow_written in Href. rewrite Hm in Href. simpl in Href. congruence. }
    subst ref. rewrite Hget, Hr. reflexivity.
Qed.

Lemma wf_frame4 : wf frame4.
Proof. repeat split; vm_compute; reflexivity. Qed.

Lemma C1_raw_write_clears_shadow_witness :
  (exists f1 f2,
     SetVReg cfg_moving frame4 0 42 = Some f1 /\ SetVRegFloat cfg_moving frame4 0 42 = Some f2 /\
     References f1 0 = Some nullptr /\ References f2 0 = Some nullptr) /\
  (exists f1 f2,
     SetVRegLong cfg_moving frame4 0 42 = Some f1 /\
     SetVRegDouble cfg_moving frame4 0 42 = Some f2 /\
     References f1 0 = Some nullptr /\ References f1 1 = Some nullptr /\
     References f2 0 = Some nullptr /\ References f2 1 = Some nullptr) /\
  scenario_A cfg_moving 4096 = Some nullptr.
Proof.
  destruct (C1_raw_write_clears_shadow cfg_moving frame4 0 42 4096 eq_refl wf_frame4)
    as (Hn & Hw & Hs).
  split; [apply Hn; simpl; lia | split; [apply Hw; simpl; lia | apply Hs; reflexivity]].
Defined.

(** *** The invariant of the two arrays *)

Lemma wf_narrow_written cfg f i val : wf f -> wf (narrow_written cfg f i val).
Proof.
  intros (Hv & Hr & Hn). unfold narrow_written.
  destruct (kMovingCollector cfg); repeat split; simpl; rewrite ?length_insert; auto.
Qed.

Lemma wf_wide_written cfg f i val : wf f -> wf (wide_written cfg f i val).
Proof.
  intros (Hv & Hr & Hn). unfold wide_written.
  destruct (kMovingCollector cfg); repeat split; simpl; rewrite ?length_insert; auto.
Qed.

Lemma shadow_agrees_narrow cfg f i val :
  kMovingCollector cfg = true -> shadow_agrees f ->
  shadow_agrees (narrow_written cfg f i val).
Proof.
  intros Hm Hinv j ref. unfold narrow_written. rewrite Hm. simpl.
  destruct (decide (i = j)) as [->|Hne].
  - intros Href Hnz. exfalso.
    destruct (decide (j < length (references_ f))%nat) as [Hlt|Hge].
    + rewrite list_lookup_insert_eq in Href by exact Hlt. congruence.
    + rewrite list_insert_ge in Href by lia.
      apply lookup_lt_Some in Href. lia.
  - rewrite !list_lookup_insert_ne by exact Hne. apply Hinv.
Qed.

Lemma lookup_insert_null (l : list Z) (i j : nat) (ref : Z) :
  <[i:=nullptr]> l !! j = Some ref -> ref <> nullptr -> i <> j /\ l !! j = Some ref.
Proof.
  intros Href Hnz. destruct (decide (i = j)) as [->|Hne].
  - exfalso. destruct (decide (j < length l)%nat) as [Hlt|Hge].
    + rewrite list_lookup_insert_eq in Href by exact Hlt. congruence.
    + rewrite list_insert_ge in Href by lia. apply lookup_lt_Some in Href. lia.
  - rewrite list_lookup_insert_ne in Href by exact Hne. auto.
Qed.

Lemma shadow_agrees_wide cfg f i val :
  kMovingCollector cfg = true -> shadow_agrees f ->
  shadow_agrees (wide_written cfg f i val).
Proof.
  intros Hm Hinv j ref. unfold wide_written. rewrite Hm. simpl.
  intros Href Hnz.
  apply lookup_insert_null in Href as [Hne1 Href]; [|exact Hnz].
  apply lookup_insert_null in Href as [Hne2 Href]; [|exact Hnz].
  rewrite !list_lookup_insert_ne by assumption. apply Hinv; assumption.
Qed.

Lemma shadow_agrees_reference f i val :
  wf f -> (i < NumberOfVRegs f)%nat -> shadow_agrees f ->
  shadow_agrees (with_references (with_vregs f (<[i:=to_uint32 val]> (vregs_ f)))
                                 (<[i:=to_uint32 val]> (references_ f))).
Proof.
  intros (Hv & Hr & _) Hi Hinv j ref. simpl.
  destruct (decide (i = j)) as [->|Hne].
  - rewrite !list_lookup_insert_eq by in_range. intros Href _.
    inversion Href; subst ref. unfold to_uint32. rewrite wrap_wrap by lia. reflexivity.
  - rewrite !list_lookup_insert_ne by exact Hne. apply Hinv.
Qed.

Lemma shadow_agrees_new n link method dex_pc f :
  CreateShadowFrameImpl n link method dex_pc = Some f -> shadow_agrees f.
Proof.
  unfold CreateShadowFrameImpl, construct. simpl. intros Hc. inversion Hc; subst; clear Hc.
  intros i ref. simpl. intros Href Hnz.
  apply lookup_replicate in Href as [-> _]. congruence.
Qed.

(** What a write inside the register array does. *)
Lemma apply_write_admissible cfg f w :
  wf f -> admissible cfg (NumberOfVRegs f) w ->
  apply_write cfg f w =
    Some match w with
         | WriteInt i val | WriteFloat i val => narrow_written cfg f i val
         | WriteLong i val | WriteDouble i val => wide_written cfg f i val
         | WriteReference i val =>
             with_references (with_vregs f (<[i:=to_uint32 val]> (vregs_ f)))
                             (<[i:=to_uint32 val]> (references_ f))
         end.
Proof.
  intros Hwf Hadm. destruct w as [i val|i val|i val|i val|i val]; simpl in *.
  - apply SetVReg_in_range; assumption.
  - apply SetVRegFloat_in_range; assumption.
  - apply SetVRegLong_in_range; assumption.
  - apply SetVRegDouble_in_range; assumption.
  - destruct Hadm. apply SetVRegReference_in_range; assumption.
Qed.

Lemma apply_write_preserves cfg f w :
  kMovingCollector cfg = true -> wf f -> shadow_agrees f ->
  admissible cfg (NumberOfVRegs f) w ->
  exists f', apply_write cfg f w = Some f' /\
    wf f' /\ shadow_agrees f' /\ NumberOfVRegs f' = NumberOfVRegs f.
Proof.
  intros Hm Hwf Hinv Hadm.
  rewrite (apply_write_admissible cfg f w Hwf Hadm). eexists. split; [reflexivity|].
  destruct w as [i val|i val|i val|i val|i val]; simpl in *.
  - split; [apply wf_narrow_written; assumption|].
    split; [apply shadow_agrees_narrow; assumption|].
    unfold narrow_written. rewrite Hm. reflexivity.
  - split; [apply wf_narrow_written; assumption|].
    split; [apply shadow_agrees_narrow; assumption|].
    unfold narrow_written. rewrite Hm. reflexivity.
  - split; [apply wf_wide_written; assumption|].
    split; [apply shadow_agrees_wide; assumption|].
    unfold wide_written. rewrite Hm. reflexivity.
  - split; [apply wf_wide_written; assumption|].
    split; [apply shadow_agrees_wide; assumption|].
    unfold wide_written. rewrite Hm. reflexivity.
  - destruct Hadm as [Hi _].
    split; [|split; [apply shadow_agrees_reference; assumption | reflexivity]].
    destruct Hwf as (Hv & Hr & Hn). repeat split; simpl; rewrite ?length_insert; auto.
Qed.

Lemma apply_writes_preserve cfg ws : forall f,
  kMovingCollector cfg = true -> wf f -> shadow_agrees f ->
  Forall (admissible cfg (NumberOfVRegs f)) ws ->
  exists f', apply_writes cfg f ws = Some f' /\ wf f' /\ shadow_agrees f'.
Proof.
  induction ws as [|w ws IH]; intros f Hm Hwf Hinv Hall; simpl.
  - eauto.
  - inversion Hall as [|? ? Hw Hrest]; subst.
    destruct (apply_write_preserves cfg f w Hm Hwf Hinv Hw) as (f1 & Hf1 & Hwf1 & Hinv1 & Hn1).
    rewrite Hf1. simpl. apply IH; try assumption. rewrite Hn1. exact Hrest.
Qed.

(** C2 (amended): under a moving-collector configuration, for every new
    frame of N registers and every sequence of register writes that stay
    inside its register array (register i < N, and i+1 < N as well for a wide
    write; a reference passing the checks made on it), the writes run to
    completion and afterwards every register whose shadow slot is non-null
    holds that address's 32-bit pattern in its raw slot; and in every
    configuration SetVRegReference(i, obj) writes the 32-bit pattern of obj's
    address into both the raw slot and the shadow slot, which makes the two
    agree on register i. *)
Theorem C2_shadow_agrees_under_moving_collector
    (cfg : Config) (n : nat) (ws : list RegisterWrite) (f : frame) (i : nat) (obj : Z) :
  Z.of_nat n < 2 ^ 32 ->
  (kMovingCollector cfg = true ->
   Forall (admissible cfg n) ws ->
   forall link method dex_pc, exists f0 f',
     CreateShadowFrameImpl n link method dex_pc = Some f0 /\
     apply_writes cfg f0 ws = Some f' /\
     shadow_agrees f') /\
  (wf f -> (i < NumberOfVRegs f)%nat -> accepts_write cfg obj = true ->
     exists f', SetVRegReference cfg f i obj = Some f' /\
                vregs_ f' !! i = Some (to_uint32 obj) /\
                references_ f' !! i = Some (to_uint32 obj) /\
                (forall ref, references_ f' !! i = Some ref ->
                             vregs_ f' !! i = Some (to_uint32 ref))).
Proof.
  intros Hn. split.
  - intros Hm Hall link method dex_pc.
    destruct (CreateShadowFrameImpl n link method dex_pc) as [f0|] eqn:Hc;
      [|unfold CreateShadowFrameImpl, construct in Hc; discriminate].
    destruct (wf_construct n link method dex_pc f0 Hn Hc) as [Hwf0 Hn0].
    pose proof (shadow_agrees_new n link method dex_pc f0 Hc) as Hinv0.
    destruct (apply_writes_preserve cfg ws f0 Hm Hwf0 Hinv0) as (f' & Hf' & _ & Hinv').
    { unfold NumberOfVRegs. rewrite Hn0. exact Hall. }
    exists f0, f'. auto.
  - intros Hwf Hi Hacc. rewrite SetVRegReference_in_range by assumption.
    eexists. split; [reflexivity|]. destruct Hwf as (Hv & Hr & _). simpl.
    rewrite !list_lookup_insert_eq by in_range.
    split; [reflexivity|]. split; [reflexivity|].
    intros ref Href. inversion Href; subst ref.
    unfold to_uint32. rewrite wrap_wrap by lia. reflexivity.
Qed.

Lemma C2_shadow_agrees_under_moving_collector_witness :
  (exists f0 f',
     CreateShadowFrameImpl 4 nullptr 1 0 = Some f0 /\
     apply_writes cfg_moving f0 [WriteReference 0 4096; WriteInt 0 42; WriteLong 1 7]
       = Some f' /\
     shadow_agrees f') /\
  (exists f', SetVRegReference cfg_non_moving frame4 0 0x100001000 = Some f' /\
              vregs_ f' !! 0%nat = Some (to_uint32 0x100001000) /\
              references_ f' !! 0%nat = Some (to_uint32 0x100001000) /\
              (forall ref, references_ f' !! 0%nat = Some ref ->
                           vregs_ f' !! 0%nat = Some (to_uint32 ref))).
Proof.
  destruct (C2_shadow_agrees_under_moving_collector cfg_moving 4
              [WriteReference 0 4096; WriteInt 0 42; WriteLong 1 7] frame4 0 4096
              eq_refl) as (Hrun & _).
  destruct (C2_shadow_agrees_under_moving_collector cfg_non_moving 4
              [] frame4 0 0x100001000 eq_refl) as (_ & Hset).
  split.
  - apply Hrun; [reflexivity|]. repeat constructor; simpl; lia.
  - apply Hset; [exact wf_frame4 | simpl; lia | reflexivity].
Defined.

(** C2, as stated for every configuration, fails without a moving
    collector: after SetVRegReference(0, 4096) and SetVReg(0, 42) shadow
    slot 0 still holds 4096 while raw slot 0 holds 42. *)
Lemma C2_counterexample_non_moving :
  ~ invariant_after_writes cfg_non_moving 4 [WriteReference 0 4096; WriteInt 0 42].
Proof.
  intros Hclaim.
  specialize (Hclaim nullptr 1 0 frame4
    (with_references (with_vregs frame4 [42; 0; 0; 0]) [4096; 0; 0; 0]) eq_refl eq_refl).
  specialize (Hclaim 0%nat 4096 eq_refl). simpl in Hclaim.
  assert (H4096 : 4096 <> nullptr) by (unfold nullptr; lia).
  specialize (Hclaim H4096). vm_compute in Hclaim. discriminate.
Qed.

(** Under a moving collector too the invariant needs the wide writes to
    stay inside the register array: SetVRegLong on the last register of a
    4-register frame passes its check, puts the high word of the value into
    References()[0] and leaves raw slot 0 as it was. *)
Example wide_write_on_last_register_spills :
  exists f,
    SetVRegLong cfg_moving frame4 3 (4096 * 2 ^ 32) = Some f /\
    References f 0 = Some 4096 /\ vregs_ f !! 0%nat = Some 0 /\
    References f 3 = Some nullptr /\
    ~ invariant_after_writes cfg_moving 4 [WriteLong 3 (4096 * 2 ^ 32)].
Proof.
  eexists. split; [vm_compute; reflexivity|].
  split; [reflexivity|]. split; [reflexivity|]. split; [reflexivity|].
  intros Hclaim.
  specialize (Hclaim nullptr 1 0 frame4 _ eq_refl eq_refl 0%nat 4096 eq_refl).
  assert (H4096 : 4096 <> nullptr) by (unfold nullptr; lia).
  specialize (Hclaim H4096). vm_compute in Hclaim. discriminate.
Qed.

(** *** The reference array is always present *)



(** The address GetShadowRefAddr gives for a shadow slot above the first
    is the address of References()[i] exactly when a StackReference takes
    four bytes. *)
Lemma GetShadowRefAddr_agrees (tg : Target) (this : Z) (f : frame) (i : nat) :
  (0 < i < NumberOfVRegs f)%nat ->
  (GetShadowRefAddr tg this f i = Some (ReferencesAddr tg this f (Z.of_nat i)) <->
   sizeof_StackReference tg = 4).
Proof.
  intros Hi. unfold GetShadowRefAddr, ReferencesAddr, VRegAddr. simpl.
  rewrite bool_decide_eq_true_2 by lia. simpl. split.
  - intros Heq. inversion Heq. nia.
  - intros ->. f_equal. lia.
Qed.

(** *** The two forms of the dex pc *)

(** C6: GetDexPC returns the stored index when the pointer form is null,
    and otherwise the distance of the pointer from the start of the
    instruction array, counted in 16-bit code units; SetDexPC(pc) stores the
    index and clears the pointer form, so that GetDexPC returns pc. *)
Theorem C6_dex_pc_forms (f : frame) (ci : CodeItem) (k pc : Z) :
  0 <= k < 2 ^ 32 ->
  0 <= pc < 2 ^ 32 ->
  (dex_pc_ptr_ f = nullptr -> GetDexPC f = Some (dex_pc_ f)) /\
  (dex_pc_ptr_ f <> nullptr -> code_item_ f = Some ci ->
     dex_pc_ptr_ f = insns_ ci + 2 * k -> GetDexPC f = Some k) /\
  (dex_pc_ (SetDexPC f pc) = pc /\ dex_pc_ptr_ (SetDexPC f pc) = nullptr /\
   GetDexPC (SetDexPC f pc) = Some pc).
Proof.
  intros Hk Hpc. split; [|split].
  - intros Hnull. unfold GetDexPC. rewrite Hnull. reflexivity.
  - intros Hptr Hci Hdist. unfold GetDexPC.
    destruct (Z.eqb_spec (dex_pc_ptr_ f) nullptr) as [Heq|_]; [contradiction|].
    rewrite Hci. simpl. f_equal.
    replace (dex_pc_ptr_ f - insns_ ci) with (k * 2) by lia.
    rewrite Z.div_mul by lia. apply to_uint32_small. exact Hk.
  - unfold SetDexPC, GetDexPC. simpl. rewrite to_uint32_small by exact Hpc. auto.
Qed.

Lemma C6_dex_pc_forms_witness :
  (dex_pc_ptr_ frame4 = nullptr -> GetDexPC frame4 = Some (dex_pc_ frame4)) /\
  GetDexPC (SetDexPCPtr (SetCodeItem frame4 (Some {| insns_ := 5000 |})) 5010) = Some 5 /\
  (dex_pc_ (SetDexPC frame4 7) = 7 /\ dex_pc_ptr_ (SetDexPC frame4 7) = nullptr /\
   GetDexPC (SetDexPC frame4 7) = Some 7).
Proof.
  assert (H5 : 0 <= 5 < 2 ^ 32) by lia.
  assert (H7 : 0 <= 7 < 2 ^ 32) by lia.
  destruct (C6_dex_pc_forms frame4 {| insns_ := 5000 |} 5 7 H5 H7) as (Hidx & _ & Hset).
  destruct (C6_dex_pc_forms
              (SetDexPCPtr (SetCodeItem frame4 (Some {| insns_ := 5000 |})) 5010)
              {| insns_ := 5000 |} 5 7 H5 H7) as (_ & Hptr & _).
  split; [exact Hidx|]. split; [|exact Hset].
  apply Hptr; [vm_compute; discriminate | reflexivity | reflexivity].
Defined.

(** *** The size of a frame *)

Lemma layout_of_target tg :
  target_ok tg ->
  (pointer_size tg = 4 /\ sizeof_ShadowFrame tg = 36 /\ VRegsOffset tg = 36) \/
  (pointer_size tg = 8 /\ sizeof_ShadowFrame tg = 64 /\ VRegsOffset tg = 60).
Proof.
  intros [[Hp|Hp] _]; [left|right]; (split; [exact Hp|]);
    unfold sizeof_ShadowFrame, VRegsOffset, members; rewrite Hp; vm_compute; auto.
Qed.

(** C3 (amended): for every register count N of a 32-bit unsigned whose
    frame size fits in size_t (every N on a 64-bit target), ComputeSize(N)
    is sizeof(ShadowFrame) + N*4 + N*sizeof(StackReference); construction
    writes no byte beyond it, and fewer bytes only by the tail padding of
    the header, none when the register array starts at sizeof(ShadowFrame). *)
Theorem C3_ComputeSize_covers_construction (tg : Target) (N : Z) :
  target_ok tg ->
  0 <= N < 2 ^ 32 ->
  (pointer_size tg = 8 \/
   sizeof_ShadowFrame tg + N * 4 + N * sizeof_StackReference tg < 2 ^ size_t_bits tg) ->
  ComputeSize tg N = sizeof_ShadowFrame tg + N * 4 + N * sizeof_StackReference tg /\
  bytes_consumed tg N <= ComputeSize tg N /\
  ComputeSize tg N - bytes_consumed tg N <= sizeof_ShadowFrame tg - VRegsOffset tg /\
  (VRegsOffset tg = sizeof_ShadowFrame tg -> bytes_consumed tg N = ComputeSize tg N).
Proof.
  intros Hok HN Hfit.
  pose proof Hok as [_ Hr].
  assert (Hbits : 2 ^ size_t_bits tg = 2 ^ 32 \/ 2 ^ size_t_bits tg = 2 ^ 64).
  { unfold size_t_bits. destruct Hok as [[Hp|Hp] _]; rewrite Hp; auto. }
  assert (Hbound : sizeof_ShadowFrame tg + N * 4 + N * sizeof_StackReference tg
                   < 2 ^ size_t_bits tg).
  { destruct Hfit as [Hp|Hfit]; [|exact Hfit].
    destruct (layout_of_target tg Hok) as [(Hp4 & _)|(_ & Hs & _)]; [lia|].
    unfold size_t_bits. rewrite Hp, Hs. nia. }
  assert (Hlay : 0 < VRegsOffset tg <= sizeof_ShadowFrame tg).
  { destruct (layout_of_target tg Hok) as [(_ & -> & ->)|(_ & -> & ->)]; lia. }
  assert (Hsize : ComputeSize tg N =
                  sizeof_ShadowFrame tg + N * 4 + N * sizeof_StackReference tg).
  { unfold ComputeSize, size_add, size_mul, to_size_t.
    rewrite (wrap_small _ (4 * N)) by nia.
    rewrite (wrap_small _ (sizeof_StackReference tg * N)) by nia.
    rewrite (wrap_small _ (sizeof_ShadowFrame tg + 4 * N)) by nia.
    rewrite wrap_small by nia. lia. }
  assert (Hset : memset_length tg N true = N * (4 + sizeof_StackReference tg)).
  { unfold memset_length, size_add, size_mul, to_size_t.
    rewrite (wrap_small _ (4 + sizeof_StackReference tg)) by lia.
    apply wrap_small. nia. }
  unfold bytes_consumed. rewrite Hset, Hsize.
  repeat split; lia.
Qed.

Lemma C3_ComputeSize_covers_construction_witness :
  ComputeSize LP64 4 = sizeof_ShadowFrame LP64 + 4 * 4 + 4 * sizeof_StackReference LP64 /\
  bytes_consumed LP64 4 <= ComputeSize LP64 4 /\
  ComputeSize LP64 4 - bytes_consumed LP64 4 <= sizeof_ShadowFrame LP64 - VRegsOffset LP64 /\
  (VRegsOffset LP64 = sizeof_ShadowFrame LP64 -> bytes_consumed LP64 4 = ComputeSize LP64 4).
Proof.
  apply (C3_ComputeSize_covers_construction LP64 4).
  - unfold target_ok. simpl. lia.
  - lia.
  - left. reflexivity.
Defined.

(** C3 as stated fails on a 32-bit target: ComputeSize(2^29 - 1) wraps
    around to 28, which is neither the sum of the three sizes nor the extent
    of the construction, whose memset alone covers 2^32 - 8 bytes. *)
Lemma C3_counterexample_size_wraps :
  ~ size_is_exact ILP32 (2 ^ 29 - 1).
Proof.
  intros [Hformula Hbytes]. vm_compute in Hformula. discriminate.
Qed.

(** On a 64-bit target the register array starts in the tail padding of
    the header: ComputeSize(1) is 72 while construction writes the 68 bytes
    up to the end of the reference array. *)
Example LP64_tail_padding :
  sizeof_ShadowFrame LP64 = 64 /\ VRegsOffset LP64 = 60 /\
  ComputeSize LP64 1 = 72 /\ bytes_consumed LP64 1 = 68.
Proof. vm_compute. auto. Qed.

End ShadowFrameFacts.

(** ** The monitor ledger *)
Module LockCountFacts.
Import LockCount LockCountSpec.

Lemma remove_last_replicate (X : Z) (k : nat) :
  remove_last X (replicate (S k) X) = Some (replicate k X).
Proof.
  induction k as [|k IH].
  - simpl. rewrite Z.eqb_refl. reflexivity.
  - change (replicate (S (S k)) X) with (X :: replicate (S k) X).
    cbn [remove_last]. rewrite IH. reflexivity.
Qed.

Lemma monitors_add self l X :
  IsExceptionPending self = false ->
  monitors (AddMonitor self l X) = monitors l ++ [X].
Proof. intros Hp. unfold AddMonitor. rewrite Hp. reflexivity. Qed.

Lemma monitors_add_times self X n : forall l k,
  IsExceptionPending self = false ->
  monitors l = replicate k X ->
  monitors (add_times self l X n) = replicate (k + n) X.
Proof.
  induction n as [|n IH]; intros l k Hp Hl; simpl.
  - rewrite Nat.add_0_r. exact Hl.
  - rewrite (IH (AddMonitor self l X) (S k) Hp).
    + f_equal. lia.
    + rewrite monitors_add by exact Hp. rewrite Hl. symmetry. apply replicate_S_end.
Qed.

Lemma remove_times_replicate X m : forall self l k,
  (m <= k)%nat ->
  monitors l = replicate k X ->
  fst (remove_times self l X m) = self /\
  monitors (snd (remove_times self l X m)) = replicate (k - m) X.
Proof.
  induction m as [|m IH]; intros self l k Hle Hl; simpl.
  - rewrite Nat.sub_0_r. auto.
  - destruct k as [|k]; [lia|].
    unfold RemoveMonitorOrThrow. rewrite Hl, remove_last_replicate.
    apply IH; [lia | reflexivity].
Qed.

Lemma check_raises_iff self l :
  raises (CheckAllMonitorsReleasedOrThrow self l) <-> monitors l <> [].
Proof.
  unfold raises, CheckAllMonitorsReleasedOrThrow.
  destruct (monitors l) as [|x xs]; simpl; split.
  - intros [Hf _]. discriminate.
  - intros Hne. contradiction.
  - intros _. discriminate.
  - intros _. auto.
Qed.

(** C5: CheckAllMonitorsReleasedOrThrow raises IllegalMonitorState exactly
    when the ledger is not empty, and otherwise answers true and leaves the
    thread as it was; after n locks and m <= n unlocks of an object it raises
    exactly when m < n; in particular after AddMonitor(X) twice and
    RemoveMonitorOrThrow(X) once it raises, and after a second
    RemoveMonitorOrThrow(X) it does not. *)
Theorem C5_check_raises_iff_monitors_held
    (self : Thread) (l : LockCountData) (X : Z) (n m : nat) :
  IsExceptionPending self = false ->
  (m <= n)%nat ->
  (raises (CheckAllMonitorsReleasedOrThrow self l) <-> monitors l <> []) /\
  (monitors l = [] -> CheckAllMonitorsReleasedOrThrow self l = (self, true)) /\
  (let '(self', l') := remove_times self (add_times self empty_ledger X n) X m in
   raises (CheckAllMonitorsReleasedOrThrow self' l') <-> (m < n)%nat) /\
  (raises (fst (scenario_B X)) /\
   ~ raises (snd (scenario_B X)) /\ snd (snd (scenario_B X)) = true).
Proof.
  intros Hp Hle. split; [apply check_raises_iff|]. split; [|split].
  - intros Hempty. unfold CheckAllMonitorsReleasedOrThrow. rewrite Hempty. reflexivity.
  - pose proof (monitors_add_times self X n empty_ledger 0 Hp eq_refl) as Hadd.
    simpl in Hadd.
    destruct (remove_times_replicate X m self (add_times self empty_ledger X n) n Hle Hadd)
      as [Hs Hl].
    destruct (remove_times self (add_times self empty_ledger X n) X m) as [self' l'].
    simpl in Hs, Hl. rewrite check_raises_iff, Hl.
    destruct (n - m)%nat as [|d] eqn:Hd; simpl; split; intros H; try lia; congruence.
  - unfold scenario_B, AddMonitor, RemoveMonitorOrThrow. simpl. rewrite Z.eqb_refl. simpl.
    unfold raises. simpl. rewrite Z.eqb_refl. simpl.
    repeat split; auto. intros [Hf _]. discriminate.
Qed.

Lemma C5_check_raises_iff_monitors_held_witness :
  (raises (CheckAllMonitorsReleasedOrThrow no_exception empty_ledger) <->
     monitors empty_ledger <> []) /\
  (monitors empty_ledger = [] ->
     CheckAllMonitorsReleasedOrThrow no_exception empty_ledger = (no_exception, true)) /\
  (let '(self', l') :=
     remove_times no_exception (add_times no_exception empty_ledger 77 2) 77 1 in
   raises (CheckAllMonitorsReleasedOrThrow self' l') <-> (1 < 2)%nat) /\
  (raises (fst (scenario_B 77)) /\
   ~ raises (snd (scenario_B 77)) /\ snd (snd (scenario_B 77)) = true).
Proof.
  apply (C5_check_raises_iff_monitors_held no_exception empty_ledger 77 2 1).
  - reflexivity.
  - lia.
Defined.

End LockCountFacts.

(** ** The numbering of visited frames *)
Module StackVisitorFacts.
Import StackVisitor StackVisitorSpec.

Lemma size_t_small tg z : 0 <= z < 2 ^ size_t_bits tg -> to_size_t tg z = z.
Proof. apply wrap_small. Qed.

Lemma same_stack_refl v : same_stack v v.
Proof. repeat split. Qed.

Lemma same_stack_trans v w x : same_stack v w -> same_stack w x -> same_stack v x.
Proof. intros (A & B & C) (D & E & F). repeat split; congruence. Qed.

Lemma same_stack_with_frame v fr : same_stack v (with_frame v fr).
Proof. repeat split. Qed.

Lemma advance_spec tg kCount fr here :
  0 <= cur_depth_ here -> cur_depth_ here + 1 < 2 ^ size_t_bits tg ->
  same_stack here (advance tg kCount fr here) /\
  cur_depth_ here <= cur_depth_ (advance tg kCount fr here) <= cur_depth_ here + 1 /\
  (kCount = kYes -> cur_depth_ (advance tg kCount fr here) = cur_depth_ here + 1).
Proof.
  intros H0 H1. unfold advance.
  destruct kCount; [|destruct (is_transition fr)]; simpl;
    rewrite ?size_t_small by lia; repeat split; try lia; try discriminate.
Qed.

Lemma Forall_same_stack_trans v w (l : list visitor) :
  same_stack v w -> Forall (same_stack w) l -> Forall (same_stack v) l.
Proof.
  intros Hvw Hl. eapply Forall_impl; [exact Hl|].
  intros x. apply same_stack_trans. exact Hvw.
Qed.

(** The cursors of one walk: same stack, depths within the walked frames
    and rising, frames in stack order. *)
Lemma walk_seen tg kCount incl VF frames : forall v seen v',
  walk tg kCount incl VF frames v = (seen, v') ->
  0 <= cur_depth_ v ->
  cur_depth_ v + Z.of_nat (length frames) < 2 ^ size_t_bits tg ->
  Forall (same_stack v) seen /\
  Forall (fun x => cur_depth_ v <= cur_depth_ x <=
                   cur_depth_ v + Z.of_nat (length frames) - 1) seen /\
  StronglySorted (fun a b => cur_depth_ a <= cur_depth_ b) seen /\
  sublist (seen_frames seen) frames.
Proof.
  induction frames as [|fr rest IH]; intros v seen v' Hw H0 Hfit.
  - simpl in Hw. inversion Hw; subst.
    repeat split; try constructor.
  - cbn [walk] in Hw. cbn [length] in *.
    set (here := with_frame v fr) in *.
    assert (Hd : cur_depth_ here = cur_depth_ v) by reflexivity.
    destruct (advance_spec tg kCount fr here) as (Hss & Hdep & _); [lia | lia |].
    set (next := advance tg kCount fr here) in *.
    assert (Hrec : forall seen1 v1,
      walk tg kCount incl VF rest next = (seen1, v1) ->
      Forall (same_stack v) seen1 /\
      Forall (fun x => cur_depth_ next <= cur_depth_ x <=
                       cur_depth_ v + Z.of_nat (S (length rest)) - 1) seen1 /\
      StronglySorted (fun a b => cur_depth_ a <= cur_depth_ b) seen1 /\
      sublist (seen_frames seen1) rest).
    { intros seen1 v1 Hw1.
      destruct (IH next seen1 v1 Hw1) as (A & B & C & D); [lia | lia |].
      split; [|split; [|split]]; try assumption.
      - eapply Forall_same_stack_trans; [|exact A].
        eapply same_stack_trans; [apply same_stack_with_frame | exact Hss].
      - eapply Forall_impl; [exact B|]. cbv beta. intros x Hx. lia. }
    destruct (negb (is_transition fr) || incl).
    + destruct (VF here).
      * destruct (walk tg kCount incl VF rest next) as [seen1 v1] eqn:Hw1.
        inversion Hw; subst; clear Hw.
        destruct (Hrec seen1 v' eq_refl) as (A & B & C & D).
        split; [|split; [|split]].
        -- constructor; [apply same_stack_with_frame | exact A].
        -- constructor; [lia|]. eapply Forall_impl; [exact B|]. cbv beta. intros x Hx. lia.
        -- constructor; [exact C|]. eapply Forall_impl; [exact B|]. cbv beta. intros x Hx. lia.
        -- unfold seen_frames. simpl. apply sublist_skip. exact D.
      * inversion Hw; subst; clear Hw.
        split; [|split; [|split]].
        -- repeat constructor.
        -- repeat constructor; lia.
        -- repeat constructor.
        -- unfold seen_frames. simpl. apply sublist_skip. apply sublist_nil_l.
    + destruct (Hrec seen v' Hw) as (A & B & C & D).
      split; [|split; [|split]]; try assumption.
      * eapply Forall_impl; [exact B|]. cbv beta. intros x Hx. lia.
      * apply sublist_cons. exact D.
Qed.

(** When transitions are counted, the depth is the position in the stack. *)
Lemma walk_seen_counted tg incl VF frames : forall v seen v',
  walk tg kYes incl VF frames v = (seen, v') ->
  0 <= cur_depth_ v ->
  cur_depth_ v + Z.of_nat (length frames) < 2 ^ size_t_bits tg ->
  Forall (at_depth_index frames (cur_depth_ v)) seen /\
  StronglySorted (fun a b => cur_depth_ a < cur_depth_ b) seen.
Proof.
  induction frames as [|fr rest IH]; intros v seen v' Hw H0 Hfit.
  - simpl in Hw. inversion Hw; subst. split; constructor.
  - cbn [walk] in Hw. cbn [length] in *.
    set (here := with_frame v fr) in *.
    assert (Hd : cur_depth_ here = cur_depth_ v) by reflexivity.
    destruct (advance_spec tg kYes fr here) as (_ & _ & Hdep); [lia | lia |].
    specialize (Hdep eq_refl).
    set (next := advance tg kYes fr here) in *.
    assert (Hrec : forall seen1 v1,
      walk tg kYes incl VF rest next = (seen1, v1) ->
      Forall (at_depth_index (fr :: rest) (cur_depth_ v)) seen1 /\
      Forall (fun x => cur_depth_ v < cur_depth_ x) seen1 /\
      StronglySorted (fun a b => cur_depth_ a < cur_depth_ b) seen1).
    { intros seen1 v1 Hw1.
      destruct (IH next seen1 v1 Hw1) as (A & C); [lia | lia |].
      destruct (walk_seen tg kYes incl VF rest next seen1 v1 Hw1) as (_ & B & _);
        [lia | lia |].
      split; [|split]; try assumption.
      - rewrite Forall_forall in A, B. apply Forall_forall. intros x Hx.
        destruct (A x Hx) as (fr' & Hfr & Hidx). specialize (B x Hx). cbv beta in B.
        exists fr'. split; [exact Hfr|].
        replace (Z.to_nat (cur_depth_ x - cur_depth_ v))
          with (S (Z.to_nat (cur_depth_ x - cur_depth_ next))) by lia.
        exact Hidx.
      - eapply Forall_impl; [exact B|]. cbv beta. intros x Hx. lia. }
    assert (Hhere : at_depth_index (fr :: rest) (cur_depth_ v) here).
    { exists fr. split; [reflexivity|]. rewrite Hd, Z.sub_diag. reflexivity. }
    destruct (negb (is_transition fr) || incl).
    + destruct (VF here).
      * destruct (walk tg kYes incl VF rest next) as [seen1 v1] eqn:Hw1.
        inversion Hw; subst; clear Hw.
        destruct (Hrec seen1 v' eq_refl) as (A & B & C).
        split; constructor; assumption.
      * inversion Hw; subst; clear Hw. split; repeat constructor. exact Hhere.
    + destruct (Hrec seen v' Hw) as (A & B & C). split; assumption.
Qed.

Lemma StronglySorted_transfer {A} (P : A -> Prop) (R R' : A -> A -> Prop) (l : list A) :
  (forall a b, P a -> P b -> R a b -> R' a b) ->
  Forall P l -> StronglySorted R l -> StronglySorted R' l.
Proof.
  intros Himp HP HS. induction HS as [|a l HS IH Hall]; [constructor|].
  inversion HP as [|? ? Pa Pl]; subst.
  constructor; [apply IH; exact Pl|].
  rewrite Forall_forall in Hall, Pl. apply Forall_forall. intros b Hb.
  apply Himp; auto.
Qed.

(** Height and id of a cursor inside the walked stack. *)
Lemma numbering_at_depth tg stack wk v x :
  let n := ComputeNumFrames wk stack in
  n < 2 ^ size_t_bits tg ->
  thread_ v = stack -> walk_kind_ v = wk ->
  (num_frames_ v = 0 \/ num_frames_ v = n) ->
  same_stack v x ->
  0 <= cur_depth_ x <= n - 1 ->
  frame_height tg x = n - 1 - cur_depth_ x /\ frame_id tg x = n - cur_depth_ x.
Proof.
  intros n Hfit Ht Hk Hnum (St & Sk & Sn) Hd.
  assert (Hn : GetNumFrames x = (n, with_num_frames x n) \/ GetNumFrames x = (n, x)).
  { unfold GetNumFrames. rewrite Sn, St, Sk, Ht, Hk.
    destruct Hnum as [-> | ->]; [left; reflexivity|].
    fold n. destruct (Z.eqb_spec n 0); [left | right]; reflexivity. }
  assert (Hh : frame_height tg x = n - 1 - cur_depth_ x).
  { unfold frame_height, GetFrameHeight.
    destruct Hn as [-> | ->]; simpl; rewrite !size_t_small; rewrite ?size_t_small; lia. }
  split; [exact Hh|].
  unfold frame_id, GetFrameId. fold (frame_height tg x).
  unfold frame_height in Hh.
  destruct (GetFrameHeight tg x) as [h x'] eqn:Hg. simpl in *. subst h.
  rewrite size_t_small; lia.
Qed.

(** C4 (amended): WalkStack visits the logical frames in stack order,
    innermost to outermost; along the visit the frame height (0-based,
    counted from the oldest frame) never rises and the frame id is the height
    plus one, so it never rises either; when transitions are counted both
    fall strictly, the cursor at depth d standing on the d-th frame from the
    newest with height n - 1 - d and id n - d, which is n at the newest frame
    and 1 at the oldest. *)
Theorem C4_walk_order_and_numbering
    (tg : Target) (kCount : CountTransitions) (include_transitions : bool)
    (VisitFrame : visitor -> bool) (walk_kind : StackWalkKind) (stack : list StackEntry) :
  ComputeNumFrames walk_kind stack < 2 ^ size_t_bits tg ->
  let n := ComputeNumFrames walk_kind stack in
  let seen := fst (WalkStack tg kCount include_transitions VisitFrame
                             (make stack walk_kind 0)) in
  sublist (seen_frames seen) (logical_frames walk_kind stack) /\
  StronglySorted (fun a b => frame_height tg b <= frame_height tg a /\
                             frame_id tg b <= frame_id tg a) seen /\
  Forall (fun x => 0 <= frame_height tg x < n /\
                   frame_id tg x = frame_height tg x + 1) seen /\
  (kCount = kYes ->
     StronglySorted (fun a b => frame_height tg b < frame_height tg a /\
                                frame_id tg b < frame_id tg a) seen /\
     Forall (fun x => at_depth_index (logical_frames walk_kind stack) 0 x /\
                      frame_height tg x = n - 1 - GetFrameDepth x /\
                      frame_id tg x = n - GetFrameDepth x) seen).
Proof.
  intros Hfit n seen. subst seen. unfold WalkStack.
  change (walk_kind_ (make stack walk_kind 0)) with walk_kind.
  change (thread_ (make stack walk_kind 0)) with stack.
  set (v := make stack walk_kind 0).
  set (frames := logical_frames walk_kind stack) in *.
  assert (Hlen : Z.of_nat (length frames) = n) by reflexivity.
  destruct (walk tg kCount include_transitions VisitFrame frames v) as [sn v'] eqn:Hw.
  cbn [fst].
  destruct (walk_seen tg kCount include_transitions VisitFrame frames v sn v' Hw)
    as (A & B & C & D); [simpl; lia | simpl; lia |].
  change (cur_depth_ v) with 0 in B.
  assert (Hnum : Forall (fun x => 0 <= cur_depth_ x <= n - 1 /\
                   frame_height tg x = n - 1 - cur_depth_ x /\
                   frame_id tg x = n - cur_depth_ x) sn).
  { rewrite Forall_forall in A, B. apply Forall_forall. intros x Hx.
    specialize (A x Hx). specialize (B x Hx). cbv beta in B.
    split; [lia|].
    apply (numbering_at_depth tg stack walk_kind v x); auto; lia. }
  split; [exact D|]. split; [|split].
  - eapply StronglySorted_transfer; [|exact Hnum|exact C].
    cbv beta. intros a b Ha Hb Hab. lia.
  - eapply Forall_impl; [exact Hnum|]. cbv beta. intros x Hx. lia.
  - intros ->.
    destruct (walk_seen_counted tg include_transitions VisitFrame frames v sn v' Hw)
      as (E & F); [simpl; lia | simpl; lia |].
    split.
    + eapply StronglySorted_transfer; [|exact Hnum|exact F].
      cbv beta. intros a b Ha Hb Hab. lia.
    + rewrite Forall_forall in E, Hnum. apply Forall_forall. intros x Hx.
      specialize (E x Hx). specialize (Hnum x Hx). cbv beta in Hnum.
      unfold GetFrameDepth. split; [exact E|]. lia.
Qed.

Lemma C4_walk_order_and_numbering_witness :
  let n := ComputeNumFrames kIncludeInlinedFrames example_stack in
  let seen := fst (WalkStack LP64 kYes true visit_all
                             (make example_stack kIncludeInlinedFrames 0)) in
  sublist (seen_frames seen) (logical_frames kIncludeInlinedFrames example_stack) /\
  StronglySorted (fun a b => frame_height LP64 b < frame_height LP64 a /\
                             frame_id LP64 b < frame_id LP64 a) seen /\
  Forall (fun x => at_depth_index (logical_frames kIncludeInlinedFrames example_stack) 0 x /\
                   frame_height LP64 x = n - 1 - GetFrameDepth x /\
                   frame_id LP64 x = n - GetFrameDepth x) seen /\
  map (frame_id LP64) seen = [5; 4; 3; 2; 1].
Proof.
  assert (Hfit : ComputeNumFrames kIncludeInlinedFrames example_stack
                 < 2 ^ size_t_bits LP64) by (vm_compute; reflexivity).
  destruct (C4_walk_order_and_numbering LP64 kYes true visit_all kIncludeInlinedFrames
              example_stack Hfit) as (Hsub & _ & _ & Hcounted).
  destruct (Hcounted eq_refl) as (Hsorted & Hidx).
  intros n seen.
  split; [exact Hsub|]. split; [exact Hsorted|]. split; [exact Hidx|].
  vm_compute. reflexivity.
Defined.

(** C4 as stated fails on a stack of two interpreted frames: the newest
    frame is visited first with frame id 2, the oldest second with frame id
    1, so the ids do not rise from 1 along the visit. *)
Lemma C4_counterexample_ids_fall :
  ~ numbering_as_stated LP64
      (fst (WalkStack LP64 kYes false visit_all
                      (make [ShadowEntry 1; ShadowEntry 2] kIncludeInlinedFrames 0))).
Proof.
  intros [_ Hids].
  assert (Hseen : map (frame_id LP64)
            (fst (WalkStack LP64 kYes false visit_all
                            (make [ShadowEntry 1; ShadowEntry 2] kIncludeInlinedFrames 0)))
          = [2; 1]) by (vm_compute; reflexivity).
  rewrite Hseen in Hids. destruct Hids as [Hfirst _]. discriminate.
Qed.

End StackVisitorFacts.

(** ** dexdiag *)
Module DexDiagFacts.
Import DexDiag DexDiagSpec.

Section Attribution.

Variable tg : Target.
Variable kPageSize : Z.
Variable PM_PAGEMAP_PRESENT : Z -> bool.

(** The first candidate of a list sorted from the highest offset down is
    the candidate with the highest offset. *)
Lemma FindSectionTypeForPage_best (page : Z) (sections : list DexFileSection) :
  sorted_descending sections ->
  (exists best, best ∈ sections /\ candidate kPageSize page best /\
     FindSectionTypeForPage kPageSize page sections = type best /\
     forall s, s ∈ sections -> candidate kPageSize page s -> offset s <= offset best) \/
  (FindSectionTypeForPage kPageSize page sections = kDexTypeHeaderItem /\
     forall s, s ∈ sections -> ~ candidate kPageSize page s).
Proof.
  intros Hsorted. induction Hsorted as [|s rest Hrest IH Hall].
  - right. split; [reflexivity|]. intros s Hs. inversion Hs.
  - cbn [FindSectionTypeForPage].
    assert (Hskip : ~ candidate kPageSize page s ->
      (exists best, best ∈ s :: rest /\ candidate kPageSize page best /\
         FindSectionTypeForPage kPageSize page rest = type best /\
         forall s', s' ∈ s :: rest -> candidate kPageSize page s' ->
                    offset s' <= offset best) \/
      (FindSectionTypeForPage kPageSize page rest = kDexTypeHeaderItem /\
         forall s', s' ∈ s :: rest -> ~ candidate kPageSize page s')).
    { intros Hnot. destruct IH as [(best & Hin & Hc & Hf & Hmax)|(Hf & Hnone)].
      - left. exists best. split; [right; exact Hin|]. split; [exact Hc|].
        split; [exact Hf|]. intros s' Hs' Hc'.
        apply elem_of_cons in Hs' as [->|Hs']; [contradiction|]. apply Hmax; assumption.
      - right. split; [exact Hf|]. intros s' Hs'.
        apply elem_of_cons in Hs' as [->|Hs']; [exact Hnot|]. apply Hnone; assumption. }
    destruct (Z.eqb_spec (size s) 0) as [Hz|Hnz].
    { apply Hskip. intros [Hsz _]. contradiction. }
    destruct (Z.leb_spec (offset s / kPageSize) page) as [Hle|Hgt].
    + left. exists s. split; [left|]. split; [split; assumption|].
      split; [reflexivity|]. intros s' Hs' _.
      apply elem_of_cons in Hs' as [->|Hs']; [lia|].
      rewrite Forall_forall in Hall. apply Hall. exact Hs'.
    + apply Hskip. intros [_ Hle]. lia.
Qed.

Lemma RoundUp_spec (x : Z) :
  0 < kPageSize -> 0 <= x -> x + kPageSize - 1 < 2 ^ 64 ->
  RoundUp x kPageSize = (x + kPageSize - 1) / kPageSize * kPageSize /\
  x <= RoundUp x kPageSize < x + kPageSize.
Proof.
  intros Hp Hx Hfit. unfold RoundUp, to_uint64.
  rewrite wrap_small by lia. split; [reflexivity|].
  pose proof (Z.div_mod (x + kPageSize - 1) kPageSize ltac:(lia)) as Hdm.
  pose proof (Z.mod_pos_bound (x + kPageSize - 1) kPageSize Hp) as Hmod.
  lia.
Qed.

End Attribution.

Section Statistics.

Variable tg : Target.
Variable kPageSize : Z.
Variable PM_PAGEMAP_PRESENT : Z -> bool.
Hypothesis tg_ok : target_ok tg.

Lemma size_t_id z : 0 <= z < 2 ^ size_t_bits tg -> to_size_t tg z = z.
Proof. apply wrap_small. Qed.

Lemma counts_ok_new : counts_ok 0 PageCount_new.
Proof.
  unfold counts_ok, PageCount_new. split.
  - intros ty [info Hinfo]. rewrite lookup_fmap, Hinfo. simpl. eauto.
  - intros ty c. rewrite lookup_fmap.
    destruct (kDexSectionInfoMap !! ty); simpl; intros Hc; inversion Hc; lia.
Qed.

Lemma counts_ok_mono k k' m : k <= k' -> counts_ok k m -> counts_ok k' m.
Proof.
  intros Hle [Hkeys Hmax]. split; [exact Hkeys|].
  intros ty c Hc. specialize (Hmax ty c Hc). lia.
Qed.

Lemma counts_ok_Increment k ty m :
  0 <= k -> k + 1 < 2 ^ size_t_bits tg ->
  counts_ok k m -> counts_ok (k + 1) (Increment tg ty m).
Proof.
  intros Hk Hfit [Hkeys Hmax]. unfold Increment. split.
  - intros ty' Hknown. destruct (decide (ty = ty')) as [->|Hne].
    + rewrite lookup_insert_eq. eauto.
    + rewrite lookup_insert_ne by exact Hne. apply Hkeys. exact Hknown.
  - intros ty' c. destruct (decide (ty = ty')) as [->|Hne].
    + rewrite lookup_insert_eq. intros Hc. inversion Hc; subst; clear Hc.
      destruct (m !! ty') as [c0|] eqn:Hc0; simpl.
      * specialize (Hmax ty' c0 Hc0). rewrite size_t_id; lia.
      * rewrite size_t_id; lia.
    + rewrite lookup_insert_ne by exact Hne. intros Hc. specialize (Hmax ty' c Hc). lia.
Qed.

(** The residency loop runs over every page inside the table and counts
    at most one page per step. *)
Lemma ProcessPageMap_loop_counts verbose pagemap start sections n :
  forall page counts out k,
    0 <= page -> page + Z.of_nat n <= Z.of_nat (length pagemap) ->
    page + Z.of_nat n < 2 ^ size_t_bits tg ->
    0 <= k -> k + Z.of_nat n < 2 ^ size_t_bits tg ->
    counts_ok k counts ->
    exists counts' out',
      ProcessPageMap_loop tg kPageSize PM_PAGEMAP_PRESENT verbose pagemap start page n
                          sections counts out = Some (counts', out') /\
      counts_ok (k + Z.of_nat n) counts'.
Proof.
  induction n as [|n IH]; intros page counts out k Hp Hlen Hfit Hk Hkfit Hok.
  - exists counts, out. split; [reflexivity|]. rewrite Z.add_0_r. exact Hok.
  - cbn [ProcessPageMap_loop].
    destruct (lookup_lt_is_Some_2 pagemap (Z.to_nat page)) as [entry Hentry]; [lia|].
    rewrite Hentry. cbn [mbind option_bind].
    destruct (PM_PAGEMAP_PRESENT entry).
    + match goal with
      | |- context [ProcessPageMap_loop _ _ _ _ _ _ ?p n _ ?c ?o] =>
          destruct (IH p c o (k + 1)) as (counts' & out' & Hrun & Hok')
      end; try (rewrite size_t_id; lia); try lia.
      { apply counts_ok_Increment; [lia | lia | exact Hok]. }
      exists counts', out'. split; [exact Hrun|].
      replace (k + Z.of_nat (S n)) with (k + 1 + Z.of_nat n) by lia. exact Hok'.
    + match goal with
      | |- context [ProcessPageMap_loop _ _ _ _ _ _ ?p n _ ?c ?o] =>
          destruct (IH p c o (k + 1)) as (counts' & out' & Hrun & Hok')
      end; try (rewrite size_t_id; lia); try lia.
      { apply (counts_ok_mono k); [lia | exact Hok]. }
      exists counts', out'. split; [exact Hrun|].
      replace (k + Z.of_nat (S n)) with (k + 1 + Z.of_nat n) by lia. exact Hok'.
Qed.

Lemma count_mapped_counts sections n : forall page mapped k,
  0 <= k -> k + Z.of_nat n < 2 ^ size_t_bits tg ->
  counts_ok k mapped ->
  counts_ok (k + Z.of_nat n) (count_mapped tg kPageSize page n sections mapped).
Proof.
  induction n as [|n IH]; intros page mapped k Hk Hfit Hok.
  - simpl. rewrite Z.add_0_r. exact Hok.
  - cbn [count_mapped].
    replace (k + Z.of_nat (S n)) with (k + 1 + Z.of_nat n) by lia.
    apply IH; [lia | lia |]. apply counts_ok_Increment; [lia | lia | exact Hok].
Qed.

(** The row loop prints one row per section and keeps the exact sum of
    the resident column. *)
Lemma stat_rows_sum resident_pages mapped_pages K K' printed : forall total,
  Forall known_section printed ->
  counts_ok K resident_pages -> counts_ok K' mapped_pages ->
  0 <= K -> 0 <= total ->
  total + Z.of_nat (length printed) * K < 2 ^ size_t_bits tg ->
  exists rows total',
    stat_rows tg resident_pages mapped_pages printed total = Some (rows, total') /\
    total' = total + sum_resident rows /\
    length rows = length printed /\
    map row_resident rows = omap (fun s => resident_pages !! type s) printed.
Proof.
  induction printed as [|section rest IH]; intros total Hknown Hres Hmap HK Ht Hfit.
  - exists [], total. repeat split. simpl. lia.
  - inversion Hknown as [|? ? Hsec Hrest]; subst.
    cbn [stat_rows]. destruct Hsec as [info Hinfo]. rewrite Hinfo. cbn [mbind option_bind].
    destruct (proj1 Hres (type section)) as [r Hr]; [eexists; exact Hinfo|].
    destruct (proj1 Hmap (type section)) as [mp Hmp]; [eexists; exact Hinfo|].
    unfold Get. rewrite Hr, Hmp. cbn [mbind option_bind].
    pose proof (proj2 Hres (type section) r Hr) as Hrb.
    cbn [length] in Hfit.
    rewrite size_t_id by nia.
    destruct (IH (total + r)) as (rows & total' & Hrun & Hsum & Hlen & Hcol);
      [exact Hrest | exact Hres | exact Hmap | lia | lia | nia |].
    rewrite Hrun. cbn [mbind option_bind].
    eexists _, total'. split; [reflexivity|].
    split; [simpl; lia|]. split; [simpl; lia|].
    simpl. rewrite Hr. simpl. f_equal. exact Hcol.
Qed.

(** The residency pass and the statistics pass over one page range. *)
Lemma ProcessPageMap_then_statistics
    (flags : Flags) (pagemap : list Z) (start end_ : Z) (sections : list DexFileSection) :
  0 <= start < end_ ->
  end_ <= Z.of_nat (length pagemap) ->
  end_ < 2 ^ size_t_bits tg ->
  Forall known_section sections ->
  Z.of_nat (length sections) * (end_ - start) < 2 ^ size_t_bits tg ->
  exists counts chars rows total,
    ProcessPageMap tg kPageSize PM_PAGEMAP_PRESENT flags pagemap start end_ sections
                   PageCount_new = Some (counts, chars) /\
    DisplayDexStatistics tg kPageSize start end_ counts sections
      = Some [OutStatistics rows total (end_ - start)] /\
    length rows = length sections /\
    sum_resident rows = total.
Proof.
  intros Hrange Hlen Hfit Hknown Hsum.
  destruct (ProcessPageMap_loop_counts (g_verbose flags) pagemap start sections
              (Z.to_nat (end_ - start)) start PageCount_new EmptyString 0)
    as (counts & out & Hrun & Hok); try lia; [apply counts_ok_new|].
  rewrite Z2Nat.id, Z.add_0_l in Hok by lia.
  assert (Hpm : exists chars,
    ProcessPageMap tg kPageSize PM_PAGEMAP_PRESENT flags pagemap start end_ sections
                   PageCount_new = Some (counts, chars)).
  { unfold ProcessPageMap. rewrite Hrun. cbn [mbind option_bind].
    destruct (g_verbose flags); eauto. }
  destruct Hpm as [chars Hpm]. exists counts, chars.
  pose proof (count_mapped_counts sections (Z.to_nat (end_ - start)) start PageCount_new 0
                ltac:(lia) ltac:(lia) counts_ok_new) as Hmapped.
  destruct (stat_rows_sum counts
              (count_mapped tg kPageSize start (Z.to_nat (end_ - start)) sections
                            PageCount_new)
              (end_ - start) (0 + Z.of_nat (Z.to_nat (end_ - start))) (rev sections) 0)
    as (rows & total & Hrows & Htotal & Hrlen & _);
    [apply Forall_rev; exact Hknown | exact Hok | exact Hmapped | lia | lia
    | rewrite length_rev; lia |].
  exists rows, total. split; [exact Hpm|]. split.
  - unfold DisplayDexStatistics.
    destruct (Z.leb_spec start end_) as [_|Hbad]; [|lia]. cbn [DCHECK mbind option_bind].
    rewrite size_t_id by lia.
    destruct (Z.eqb_spec (end_ - start) 0) as [Hz|_]; [lia|].
    rewrite Hrows. reflexivity.
  - rewrite length_rev in Hrlen. split; [exact Hrlen | lia].
Qed.

(** C8: for every section list of known types and every page table
    covering a page range whose counts fit in size_t, the statistics table
    is printed with one row per section, and the resident-page counts of its
    rows sum exactly to the resident-page count of its grand-total row. *)
Theorem C8_rows_sum_to_grand_total
    (flags : Flags) (pagemap : list Z) (start end_ : Z) (sections : list DexFileSection) :
  0 <= start < end_ ->
  end_ <= Z.of_nat (length pagemap) ->
  end_ < 2 ^ size_t_bits tg ->
  Forall known_section sections ->
  Z.of_nat (length sections) * (end_ - start) < 2 ^ size_t_bits tg ->
  exists counts chars rows total,
    ProcessPageMap tg kPageSize PM_PAGEMAP_PRESENT flags pagemap start end_ sections
                   PageCount_new = Some (counts, chars) /\
    DisplayDexStatistics tg kPageSize start end_ counts sections
      = Some [OutStatistics rows total (end_ - start)] /\
    length rows = length sections /\
    sum_resident rows = total.
Proof. apply ProcessPageMap_then_statistics. Qed.

End Statistics.

Section ExitCodes.

Variable tg : Target.
Variable kPageSize : Z.
Variable PM_PAGEMAP_PRESENT : Z -> bool.
Hypothesis tg_ok : target_ok tg.

Lemma size_t_bits_nonneg : 0 <= size_t_bits tg.
Proof. unfold size_t_bits. destruct tg_ok as [[Hp|Hp] _]; rewrite Hp; lia. Qed.

Lemma to_size_t_range z : 0 <= to_size_t tg z < 2 ^ size_t_bits tg.
Proof. apply wrap_range. apply size_t_bits_nonneg. Qed.

Lemma known_sectionb_Forall sections :
  forallb known_sectionb sections = true -> Forall known_section sections.
Proof.
  intros Hall. apply Forall_forall. intros s Hs.
  rewrite forallb_forall in Hall. apply list_elem_of_In in Hs. specialize (Hall s Hs).
  unfold known_sectionb in Hall. unfold known_section.
  destruct (kDexSectionInfoMap !! type s); [eauto | discriminate].
Qed.

Lemma ProcessPageMap_defined flags pagemap s e sections :
  0 <= s -> e < 2 ^ size_t_bits tg ->
  e <= s \/ e <= Z.of_nat (length pagemap) ->
  exists counts chars,
    ProcessPageMap tg kPageSize PM_PAGEMAP_PRESENT flags pagemap s e sections PageCount_new
    = Some (counts, chars).
Proof.
  intros Hs He Hin.
  assert (Hloop : exists counts out,
    ProcessPageMap_loop tg kPageSize PM_PAGEMAP_PRESENT (g_verbose flags) pagemap s s
                        (Z.to_nat (e - s)) sections PageCount_new EmptyString
    = Some (counts, out)).
  { destruct (Z.le_gt_cases e s) as [Hle|Hlt].
    - replace (Z.to_nat (e - s)) with 0%nat by lia. simpl. eauto.
    - destruct (ProcessPageMap_loop_counts tg kPageSize PM_PAGEMAP_PRESENT
                  (g_verbose flags) pagemap s sections (Z.to_nat (e - s)) s
                  PageCount_new EmptyString 0)
        as (counts & out & Hrun & _); try lia; [apply counts_ok_new|].
      eauto. }
  destruct Hloop as (counts & out & Hrun).
  unfold ProcessPageMap. rewrite Hrun. cbn [mbind option_bind].
  destruct (g_verbose flags); eauto.
Qed.

Lemma ProcessOneDexMapping_defined flags pagemap map_start d vdex_start :
  dex_file_processable tg kPageSize flags pagemap vdex_start d = true ->
  exists out,
    ProcessOneDexMapping tg kPageSize PM_PAGEMAP_PRESENT flags pagemap map_start d vdex_start
    = Some out.
Proof.
  unfold dex_file_processable, ProcessOneDexMapping. intros Hok.
  destruct (Begin d <? vdex_start); [eauto|]. rewrite orb_false_l in Hok.
  destruct (dex_page_range kPageSize (Begin d) (Size d) vdex_start) as [start end_].
  pose proof (to_size_t_range start) as Hs. pose proof (to_size_t_range end_) as He.
  set (s := to_size_t tg start) in *. set (e := to_size_t tg end_) in *.
  apply andb_true_iff in Hok as [Hin Hstat].
  assert (Hin' : e <= s \/ e <= Z.of_nat (length pagemap)).
  { apply orb_true_iff in Hin as [H|H]; apply Z.leb_le in H; auto. }
  destruct (g_show_statistics flags) eqn:Hflag.
  - cbn [negb orb] in Hstat. apply orb_true_iff in Hstat as [Heq|Hfull].
    + apply Z.eqb_eq in Heq.
      destruct (ProcessPageMap_defined flags pagemap s e (sorted_sections d))
        as (counts & chars & Hrun); [lia | lia | exact Hin' |].
      rewrite Hrun. cbn [mbind option_bind].
      unfold DisplayDexStatistics. rewrite <- Heq, Z.leb_refl. cbn [DCHECK mbind option_bind].
      rewrite Z.sub_diag. rewrite (size_t_id tg 0) by lia. simpl. eauto.
    + apply andb_true_iff in Hfull as [Hfull Hbound].
      apply andb_true_iff in Hfull as [Hlt Hknown].
      apply Z.ltb_lt in Hlt. apply Z.ltb_lt in Hbound.
      destruct (ProcessPageMap_then_statistics tg kPageSize PM_PAGEMAP_PRESENT flags pagemap
                  s e (sorted_sections d))
        as (counts & chars & rows & total & Hrun & Hdisp & _);
        [lia | lia | lia | apply known_sectionb_Forall; exact Hknown | exact Hbound |].
      rewrite Hrun. cbn [mbind option_bind]. rewrite Hdisp. cbn [mbind option_bind]. eauto.
  - destruct (ProcessPageMap_defined flags pagemap s e (sorted_sections d))
      as (counts & chars & Hrun); [lia | lia | exact Hin' |].
    rewrite Hrun. cbn [mbind option_bind]. eauto.
Qed.

Lemma process_dex_files_defined flags pagemap map_start vdex_start dex_files :
  forallb (dex_file_processable tg kPageSize flags pagemap vdex_start) dex_files = true ->
  exists outs,
    process_dex_files tg kPageSize PM_PAGEMAP_PRESENT flags pagemap map_start dex_files
                      vdex_start = Some outs.
Proof.
  induction dex_files as [|d rest IH]; intros Hall; simpl in *.
  - eauto.
  - apply andb_true_iff in Hall as [Hd Hrest].
    destruct (ProcessOneDexMapping_defined flags pagemap map_start d vdex_start Hd)
      as [out Hout].
    destruct (IH Hrest) as [outs Houts].
    rewrite Hout. cbn [mbind option_bind]. rewrite Houts. cbn [mbind option_bind]. eauto.
Qed.

Lemma DisplayMappingIfFromVdexFile_result env flags m :
  mapping_processable tg kPageSize env flags m = true ->
  exists out,
    DisplayMappingIfFromVdexFile tg kPageSize PM_PAGEMAP_PRESENT env flags m
    = Some (negb (mapping_fails env m), out).
Proof.
  unfold mapping_processable, DisplayMappingIfFromVdexFile, mapping_fails, is_container.
  intros Hok.
  destruct (strstr_found (pm_map_name m) ".vdex"); simpl in *; [|eauto].
  destruct (VdexFile_Open env (pm_map_name m)) as [vdex|err]; [|eauto].
  destruct (OpenAllDexFiles vdex) as [[ok dex_files] error_msg].
  destruct (pm_map_pagemap m) as [rc pagemap]. simpl in *.
  destruct (rc =? 0); simpl in *; [|eauto].
  destruct (process_dex_files_defined flags pagemap (pm_map_start m) (vdex_Begin vdex)
              dex_files Hok) as [outs Houts].
  rewrite Houts. cbn [mbind option_bind]. eauto.
Qed.

Lemma display_mappings_result env flags maps :
  forallb (mapping_processable tg kPageSize env flags) maps = true ->
  exists out,
    display_mappings tg kPageSize PM_PAGEMAP_PRESENT env flags maps
    = Some (negb (existsb (mapping_fails env) maps), out).
Proof.
  induction maps as [|m rest IH]; intros Hall; simpl in *.
  - eauto.
  - apply andb_true_iff in Hall as [Hm Hrest].
    destruct (DisplayMappingIfFromVdexFile_result env flags m Hm) as [out Hout].
    rewrite Hout. cbn [mbind option_bind].
    destruct (mapping_fails env m); simpl; [eauto|].
    destruct (IH Hrest) as [outs Houts]. rewrite Houts. cbn [mbind option_bind]. eauto.
Qed.

Lemma parse_flags_options args : forall flags,
  match parse_flags args flags with
  | Some _ => forallb is_option args = true
  | None => forallb is_option args = false
  end.
Proof.
  induction args as [|arg rest IH]; intros flags; simpl; [reflexivity|].
  unfold is_option.
  destruct (String.eqb arg "-k"); simpl; [apply IH|].
  destruct (String.eqb arg "-s"); simpl; [apply IH|].
  destruct (String.eqb arg "-v"); simpl; [apply IH|]. reflexivity.
Qed.

End ExitCodes.

(** A dex file that starts at page 16 of its container and is one page
    long: the end of its range is computed from the page index 16 plus the
    byte size 4096. *)
Example page_range_of_later_unit :
  dex_page_range 4096 0x11000 0x1000 0x1000 = (16, 2).
Proof. reflexivity. Qed.

Lemma scenario_C_sorted : sorted_descending scenario_C_sections.
Proof. repeat constructor; vm_compute; discriminate. Qed.

(** C7: the page range of a bytecode unit that begins behind page 0 of
    its container does not run from its start page to the end of its bytes.
    The unit here lies in page 16 of the container, and page 16 is resident;
    the range computed for it is start 16, end 2 (the round-up is taken of the
    start page index plus the size in bytes), so no page of the unit is
    looked at or counted, the range printed ends below its start, and with -s
    the assertion end >= start of DisplayDexStatistics fails. *)
Theorem C7_later_unit_loses_its_pages :
  (Begin later_unit - 0x7000) / 4096 = 16 /\
  (Begin later_unit + Size later_unit - 1 - 0x7000) / 4096 = 16 /\
  later_unit_pagemap !! 16%nat = Some resident /\
  dex_page_range 4096 (Begin later_unit) (Size later_unit) 0x7000 = (16, 2) /\
  ProcessPageMap LP64 4096 pagemap_present statistics_only later_unit_pagemap 16 2
                 (sorted_sections later_unit) PageCount_new = Some (PageCount_new, []) /\
  ProcessOneDexMapping LP64 4096 pagemap_present no_flags later_unit_pagemap 0x10000
                       later_unit 0x7000
    = Some [OutDex "classes2.dex" 0x20000 0x12000] /\
  ProcessOneDexMapping LP64 4096 pagemap_present statistics_only later_unit_pagemap 0x10000
                       later_unit 0x7000
    = None.
Proof. repeat split; vm_compute; reflexivity. Qed.

Lemma scenario_C_known : Forall known_section scenario_C_sections.
Proof. repeat constructor; vm_compute; eauto. Qed.

Lemma C8_rows_sum_to_grand_total_witness :
  exists counts chars rows total,
    ProcessPageMap LP64 4096 pagemap_present statistics_only scenario_C_pagemap 0 6
                   scenario_C_sections PageCount_new = Some (counts, chars) /\
    DisplayDexStatistics LP64 4096 0 6 counts scenario_C_sections
      = Some [OutStatistics rows total (6 - 0)] /\
    length rows = length scenario_C_sections /\
    sum_resident rows = total.
Proof.
  apply (C8_rows_sum_to_grand_total LP64 4096 pagemap_present statistics_only
           scenario_C_pagemap 0 6 scenario_C_sections).
  - lia.
  - simpl. lia.
  - vm_compute. reflexivity.
  - exact scenario_C_known.
  - vm_compute. reflexivity.
Defined.

Lemma LP64_ok : target_ok LP64.
Proof. unfold target_ok. simpl. lia. Qed.

(** C9: a text that is no process id is taken for one.  On a target with
    a 64-bit long the text 4294968530 is read by strtol as that number and
    cut to the pid_t 1234, so the run is the run for a process 1234 that
    exists and ends with exit code 0; and a run with -s on a container whose
    second bytecode unit begins behind page 0 fails the assertion
    end >= start of DisplayDexStatistics and so has no exit code where
    assertions are checked, while the same run without -s ends with exit
    code 0. *)
Theorem C9_invalid_pid_text_is_accepted :
  valid_pid_text "4294968530" = false /\
  valid_pid_text "1234" = true /\
  DexDiagMain LP64 4096 pagemap_present scenario_C_env ["dexdiag"; "4294968530"]%string
  = DexDiagMain LP64 4096 pagemap_present scenario_C_env ["dexdiag"; "1234"]%string /\
  (exists out,
     DexDiagMain LP64 4096 pagemap_present scenario_C_env ["dexdiag"; "4294968530"]%string
     = Some (0, out)) /\
  DexDiagMain LP64 4096 pagemap_present two_unit_env ["dexdiag"; "-s"; "1234"]%string = None /\
  (exists out,
     DexDiagMain LP64 4096 pagemap_present two_unit_env ["dexdiag"; "1234"]%string
     = Some (0, out)).
Proof.
  split; [reflexivity|]. split; [reflexivity|].
  split; [vm_compute; reflexivity|].
  split; [eexists; vm_compute; reflexivity|].
  split; [vm_compute; reflexivity|].
  eexists; vm_compute; reflexivity.
Qed.

End DexDiagFacts.

(** * Further properties of the code *)

(** ** Reinterpreting bit patterns *)
Section MachineRoundTrips.

Lemma pow2_double bits : 0 < bits -> 2 ^ bits = 2 * 2 ^ (bits - 1).
Proof.
  intros Hb. replace bits with (1 + (bits - 1)) at 1 by lia.
  rewrite Z.pow_add_r by lia. reflexivity.
Qed.

Lemma to_signed_wrap bits v :
  0 < bits -> - 2 ^ (bits - 1) <= v < 2 ^ (bits - 1) ->
  to_signed bits (wrap bits v) = v.
Proof.
  intros Hb Hv. unfold to_signed. rewrite wrap_wrap by lia. unfold wrap.
  pose proof (pow2_double bits Hb) as Hd.
  assert (Hpos : 0 < 2 ^ (bits - 1)) by (apply Z.pow_pos_nonneg; lia).
  destruct (Z.lt_ge_cases v 0) as [Hneg|Hnn].
  - assert (Hm : v mod 2 ^ bits = v + 2 ^ bits).
    { symmetry. apply (Z.mod_unique _ _ (-1)); lia. }
    rewrite Hm. destruct (Z.ltb_spec (v + 2 ^ bits) (2 ^ (bits - 1))); lia.
  - rewrite Z.mod_small by lia.
    destruct (Z.ltb_spec v (2 ^ (bits - 1))); lia.
Qed.

Lemma to_int32_to_uint32 v : - 2 ^ 31 <= v < 2 ^ 31 -> to_int32 (to_uint32 v) = v.
Proof. intros Hv. apply (to_signed_wrap 32); [lia | exact Hv]. Qed.

Lemma to_int64_to_uint64 v : - 2 ^ 63 <= v < 2 ^ 63 -> to_int64 (to_uint64 v) = v.
Proof. intros Hv. apply (to_signed_wrap 64); [lia | exact Hv]. Qed.

(** The two 32-bit halves of a 64-bit pattern put it together again. *)
Lemma halves_of_uint64 v :
  to_uint32 (to_uint64 v) + to_uint32 (to_uint64 v / 2 ^ 32) * 2 ^ 32 = to_uint64 v.
Proof.
  pose proof (wrap_range 64 v ltac:(lia)) as Hu. fold (to_uint64 v) in Hu.
  set (u := to_uint64 v) in *.
  assert (Hhi : 0 <= u / 2 ^ 32 < 2 ^ 32).
  { split; [apply Z.div_pos; lia|]. apply Z.div_lt_upper_bound; lia. }
  rewrite (to_uint32_small (u / 2 ^ 32)) by exact Hhi.
  unfold to_uint32, wrap.
  pose proof (Z.div_mod u (2 ^ 32) ltac:(lia)). lia.
Qed.

End MachineRoundTrips.

(** ** Reading back what was written to a frame *)
Module ShadowFrameMore.
Import ShadowFrame ShadowFrameSpec ShadowFrameFacts.

Lemma GetVReg_lookup f i v :
  (i < NumberOfVRegs f)%nat -> vregs_ f !! i = Some v -> GetVReg f i = Some (to_int32 v).
Proof.
  intros Hi Hv. unfold GetVReg. rewrite DCHECK_lt_in_range by exact Hi.
  cbn [mbind option_bind]. rewrite Hv. reflexivity.
Qed.

Lemma narrow_written_regs cfg f i val :
  NumberOfVRegs (narrow_written cfg f i val) = NumberOfVRegs f /\
  vregs_ (narrow_written cfg f i val) = <[i:=to_uint32 val]> (vregs_ f).
Proof. unfold narrow_written. destruct (kMovingCollector cfg); auto. Qed.

Lemma wide_written_regs cfg f i val :
  NumberOfVRegs (wide_written cfg f i val) = NumberOfVRegs f /\
  vregs_ (wide_written cfg f i val) =
    <[S i:=to_uint32 (to_uint64 val / 2 ^ 32)]> (<[i:=to_uint32 (to_uint64 val)]> (vregs_ f)).
Proof. unfold wide_written. destruct (kMovingCollector cfg); auto. Qed.

(** X1: a 32-bit integer written with SetVReg is read back by GetVReg, and
    as its low 16 bits by GetVRegShort; a float pattern written with
    SetVRegFloat is read back by GetVRegFloat, and GetVReg on the same
    register gives that pattern read as a signed integer. *)
Theorem SetVReg_then_GetVReg (cfg : Config) (f : frame) (i : nat) (val bits : Z) :
  wf f ->
  (i < NumberOfVRegs f)%nat ->
  - 2 ^ 31 <= val < 2 ^ 31 ->
  0 <= bits < 2 ^ 32 ->
  (exists f', SetVReg cfg f i val = Some f' /\ wf f' /\
              GetVReg f' i = Some val /\
              GetVRegShort f' i = Some (to_signed 16 val)) /\
  (exists f', SetVRegFloat cfg f i bits = Some f' /\ wf f' /\
              GetVRegFloat f' i = Some bits /\
              GetVReg f' i = Some (to_int32 bits)).
Proof.
  intros Hwf Hi Hval Hbits.
  pose proof Hwf as (Hv & Hr & _).
  split.
  - exists (narrow_written cfg f i val).
    destruct (narrow_written_regs cfg f i val) as [Hn Hregs].
    assert (Hget : GetVReg (narrow_written cfg f i val) i = Some val).
    { rewrite (GetVReg_lookup _ i (to_uint32 val)).
      - rewrite to_int32_to_uint32 by exact Hval. reflexivity.
      - rewrite Hn. exact Hi.
      - rewrite Hregs. apply list_lookup_insert_eq. in_range. }
    split; [apply SetVReg_in_range; assumption|].
    split; [apply wf_narrow_written; exact Hwf|].
    split; [exact Hget|]. unfold GetVRegShort. rewrite Hget. reflexivity.
  - exists (narrow_written cfg f i bits).
    destruct (narrow_written_regs cfg f i bits) as [Hn Hregs].
    assert (Hlook : vregs_ (narrow_written cfg f i bits) !! i = Some bits).
    { rewrite Hregs, to_uint32_small by exact Hbits.
      apply list_lookup_insert_eq. in_range. }
    split; [apply SetVRegFloat_in_range; assumption|].
    split; [apply wf_narrow_written; exact Hwf|].
    split.
    + unfold GetVRegFloat. rewrite DCHECK_lt_in_range by (rewrite Hn; exact Hi).
      exact Hlook.
    + apply GetVReg_lookup; [rewrite Hn; exact Hi | exact Hlook].
Qed.

Lemma SetVReg_then_GetVReg_witness :
  (exists f', SetVReg cfg_moving frame4 2 (-5) = Some f' /\ wf f' /\
              GetVReg f' 2 = Some (-5) /\
              GetVRegShort f' 2 = Some (to_signed 16 (-5))) /\
  (exists f', SetVRegFloat cfg_moving frame4 2 0x3f800000 = Some f' /\ wf f' /\
              GetVRegFloat f' 2 = Some 0x3f800000 /\
              GetVReg f' 2 = Some (to_int32 0x3f800000)).
Proof.
  apply (SetVReg_then_GetVReg cfg_moving frame4 2 (-5) 0x3f800000).
  - exact wf_frame4.
  - simpl. lia.
  - lia.
  - lia.
Defined.

(** X2: a 64-bit integer written with SetVRegLong is read back by
    GetVRegLong; its low word is in register i and its high word in register
    i+1, as GetVReg shows them; a double pattern written with SetVRegDouble is
    read back by GetVRegDouble. *)
Theorem SetVRegLong_then_GetVRegLong (cfg : Config) (f : frame) (i : nat) (val bits : Z) :
  wf f ->
  (S i < NumberOfVRegs f)%nat ->
  - 2 ^ 63 <= val < 2 ^ 63 ->
  0 <= bits < 2 ^ 64 ->
  (exists f', SetVRegLong cfg f i val = Some f' /\ wf f' /\
              GetVRegLong f' i = Some val /\
              GetVReg f' i = Some (to_int32 (to_uint64 val)) /\
              GetVReg f' (S i) = Some (to_int32 (to_uint64 val / 2 ^ 32))) /\
  (exists f', SetVRegDouble cfg f i bits = Some f' /\ wf f' /\
              GetVRegDouble f' i = Some bits).
Proof.
  intros Hwf Hi Hval Hbits.
  pose proof Hwf as (Hv & Hr & _).
  assert (Hlooks : forall v,
    vregs_ (wide_written cfg f i v) !! i = Some (to_uint32 (to_uint64 v)) /\
    vregs_ (wide_written cfg f i v) !! S i = Some (to_uint32 (to_uint64 v / 2 ^ 32))).
  { intros v. destruct (wide_written_regs cfg f i v) as [_ ->]. split.
    - rewrite list_lookup_insert_ne by lia. apply list_lookup_insert_eq. in_range.
    - apply list_lookup_insert_eq. in_range. }
  assert (Hlen : forall v, (S i < length (vregs_ (wide_written cfg f i v)))%nat).
  { intros v. destruct (wf_wide_written cfg f i v Hwf) as (Hv' & _).
    destruct (wide_written_regs cfg f i v) as [Hn' _].
    unfold NumberOfVRegs in *. lia. }
  split.
  - exists (wide_written cfg f i val).
    destruct (wide_written_regs cfg f i val) as [Hn _].
    destruct (Hlooks val) as [Hlo Hhi].
    split; [apply SetVRegLong_in_range; assumption|].
    split; [apply wf_wide_written; exact Hwf|].
    split; [|split].
    + unfold GetVRegLong. rewrite DCHECK_lt_in_range by (rewrite Hn; lia).
      cbn [mbind option_bind]. rewrite Hlo. cbn [mbind option_bind].
      rewrite load_raw_in_range by apply Hlen. rewrite Hhi.
      cbn [mbind option_bind]. rewrite halves_of_uint64.
      rewrite to_int64_to_uint64 by exact Hval. reflexivity.
    + rewrite (GetVReg_lookup _ i _ ltac:(rewrite Hn; lia) Hlo).
      unfold to_int32, to_signed. rewrite wrap_wrap by lia. reflexivity.
    + rewrite (GetVReg_lookup _ (S i) _ ltac:(rewrite Hn; lia) Hhi).
      unfold to_int32, to_signed. rewrite wrap_wrap by lia. reflexivity.
  - exists (wide_written cfg f i bits).
    destruct (wide_written_regs cfg f i bits) as [Hn _].
    destruct (Hlooks bits) as [Hlo Hhi].
    split; [apply SetVRegDouble_in_range; assumption|].
    split; [apply wf_wide_written; exact Hwf|].
    unfold GetVRegDouble. rewrite DCHECK_lt_in_range by (rewrite Hn; lia).
    cbn [mbind option_bind]. rewrite Hlo. cbn [mbind option_bind].
    rewrite load_raw_in_range by apply Hlen. rewrite Hhi.
    cbn [mbind option_bind]. rewrite halves_of_uint64.
    unfold to_uint64. rewrite wrap_small by exact Hbits. reflexivity.
Qed.

Lemma SetVRegLong_then_GetVRegLong_witness :
  (exists f', SetVRegLong cfg_moving frame4 1 (-3) = Some f' /\ wf f' /\
              GetVRegLong f' 1 = Some (-3) /\
              GetVReg f' 1 = Some (to_int32 (to_uint64 (-3))) /\
              GetVReg f' 2 = Some (to_int32 (to_uint64 (-3) / 2 ^ 32))) /\
  (exists f', SetVRegDouble cfg_moving frame4 1 0x3ff0000000000000 = Some f' /\ wf f' /\
              GetVRegDouble f' 1 = Some 0x3ff0000000000000).
Proof.
  apply (SetVRegLong_then_GetVRegLong cfg_moving frame4 1 (-3) 0x3ff0000000000000).
  - exact wf_frame4.
  - simpl. lia.
  - lia.
  - lia.
Defined.

Lemma GetVReg_same_regs f f' j :
  NumberOfVRegs f' = NumberOfVRegs f -> vregs_ f' !! j = vregs_ f !! j ->
  GetVReg f' j = GetVReg f j.
Proof. intros Hn Hl. unfold GetVReg. rewrite Hn, Hl. reflexivity. Qed.

(** X3: a register write changes nothing about the other registers: after
    SetVReg(i), SetVRegLong(i) or SetVRegReference(i), every register j
    outside the written slots reads as before, raw and shadow, and the dex pc
    is as before. *)
Theorem write_leaves_other_registers
    (cfg : Config) (f : frame) (i j : nat) (val : Z) :
  wf f ->
  (j < NumberOfVRegs f)%nat ->
  j <> i ->
  ((i < NumberOfVRegs f)%nat ->
     exists f', SetVReg cfg f i val = Some f' /\
       GetVReg f' j = GetVReg f j /\ References f' j = References f j /\
       GetDexPC f' = GetDexPC f) /\
  ((S i < NumberOfVRegs f)%nat -> j <> S i ->
     exists f', SetVRegLong cfg f i val = Some f' /\
       GetVReg f' j = GetVReg f j /\ References f' j = References f j /\
       GetDexPC f' = GetDexPC f) /\
  ((i < NumberOfVRegs f)%nat -> accepts_write cfg val = true ->
     exists f', SetVRegReference cfg f i val = Some f' /\
       GetVReg f' j = GetVReg f j /\ References f' j = References f j /\
       GetDexPC f' = GetDexPC f).
Proof.
  intros Hwf Hj Hne. split; [|split].
  - intros Hi. exists (narrow_written cfg f i val).
    split; [apply SetVReg_in_range; assumption|].
    destruct (narrow_written_regs cfg f i val) as [Hn Hregs].
    split; [|split].
    + apply GetVReg_same_regs; [exact Hn|]. rewrite Hregs.
      apply list_lookup_insert_ne. auto.
    + unfold References, narrow_written. destruct (kMovingCollector cfg); simpl;
        [apply list_lookup_insert_ne; auto | reflexivity].
    + unfold narrow_written. destruct (kMovingCollector cfg); reflexivity.
  - intros Hi Hne2. exists (wide_written cfg f i val).
    split; [apply SetVRegLong_in_range; assumption|].
    destruct (wide_written_regs cfg f i val) as [Hn Hregs].
    split; [|split].
    + apply GetVReg_same_regs; [exact Hn|]. rewrite Hregs.
      rewrite !list_lookup_insert_ne by auto. reflexivity.
    + unfold References, wide_written. destruct (kMovingCollector cfg); simpl;
        [rewrite !list_lookup_insert_ne by auto; reflexivity | reflexivity].
    + unfold wide_written. destruct (kMovingCollector cfg); reflexivity.
  - intros Hi Hacc. rewrite SetVRegReference_in_range by assumption.
    eexists. split; [reflexivity|]. split; [|split].
    + apply GetVReg_same_regs; [reflexivity|]. simpl.
      apply list_lookup_insert_ne. auto.
    + unfold References. simpl. apply list_lookup_insert_ne. auto.
    + reflexivity.
Qed.

Lemma write_leaves_other_registers_witness :
  (exists f', SetVReg cfg_moving frame4 0 42 = Some f' /\
     GetVReg f' 3 = GetVReg frame4 3 /\ References f' 3 = References frame4 3 /\
     GetDexPC f' = GetDexPC frame4) /\
  (exists f', SetVRegLong cfg_moving frame4 0 42 = Some f' /\
     GetVReg f' 3 = GetVReg frame4 3 /\ References f' 3 = References frame4 3 /\
     GetDexPC f' = GetDexPC frame4) /\
  (exists f', SetVRegReference cfg_moving frame4 0 42 = Some f' /\
     GetVReg f' 3 = GetVReg frame4 3 /\ References f' 3 = References frame4 3 /\
     GetDexPC f' = GetDexPC frame4).
Proof.
  destruct (write_leaves_other_registers cfg_moving frame4 0 3 42 wf_frame4)
    as (Hn & Hw & Hr); [simpl; lia | lia |].
  split; [apply Hn; simpl; lia|].
  split; [apply Hw; [simpl; lia | lia] | apply Hr; [simpl; lia | reflexivity]].
Defined.

(** X4: in every collector configuration, SetVRegReference keeps the low
    32 bits of the reference's address in the raw slot and in the shadow slot:
    GetVRegReference then returns these 32 bits, which is the reference itself
    when its address fits in 32 bits, and GetVReg gives the same bits as a
    signed integer. *)
Theorem SetVRegReference_then_GetVRegReference
    (cfg : Config) (f : frame) (i : nat) (obj : Z) :
  wf f ->
  (i < NumberOfVRegs f)%nat ->
  accepts_write cfg obj = true ->
  accepts_read cfg (to_uint32 obj) = true ->
  exists f', SetVRegReference cfg f i obj = Some f' /\ wf f' /\
             GetVRegReference cfg f' i = Some (to_uint32 obj) /\
             GetVReg f' i = Some (to_int32 obj) /\
             (0 <= obj < 2 ^ 32 -> GetVRegReference cfg f' i = Some obj).
Proof.
  intros Hwf Hi Hw Hr. pose proof Hwf as (Hv & Hrf & Hn).
  rewrite SetVRegReference_in_range by assumption.
  eexists. split; [reflexivity|].
  match goal with |- wf ?g /\ _ => set (f' := g) end.
  assert (Hwf' : wf f') by (repeat split; simpl; rewrite ?length_insert; auto).
  assert (Hget : GetVRegReference cfg f' i = Some (to_uint32 obj)).
  { destruct (GetVRegReference_in_range cfg f' i Hwf' Hi) as (ref & Href & Hget).
    assert (ref = to_uint32 obj).
    { unfold f' in Href. simpl in Href.
      rewrite list_lookup_insert_eq in Href by in_range. congruence. }
    subst ref. rewrite Hget, Hr. reflexivity. }
  split; [exact Hwf'|]. split; [exact Hget|]. split.
  - rewrite (GetVReg_lookup f' i (to_uint32 obj) Hi).
    + unfold to_int32, to_signed. rewrite wrap_wrap by lia. reflexivity.
    + unfold f'. simpl. apply list_lookup_insert_eq. in_range.
  - intros Hfit. rewrite Hget, to_uint32_small by exact Hfit. reflexivity.
Qed.

Lemma SetVRegReference_then_GetVRegReference_witness :
  (exists f', SetVRegReference cfg_non_moving frame4 1 4096 = Some f' /\ wf f' /\
              GetVRegReference cfg_non_moving f' 1 = Some 4096) /\
  (exists f', SetVRegReference cfg_moving frame4 1 0x100001000 = Some f' /\ wf f' /\
              GetVRegReference cfg_moving f' 1 = Some (to_uint32 0x100001000) /\
              GetVReg f' 1 = Some (to_int32 0x100001000)).
Proof.
  split.
  - destruct (SetVRegReference_then_GetVRegReference cfg_non_moving frame4 1 4096)
      as (f' & Hset & Hwf & _ & _ & Hback).
    + exact wf_frame4.
    + simpl. lia.
    + reflexivity.
    + reflexivity.
    + exists f'. split; [exact Hset|]. split; [exact Hwf|]. apply Hback. lia.
  - destruct (SetVRegReference_then_GetVRegReference cfg_moving frame4 1 0x100001000)
      as (f' & Hset & Hwf & Hget & Hraw & _).
    + exact wf_frame4.
    + simpl. lia.
    + reflexivity.
    + reflexivity.
    + exists f'. auto.
Defined.

(** X5: without a moving collector a raw write leaves the reference array
    alone: after SetVReg(i) or SetVRegLong(i) the shadow slots hold what they
    held, so GetVRegReference(i) still returns the reference stored before
    although the register no longer holds it. *)
Theorem raw_write_keeps_stale_reference
    (cfg : Config) (f : frame) (i : nat) (val ref : Z) :
  kMovingCollector cfg = false ->
  wf f ->
  (i < NumberOfVRegs f)%nat ->
  References f i = Some ref ->
  accepts_read cfg ref = true ->
  (exists f', SetVReg cfg f i val = Some f' /\
     references_ f' = references_ f /\
     GetVRegReference cfg f' i = Some ref /\
     GetVReg f' i = Some (to_int32 val)) /\
  ((S i < NumberOfVRegs f)%nat ->
   exists f', SetVRegLong cfg f i val = Some f' /\
     references_ f' = references_ f /\
     GetVRegReference cfg f' i = Some ref).
Proof.
  intros Hm Hwf Hi Href Hacc. split.
  - exists (narrow_written cfg f i val).
    split; [apply SetVReg_in_range; assumption|].
    assert (Hrefs : references_ (narrow_written cfg f i val) = references_ f)
      by (unfold narrow_written; rewrite Hm; reflexivity).
    split; [exact Hrefs|]. split.
    + destruct (GetVRegReference_in_range cfg (narrow_written cfg f i val) i)
        as (r & Hr & Hget);
        [apply wf_narrow_written; exact Hwf
        | rewrite (proj1 (narrow_written_regs cfg f i val)); exact Hi |].
      rewrite Hrefs in Hr. unfold References in Href.
      assert (r = ref) by congruence. subst r. rewrite Hget, Hacc. reflexivity.
    + destruct (narrow_written_regs cfg f i val) as [Hn Hregs].
      rewrite (GetVReg_lookup _ i (to_uint32 val)).
      * unfold to_int32, to_signed. rewrite wrap_wrap by lia. reflexivity.
      * rewrite Hn. exact Hi.
      * rewrite Hregs. destruct Hwf as (Hv & _). apply list_lookup_insert_eq. in_range.
  - intros Hi2. exists (wide_written cfg f i val).
    split; [apply SetVRegLong_in_range; assumption|].
    assert (Hrefs : references_ (wide_written cfg f i val) = references_ f)
      by (unfold wide_written; rewrite Hm; reflexivity).
    split; [exact Hrefs|].
    destruct (GetVRegReference_in_range cfg (wide_written cfg f i val) i)
      as (r & Hr & Hget);
      [apply wf_wide_written; exact Hwf
      | rewrite (proj1 (wide_written_regs cfg f i val)); exact Hi |].
    rewrite Hrefs in Hr. unfold References in Href.
    assert (r = ref) by congruence. subst r. rewrite Hget, Hacc. reflexivity.
Qed.

Lemma raw_write_keeps_stale_reference_witness :
  (exists f', SetVReg cfg_non_moving stale_frame 0 42 = Some f' /\
     references_ f' = references_ stale_frame /\
     GetVRegReference cfg_non_moving f' 0 = Some 4096 /\
     GetVReg f' 0 = Some (to_int32 42)) /\
  (exists f', SetVRegLong cfg_non_moving stale_frame 0 42 = Some f' /\
     references_ f' = references_ stale_frame /\
     GetVRegReference cfg_non_moving f' 0 = Some 4096).
Proof.
  assert (Hwf : wf stale_frame) by (repeat split; vm_compute; reflexivity).
  destruct (raw_write_keeps_stale_reference cfg_non_moving stale_frame 0 42 4096
              eq_refl Hwf) as (Hn & Hw);
    [simpl; lia | reflexivity | reflexivity |].
  split; [exact Hn | apply Hw; simpl; lia].
Defined.

(** X6: a new frame has every register zero and every shadow slot null:
    GetVReg reads 0 and the reference array holds null in every slot, the
    dex pc is the one given, in index form, and no monitor is held. *)
Theorem new_frame_is_zeroed (n : nat) (link method dex_pc : Z) (i : nat) :
  Z.of_nat n < 2 ^ 32 ->
  (i < n)%nat ->
  exists f, CreateShadowFrameImpl n link method dex_pc = Some f /\
    wf f /\ NumberOfVRegs f = n /\
    GetVReg f i = Some 0 /\ GetVRegFloat f i = Some 0 /\
    References f i = Some nullptr /\
    GetDexPC f = Some dex_pc /\ GetDexPCPtr f = nullptr /\
    monitors_ (lock_count_data_ f) = None.
Proof.
  intros Hn Hi.
  destruct (CreateShadowFrameImpl n link method dex_pc) as [f|] eqn:Hc;
    [|unfold CreateShadowFrameImpl, construct in Hc; discriminate].
  exists f. split; [reflexivity|].
  destruct (wf_construct n link method dex_pc f Hn Hc) as [Hwf Hnum].
  unfold CreateShadowFrameImpl, construct in Hc. simpl in Hc.
  inversion Hc; subst f; clear Hc.
  split; [exact Hwf|]. split; [reflexivity|].
  assert (Hz : replicate n 0 !! i = Some 0) by (apply lookup_replicate_2; exact Hi).
  split; [|split; [|split]].
  - rewrite (GetVReg_lookup _ i 0); [reflexivity | exact Hi | exact Hz].
  - unfold GetVRegFloat. rewrite DCHECK_lt_in_range by exact Hi. exact Hz.
  - unfold References. simpl. apply lookup_replicate_2. exact Hi.
  - repeat split.
Qed.

Lemma new_frame_is_zeroed_witness :
  exists f, CreateShadowFrameImpl 4 nullptr 1 7 = Some f /\
    wf f /\ NumberOfVRegs f = 4%nat /\
    GetVReg f 3 = Some 0 /\ GetVRegFloat f 3 = Some 0 /\
    References f 3 = Some nullptr /\
    GetDexPC f = Some 7 /\ GetDexPCPtr f = nullptr /\
    monitors_ (lock_count_data_ f) = None.
Proof.
  apply (new_frame_is_zeroed 4 nullptr 1 7 3).
  - vm_compute. reflexivity.
  - lia.
Defined.

(** X7: Contains accepts the address of every shadow slot of the frame
    and rejects the address of every raw register slot and the address just
    past the reference array. *)
Theorem Contains_shadow_slots_only
    (tg : Target) (this : Z) (f : frame) (i : nat) :
  wf f ->
  0 < sizeof_StackReference tg ->
  (i < NumberOfVRegs f)%nat ->
  Contains tg this f (ReferencesAddr tg this f (Z.of_nat i)) = true /\
  Contains tg this f (VRegAddr tg this (Z.of_nat i)) = false /\
  Contains tg this f (ReferencesAddr tg this f (Z.of_nat (NumberOfVRegs f))) = false.
Proof.
  intros (_ & _ & Hn) Hr Hi. unfold Contains. simpl.
  rewrite to_uint32_small by (unfold NumberOfVRegs in *; lia).
  unfold ReferencesAddr, VRegAddr.
  split; [|split].
  - apply andb_true_iff. rewrite !Z.leb_le. nia.
  - apply andb_false_iff. left. apply Z.leb_gt. lia.
  - apply andb_false_iff. right. apply Z.leb_gt. nia.
Qed.

Lemma Contains_shadow_slots_only_witness :
  Contains LP64 1000 frame4 (ReferencesAddr LP64 1000 frame4 (Z.of_nat 2)) = true /\
  Contains LP64 1000 frame4 (VRegAddr LP64 1000 (Z.of_nat 2)) = false /\
  Contains LP64 1000 frame4
    (ReferencesAddr LP64 1000 frame4 (Z.of_nat (NumberOfVRegs frame4))) = false.
Proof.
  apply (Contains_shadow_slots_only LP64 1000 frame4 2).
  - exact wf_frame4.
  - simpl. lia.
  - simpl. lia.
Defined.

(** X26: GetShadowRefAddr(i) is the address 4 * i bytes past the start of
    the reference array; where a StackReference takes four bytes it is the
    address of References()[i], which Contains accepts; for an index that is
    not a register of the frame there is no result. *)
Theorem GetShadowRefAddr_slot (tg : Target) (this : Z) (f : frame) (i j : nat) :
  wf f ->
  (i < NumberOfVRegs f)%nat ->
  (NumberOfVRegs f <= j)%nat ->
  GetShadowRefAddr tg this f i = Some (ReferencesAddr tg this f 0 + 4 * Z.of_nat i) /\
  (sizeof_StackReference tg = 4 ->
     GetShadowRefAddr tg this f i = Some (ReferencesAddr tg this f (Z.of_nat i)) /\
     Contains tg this f (ReferencesAddr tg this f (Z.of_nat i)) = true) /\
  GetShadowRefAddr tg this f j = None.
Proof.
  intros (_ & _ & Hn) Hi Hj.
  assert (Hget : GetShadowRefAddr tg this f i
                 = Some (ReferencesAddr tg this f 0 + 4 * Z.of_nat i)).
  { unfold GetShadowRefAddr, ReferencesAddr, VRegAddr. simpl.
    rewrite bool_decide_eq_true_2 by exact Hi. simpl. f_equal. lia. }
  split; [exact Hget|]. split.
  - intros Hsz. split.
    + rewrite Hget. f_equal. unfold ReferencesAddr. rewrite Hsz. lia.
    + unfold Contains. simpl.
      rewrite to_uint32_small by (unfold NumberOfVRegs in *; lia).
      unfold ReferencesAddr, VRegAddr. rewrite Hsz.
      apply andb_true_iff. rewrite !Z.leb_le. lia.
  - unfold GetShadowRefAddr. simpl.
    rewrite bool_decide_eq_false_2 by lia. reflexivity.
Qed.

Lemma GetShadowRefAddr_slot_witness :
  GetShadowRefAddr ILP32 1000 frame4 1 = Some (ReferencesAddr ILP32 1000 frame4 0 + 4 * 1) /\
  Contains ILP32 1000 frame4 (ReferencesAddr ILP32 1000 frame4 1) = true /\
  GetShadowRefAddr ILP32 1000 frame4 4 = None.
Proof.
  destruct (GetShadowRefAddr_slot ILP32 1000 frame4 1 4 wf_frame4) as (Hget & Hfour & Hout).
  - simpl. lia.
  - simpl. lia.
  - split; [exact Hget|]. split; [|exact Hout].
    apply Hfour. reflexivity.
Defined.

End ShadowFrameMore.

(** ** Visiting the held monitors *)
Module LockCountMore.
Import LockCount.

(** X9: VisitMonitors hands every held monitor to the visitor once, in
    order, and stores what the visitor makes of it; the number of held
    monitors is unchanged, a ledger without vector is left as it is, and two
    visits amount to one visit with the composed visitor. *)
Theorem VisitMonitors_rewrites_in_place (visitor g : Z -> Z) (l : LockCountData) :
  monitors (VisitMonitors visitor l) = map visitor (monitors l) /\
  length (monitors (VisitMonitors visitor l)) = length (monitors l) /\
  (monitors_ l = None -> VisitMonitors visitor l = l) /\
  VisitMonitors g (VisitMonitors visitor l) = VisitMonitors (fun obj => g (visitor obj)) l.
Proof.
  unfold VisitMonitors, monitors. destruct l as [[ms|]]; simpl.
  - rewrite length_map. repeat split; [discriminate|].
    rewrite <- list_fmap_compose. reflexivity.
  - repeat split.
Qed.

Lemma VisitMonitors_rewrites_in_place_witness :
  monitors (VisitMonitors (fun obj => obj + 8) {| monitors_ := Some [16; 24; 16] |})
    = [24; 32; 24] /\
  VisitMonitors (fun obj => obj + 8) {| monitors_ := None |} = {| monitors_ := None |}.
Proof.
  split.
  - exact (proj1 (VisitMonitors_rewrites_in_place (fun obj => obj + 8) (fun obj => obj)
                    {| monitors_ := Some [16; 24; 16] |})).
  - apply (proj1 (proj2 (proj2 (VisitMonitors_rewrites_in_place
                                  (fun obj => obj + 8) (fun obj => obj)
                                  {| monitors_ := None |})))).
    reflexivity.
Defined.

End LockCountMore.

(** ** The cursor's numbers *)
Module StackVisitorMore.
Import StackVisitor StackVisitorSpec StackVisitorFacts.

(** X10: GetNumFrames keeps the frame count: a non-zero count the cursor
    holds is returned as it is, and after any call a second call returns the
    same count and leaves the cursor as the first call left it; the depth of
    the cursor is not touched. *)
Theorem GetNumFrames_is_cached (v : visitor) :
  GetNumFrames (snd (GetNumFrames v)) = GetNumFrames v /\
  cur_depth_ (snd (GetNumFrames v)) = cur_depth_ v /\
  (num_frames_ v <> 0 -> GetNumFrames v = (num_frames_ v, v)).
Proof.
  unfold GetNumFrames.
  destruct (Z.eqb_spec (num_frames_ v) 0) as [Hz|Hnz]; simpl.
  - split; [|split; [reflexivity | contradiction]].
    destruct (Z.eqb_spec (ComputeNumFrames (walk_kind_ v) (thread_ v)) 0); reflexivity.
  - destruct (Z.eqb_spec (num_frames_ v) 0); [contradiction|]. auto.
Qed.

Lemma GetNumFrames_is_cached_witness :
  GetNumFrames (make example_stack kIncludeInlinedFrames 7)
    = (7, make example_stack kIncludeInlinedFrames 7) /\
  GetNumFrames (snd (GetNumFrames (make example_stack kIncludeInlinedFrames 0)))
    = GetNumFrames (make example_stack kIncludeInlinedFrames 0).
Proof.
  split.
  - apply (proj2 (proj2 (GetNumFrames_is_cached (make example_stack kIncludeInlinedFrames 7)))).
    simpl. lia.
  - exact (proj1 (GetNumFrames_is_cached (make example_stack kIncludeInlinedFrames 0))).
Defined.

(** X11: with a frame count n given, a cursor at depth d < n has frame
    height n - 1 - d and frame id n - d, between 1 and n; a cursor that has
    left the last frame (d = n) has the height wrapped around to the largest
    size_t and the frame id 0. *)
Theorem height_and_id_of_cursor (tg : Target) (v : visitor) :
  target_ok tg ->
  0 < num_frames_ v < 2 ^ size_t_bits tg ->
  0 <= cur_depth_ v <= num_frames_ v ->
  (cur_depth_ v < num_frames_ v ->
     frame_height tg v = num_frames_ v - 1 - cur_depth_ v /\
     frame_id tg v = num_frames_ v - cur_depth_ v /\
     1 <= frame_id tg v <= num_frames_ v) /\
  (cur_depth_ v = num_frames_ v ->
     frame_height tg v = 2 ^ size_t_bits tg - 1 /\ frame_id tg v = 0).
Proof.
  intros Hok Hn Hd.
  assert (Hget : GetNumFrames v = (num_frames_ v, v)).
  { unfold GetNumFrames. destruct (Z.eqb_spec (num_frames_ v) 0); [lia | reflexivity]. }
  assert (Hbits : 0 <= size_t_bits tg).
  { unfold size_t_bits. destruct Hok as [[Hp|Hp] _]; rewrite Hp; lia. }
  unfold frame_id, frame_height, GetFrameId, GetFrameHeight. rewrite Hget. simpl.
  split.
  - intros Hlt. rewrite !size_t_small by (rewrite ?size_t_small; lia). lia.
  - intros Heq. rewrite Heq, Z.sub_diag. rewrite (size_t_small tg 0) by lia.
    assert (Hm1 : to_size_t tg (0 - 1) = 2 ^ size_t_bits tg - 1).
    { unfold to_size_t, wrap. symmetry.
      apply (Z.mod_unique _ _ (-1)); lia. }
    rewrite Hm1. split; [reflexivity|].
    replace (2 ^ size_t_bits tg - 1 + 1) with (2 ^ size_t_bits tg) by lia.
    unfold to_size_t, wrap. apply Z.mod_same. lia.
Qed.

Lemma height_and_id_of_cursor_witness :
  (frame_height LP64 (make example_stack kIncludeInlinedFrames 5) = 5 - 1 - 0 /\
   frame_id LP64 (make example_stack kIncludeInlinedFrames 5) = 5 - 0 /\
   1 <= frame_id LP64 (make example_stack kIncludeInlinedFrames 5) <= 5) /\
  (frame_height LP64 (with_depth (make example_stack kIncludeInlinedFrames 5) 5)
     = 2 ^ size_t_bits LP64 - 1 /\
   frame_id LP64 (with_depth (make example_stack kIncludeInlinedFrames 5) 5) = 0).
Proof.
  assert (Hok : target_ok LP64) by (unfold target_ok; simpl; lia).
  destruct (height_and_id_of_cursor LP64 (make example_stack kIncludeInlinedFrames 5) Hok)
    as (Hin & _);
    [change (0 < 5 < 2 ^ 64); lia | change (0 <= 0 <= 5); lia |].
  destruct (height_and_id_of_cursor LP64
              (with_depth (make example_stack kIncludeInlinedFrames 5) 5) Hok)
    as (_ & Hout);
    [change (0 < 5 < 2 ^ 64); lia | change (0 <= 5 <= 5); lia |].
  split; [apply Hin; change (0 < 5); lia | apply Hout; reflexivity].
Defined.

(** X12: the outgoing argument slots lie just above the method pointer:
    slot 0 at the pointer size, slot k at the pointer size plus 4k, so the
    four-byte slots of different outgoing arguments never overlap. *)
Theorem GetOutVROffset_slots (tg : Target) (j k : Z) :
  target_ok tg ->
  0 <= j < k ->
  k < 2 ^ 16 ->
  GetOutVROffset tg 0 = pointer_size tg /\
  GetOutVROffset tg k = pointer_size tg + 4 * k /\
  GetOutVROffset tg j + 4 <= GetOutVROffset tg k.
Proof.
  intros Hok Hj Hk.
  assert (Hoff : forall n, 0 <= n < 2 ^ 16 -> GetOutVROffset tg n = pointer_size tg + 4 * n).
  { intros n Hn. unfold GetOutVROffset.
    assert (Hfit : 0 <= pointer_size tg + n * 4 < 2 ^ 31)
      by (destruct Hok as [[Hp|Hp] _]; rewrite Hp; lia).
    rewrite size_t_small.
    - unfold to_int32, to_signed. rewrite wrap_small by lia.
      destruct (Z.ltb_spec (pointer_size tg + n * 4) (2 ^ (32 - 1))); simpl in *; lia.
    - unfold size_t_bits. destruct Hok as [[Hp|Hp] _]; rewrite Hp in *; simpl; lia. }
  rewrite (Hoff 0), (Hoff k), (Hoff j) by lia. lia.
Qed.

Lemma GetOutVROffset_slots_witness :
  GetOutVROffset LP64 0 = pointer_size LP64 /\
  GetOutVROffset LP64 3 = pointer_size LP64 + 4 * 3 /\
  GetOutVROffset LP64 2 + 4 <= GetOutVROffset LP64 3.
Proof.
  apply (GetOutVROffset_slots LP64 2 3).
  - unfold target_ok. simpl. lia.
  - lia.
  - lia.
Defined.

End StackVisitorMore.

(** ** More of dexdiag *)
Module DexDiagMore.
Import DexDiag DexDiagSpec DexDiagFacts DexDiagMoreSpec.

(** *** PageCount and the section letters *)

Lemma known_type_in_list ty info :
  kDexSectionInfoMap !! ty = Some info -> (ty, info) ∈ kDexSectionInfoList.
Proof. apply elem_of_list_to_map_2. Qed.

(** X13: a new PageCount holds 0 for each of the twenty section types and
    has no entry for any other type (Get fails); Increment adds one to the
    count of its type, creating an entry with count 1 for a type without
    one, and changes the count of no other type. *)
Theorem PageCount_Increment_Get (tg : Target) (ty other : Z) (m : gmap Z Z) :
  0 <= count_of m ty ->
  count_of m ty + 1 < 2 ^ size_t_bits tg ->
  other <> ty ->
  (is_Some (kDexSectionInfoMap !! ty) -> Get ty PageCount_new = Some 0) /\
  (kDexSectionInfoMap !! ty = None -> Get ty PageCount_new = None) /\
  Get ty (Increment tg ty m) = Some (count_of m ty + 1) /\
  (Get ty m = None -> Get ty (Increment tg ty m) = Some 1) /\
  Get other (Increment tg ty m) = Get other m.
Proof.
  intros H0 Hfit Hne. unfold Get, PageCount_new, Increment, count_of in *.
  split; [|split; [|split; [|split]]].
  - intros [info Hinfo]. rewrite lookup_fmap, Hinfo. reflexivity.
  - intros Hnone. rewrite lookup_fmap, Hnone. reflexivity.
  - rewrite lookup_insert_eq. f_equal. apply wrap_small. lia.
  - intros Hnone. rewrite lookup_insert_eq, Hnone in *. simpl in *.
    f_equal. apply wrap_small. lia.
  - apply lookup_insert_ne. auto.
Qed.

Lemma PageCount_Increment_Get_witness :
  (is_Some (kDexSectionInfoMap !! kDexTypeCodeItem) ->
     Get kDexTypeCodeItem PageCount_new = Some 0) /\
  (kDexSectionInfoMap !! kDexTypeCodeItem = None ->
     Get kDexTypeCodeItem PageCount_new = None) /\
  Get kDexTypeCodeItem (Increment LP64 kDexTypeCodeItem PageCount_new)
    = Some (count_of PageCount_new kDexTypeCodeItem + 1) /\
  (Get kDexTypeCodeItem PageCount_new = None ->
     Get kDexTypeCodeItem (Increment LP64 kDexTypeCodeItem PageCount_new) = Some 1) /\
  Get kDexTypeHeaderItem (Increment LP64 kDexTypeCodeItem PageCount_new)
    = Get kDexTypeHeaderItem PageCount_new.
Proof.
  apply (PageCount_Increment_Get LP64 kDexTypeCodeItem kDexTypeHeaderItem PageCount_new).
  - vm_compute. discriminate.
  - vm_compute. reflexivity.
  - vm_compute. discriminate.
Defined.

Ltac each_known_type H :=
  apply known_type_in_list in H;
  repeat (apply elem_of_cons in H as [H|H]; [inversion H; subst; clear H|]);
  [..|apply elem_of_nil in H; contradiction].

(** X14: PageTypeChar gives '-' for a type that is not one of the twenty
    section types; the letters of the twenty types differ from each other
    and from '.', '-' and the line break, so a character of the verbose map
    names its section type. *)
Theorem PageTypeChar_letters_are_distinct (ty1 ty2 : Z) :
  is_Some (kDexSectionInfoMap !! ty1) ->
  is_Some (kDexSectionInfoMap !! ty2) ->
  (PageTypeChar ty1 = PageTypeChar ty2 -> ty1 = ty2) /\
  PageTypeChar ty1 <> "."%char /\ PageTypeChar ty1 <> "-"%char /\
  is_newline (PageTypeChar ty1) = false /\
  (forall ty, kDexSectionInfoMap !! ty = None -> PageTypeChar ty = "-"%char).
Proof.
  intros [i1 H1] [i2 H2].
  split; [|split; [|split; [|split]]].
  - unfold PageTypeChar. rewrite H1, H2.
    each_known_type H1; each_known_type H2; cbn [letter];
      intros Heq; first [reflexivity | discriminate Heq].
  - unfold PageTypeChar. rewrite H1. each_known_type H1; cbn [letter]; discriminate.
  - unfold PageTypeChar. rewrite H1. each_known_type H1; cbn [letter]; discriminate.
  - unfold PageTypeChar. rewrite H1. each_known_type H1; reflexivity.
  - intros ty Hnone. unfold PageTypeChar. rewrite Hnone. reflexivity.
Qed.

Lemma PageTypeChar_letters_are_distinct_witness :
  (PageTypeChar kDexTypeCodeItem = PageTypeChar kDexTypeClassDataItem ->
     kDexTypeCodeItem = kDexTypeClassDataItem) /\
  PageTypeChar kDexTypeCodeItem <> "."%char /\ PageTypeChar kDexTypeCodeItem <> "-"%char /\
  is_newline (PageTypeChar kDexTypeCodeItem) = false /\
  (forall ty, kDexSectionInfoMap !! ty = None -> PageTypeChar ty = "-"%char).
Proof.
  apply (PageTypeChar_letters_are_distinct kDexTypeCodeItem kDexTypeClassDataItem).
  - vm_compute. eauto.
  - vm_compute. eauto.
Defined.

(** *** Attribution on any section list *)

Section AttributionMore.

Variable kPageSize : Z.

Lemma Find_cons (page : Z) (s : DexFileSection) (rest : list DexFileSection) :
  FindSectionTypeForPage kPageSize page (s :: rest) =
  if candidateb kPageSize page s then type s
  else FindSectionTypeForPage kPageSize page rest.
Proof.
  cbn [FindSectionTypeForPage]. unfold candidateb, not_empty.
  destruct (size s =? 0); simpl; [reflexivity|].
  destruct (offset s / kPageSize <=? page); reflexivity.
Qed.

(** X15: on any section list, sorted or not, FindSectionTypeForPage names
    the first section of the list that is not empty and starts at or below
    the page: sections in front of it do not count, sections behind it are
    not looked at, empty sections can be dropped from the list, and without
    such a section the answer is the header type. *)
Theorem FindSectionTypeForPage_first_candidate
    (page : Z) (front back : list DexFileSection) (s : DexFileSection) :
  existsb (candidateb kPageSize page) front = false ->
  candidateb kPageSize page s = true ->
  FindSectionTypeForPage kPageSize page (front ++ s :: back) = type s /\
  FindSectionTypeForPage kPageSize page front = kDexTypeHeaderItem /\
  FindSectionTypeForPage kPageSize page (front ++ back) =
    FindSectionTypeForPage kPageSize page back /\
  FindSectionTypeForPage kPageSize page (List.filter not_empty (front ++ s :: back)) =
    type s.
Proof.
  intros Hfront Hs.
  assert (Hskip : forall tl,
    FindSectionTypeForPage kPageSize page (front ++ tl) =
    FindSectionTypeForPage kPageSize page tl).
  { intros tl. induction front as [|x front' IH]; [reflexivity|].
    simpl in Hfront. apply orb_false_iff in Hfront as [Hx Hrest].
    change ((x :: front') ++ tl) with (x :: (front' ++ tl)).
    rewrite Find_cons, Hx. apply IH. exact Hrest. }
  assert (Hfilter : forall l,
    FindSectionTypeForPage kPageSize page (List.filter not_empty l) =
    FindSectionTypeForPage kPageSize page l).
  { induction l as [|x l IH]; [reflexivity|].
    cbn [List.filter]. destruct (not_empty x) eqn:Hx.
    - rewrite !Find_cons, IH. reflexivity.
    - rewrite Find_cons. unfold candidateb. rewrite Hx. simpl. exact IH. }
  split; [|split; [|split]].
  - rewrite Hskip, Find_cons, Hs. reflexivity.
  - rewrite <- (app_nil_r front) at 1. rewrite Hskip. reflexivity.
  - apply Hskip.
  - rewrite Hfilter, Hskip, Find_cons, Hs. reflexivity.
Qed.

End AttributionMore.

Lemma FindSectionTypeForPage_first_candidate_witness :
  FindSectionTypeForPage 4096 3
    ([ {| type := kDexTypeCodeItem; size := 6000; offset := 16384 |} ] ++
     {| type := kDexTypeStringIdItem; size := 400; offset := 8192 |} ::
     [ {| type := kDexTypeHeaderItem; size := 112; offset := 0 |} ])
    = kDexTypeStringIdItem /\
  FindSectionTypeForPage 4096 3
    [ {| type := kDexTypeCodeItem; size := 6000; offset := 16384 |} ] = kDexTypeHeaderItem /\
  FindSectionTypeForPage 4096 3
    ([ {| type := kDexTypeCodeItem; size := 6000; offset := 16384 |} ] ++
     [ {| type := kDexTypeHeaderItem; size := 112; offset := 0 |} ]) =
  FindSectionTypeForPage 4096 3
     [ {| type := kDexTypeHeaderItem; size := 112; offset := 0 |} ] /\
  FindSectionTypeForPage 4096 3 (List.filter not_empty
    ([ {| type := kDexTypeCodeItem; size := 6000; offset := 16384 |} ] ++
     {| type := kDexTypeStringIdItem; size := 400; offset := 8192 |} ::
     [ {| type := kDexTypeHeaderItem; size := 112; offset := 0 |} ]))
    = kDexTypeStringIdItem.
Proof.
  apply (FindSectionTypeForPage_first_candidate 4096 3
           [ {| type := kDexTypeCodeItem; size := 6000; offset := 16384 |} ]
           [ {| type := kDexTypeHeaderItem; size := 112; offset := 0 |} ]
           {| type := kDexTypeStringIdItem; size := 400; offset := 8192 |});
    reflexivity.
Defined.

(** *** What the counts count *)

Section Counting.

Variable tg : Target.
Variable kPageSize : Z.
Variable PM_PAGEMAP_PRESENT : Z -> bool.

Lemma count_of_new ty : count_of PageCount_new ty = 0.
Proof.
  unfold count_of, PageCount_new. rewrite lookup_fmap.
  destruct (kDexSectionInfoMap !! ty); reflexivity.
Qed.

Lemma count_of_Increment k m ty0 ty :
  0 <= k -> k + 1 < 2 ^ size_t_bits tg -> counts_ok k m ->
  count_of (Increment tg ty0 m) ty = count_of m ty + (if ty0 =? ty then 1 else 0).
Proof.
  intros Hk Hfit [_ Hmax]. unfold count_of, Increment.
  destruct (Z.eqb_spec ty0 ty) as [->|Hne].
  - rewrite lookup_insert_eq. simpl.
    destruct (m !! ty) as [c|] eqn:Hc; simpl.
    + specialize (Hmax ty c Hc). apply wrap_small. lia.
    + apply wrap_small. lia.
  - rewrite lookup_insert_ne by exact Hne. lia.
Qed.

Lemma attributed_resident_cons sections pagemap ty page pages :
  attributed_resident kPageSize PM_PAGEMAP_PRESENT pagemap sections ty (page :: pages) =
  (if page_is_resident PM_PAGEMAP_PRESENT pagemap page &&
      (FindSectionTypeForPage kPageSize page sections =? ty) then 1 else 0) +
  attributed_resident kPageSize PM_PAGEMAP_PRESENT pagemap sections ty pages.
Proof.
  unfold attributed_resident. cbn [List.filter].
  destruct (page_is_resident PM_PAGEMAP_PRESENT pagemap page &&
            (FindSectionTypeForPage kPageSize page sections =? ty)); cbn [length]; lia.
Qed.

Lemma attributed_cons sections ty page pages :
  attributed kPageSize sections ty (page :: pages) =
  (if FindSectionTypeForPage kPageSize page sections =? ty then 1 else 0) +
  attributed kPageSize sections ty pages.
Proof.
  unfold attributed. cbn [List.filter].
  destruct (FindSectionTypeForPage kPageSize page sections =? ty); cbn [length]; lia.
Qed.

Lemma attributed_bounds sections pagemap ty pages :
  0 <= attributed_resident kPageSize PM_PAGEMAP_PRESENT pagemap sections ty pages
    <= attributed kPageSize sections ty pages /\
  attributed kPageSize sections ty pages <= Z.of_nat (length pages).
Proof.
  induction pages as [|p pages IH].
  - unfold attributed_resident, attributed. simpl. lia.
  - rewrite attributed_resident_cons, attributed_cons. cbn [length].
    destruct (page_is_resident PM_PAGEMAP_PRESENT pagemap p);
      destruct (FindSectionTypeForPage kPageSize p sections =? ty); simpl; lia.
Qed.

Lemma length_pages_from n : forall page, length (pages_from page n) = n.
Proof. induction n as [|n IH]; intros page; simpl; [reflexivity | rewrite IH; reflexivity]. Qed.

(** The residency loop adds to each type the resident pages attributed
    to it. *)
Lemma ProcessPageMap_loop_pointwise verbose pagemap start sections n :
  forall page counts out k counts' out',
    0 <= page -> page + Z.of_nat n <= Z.of_nat (length pagemap) ->
    page + Z.of_nat n < 2 ^ size_t_bits tg ->
    0 <= k -> k + Z.of_nat n < 2 ^ size_t_bits tg ->
    counts_ok k counts ->
    ProcessPageMap_loop tg kPageSize PM_PAGEMAP_PRESENT verbose pagemap start page n
                        sections counts out = Some (counts', out') ->
    forall ty, count_of counts' ty =
      count_of counts ty +
      attributed_resident kPageSize PM_PAGEMAP_PRESENT pagemap sections ty
                          (pages_from page n).
Proof.
  induction n as [|n IH]; intros page counts out k counts' out' Hp Hlen Hfit Hk Hkfit Hok Hrun ty.
  - simpl in Hrun. inversion Hrun; subst. unfold attributed_resident. simpl. lia.
  - cbn [ProcessPageMap_loop] in Hrun. cbn [pages_from].
    rewrite attributed_resident_cons. unfold page_is_resident.
    destruct (lookup_lt_is_Some_2 pagemap (Z.to_nat page)) as [entry Hentry]; [lia|].
    rewrite Hentry in *. cbn [mbind option_bind] in Hrun.
    rewrite (size_t_id tg (page + 1)) in Hrun by lia.
    assert (Hstep := fun c o Hc =>
      IH (page + 1) c o (k + 1) counts' out'
         ltac:(lia) ltac:(lia) ltac:(lia) ltac:(lia) ltac:(lia) Hc).
    assert (Hk1 : k + 1 < 2 ^ size_t_bits tg) by lia.
    destruct (PM_PAGEMAP_PRESENT entry); cbn [andb].
    + rewrite (Hstep _ _ (counts_ok_Increment tg k _ _ Hk Hk1 Hok) Hrun ty).
      rewrite (count_of_Increment k) by (try assumption; lia). lia.
    + rewrite (Hstep _ _ (counts_ok_mono k (k + 1) _ ltac:(lia) Hok) Hrun ty).
      lia.
Qed.

Lemma count_mapped_pointwise sections n : forall page mapped k,
  0 <= page -> page + Z.of_nat n < 2 ^ size_t_bits tg ->
  0 <= k -> k + Z.of_nat n < 2 ^ size_t_bits tg ->
  counts_ok k mapped ->
  forall ty, count_of (count_mapped tg kPageSize page n sections mapped) ty =
             count_of mapped ty + attributed kPageSize sections ty (pages_from page n).
Proof.
  induction n as [|n IH]; intros page mapped k Hp Hfit Hk Hkfit Hok ty.
  - unfold attributed. simpl. lia.
  - cbn [count_mapped pages_from]. rewrite attributed_cons.
    rewrite (size_t_id tg (page + 1)) by lia.
    rewrite (IH (page + 1) _ (k + 1)); try lia.
    + rewrite (count_of_Increment k) by (try assumption; lia). lia.
    + apply counts_ok_Increment; [lia | lia | exact Hok].
Qed.

(** The residency pass counts, for each type, the resident pages
    attributed to it. *)
Lemma ProcessPageMap_attributes_pages
    (flags : Flags) (pagemap : list Z) (start end_ : Z) (sections : list DexFileSection) :
  0 <= start <= end_ ->
  end_ <= Z.of_nat (length pagemap) ->
  end_ < 2 ^ size_t_bits tg ->
  exists counts chars,
    ProcessPageMap tg kPageSize PM_PAGEMAP_PRESENT flags pagemap start end_ sections
                   PageCount_new = Some (counts, chars) /\
    forall ty, count_of counts ty =
      attributed_resident kPageSize PM_PAGEMAP_PRESENT pagemap sections ty
                          (pages_from start (Z.to_nat (end_ - start))).
Proof.
  intros Hrange Hlen Hfit.
  destruct (ProcessPageMap_loop_counts tg kPageSize PM_PAGEMAP_PRESENT (g_verbose flags)
              pagemap start sections (Z.to_nat (end_ - start)) start PageCount_new
              EmptyString 0)
    as (counts & out & Hrun & _); try lia; [apply counts_ok_new|].
  assert (Hpoint := ProcessPageMap_loop_pointwise (g_verbose flags) pagemap start sections
            (Z.to_nat (end_ - start)) start PageCount_new EmptyString 0 counts out
            ltac:(lia) ltac:(lia) ltac:(lia) ltac:(lia) ltac:(lia) counts_ok_new Hrun).
  assert (Hpm : exists chars,
    ProcessPageMap tg kPageSize PM_PAGEMAP_PRESENT flags pagemap start end_ sections
                   PageCount_new = Some (counts, chars)).
  { unfold ProcessPageMap. rewrite Hrun. cbn [mbind option_bind].
    destruct (g_verbose flags); eauto. }
  destruct Hpm as [chars Hpm]. exists counts, chars. split; [exact Hpm|].
  intros ty. rewrite Hpoint, count_of_new. lia.
Qed.

(** X16: after ProcessPageMap over the pages from start to end, the count
    of every section type is the number of pages of the range that are
    resident and attributed to that type by FindSectionTypeForPage; types
    nothing is attributed to keep the count 0. *)
Theorem ProcessPageMap_counts_resident_pages
    (flags : Flags) (pagemap : list Z) (start end_ : Z) (sections : list DexFileSection) :
  0 <= start <= end_ ->
  end_ <= Z.of_nat (length pagemap) ->
  end_ < 2 ^ size_t_bits tg ->
  exists counts chars,
    ProcessPageMap tg kPageSize PM_PAGEMAP_PRESENT flags pagemap start end_ sections
                   PageCount_new = Some (counts, chars) /\
    forall ty, count_of counts ty =
      attributed_resident kPageSize PM_PAGEMAP_PRESENT pagemap sections ty
                          (pages_from start (Z.to_nat (end_ - start))).
Proof. apply ProcessPageMap_attributes_pages. Qed.

Lemma ProcessPageMap_counts_resident_pages_aux
    (flags : Flags) (pagemap : list Z) (start end_ : Z) (sections : list DexFileSection)
    (counts : gmap Z Z) (chars : list Output) :
  0 <= start <= end_ ->
  end_ <= Z.of_nat (length pagemap) ->
  end_ < 2 ^ size_t_bits tg ->
  ProcessPageMap tg kPageSize PM_PAGEMAP_PRESENT flags pagemap start end_ sections
                 PageCount_new = Some (counts, chars) ->
  forall ty, count_of counts ty =
    attributed_resident kPageSize PM_PAGEMAP_PRESENT pagemap sections ty
                        (pages_from start (Z.to_nat (end_ - start))).
Proof.
  intros Hrange Hlen Hfit Hpm.
  destruct (ProcessPageMap_attributes_pages flags pagemap start end_ sections
              Hrange Hlen Hfit) as (counts' & chars' & Hpm' & Hpoint).
  rewrite Hpm in Hpm'. inversion Hpm'; subst. exact Hpoint.
Qed.

Lemma stat_rows_rows resident_pages mapped_pages printed : forall total rows total',
  stat_rows tg resident_pages mapped_pages printed total = Some (rows, total') ->
  Forall2 (fun row s =>
             row_resident row = count_of resident_pages (type s) /\
             row_mapped row = count_of mapped_pages (type s) /\
             name <$> kDexSectionInfoMap !! type s = Some (row_name row))
          rows printed.
Proof.
  induction printed as [|section rest IH]; intros total rows total' Hrun.
  - simpl in Hrun. inversion Hrun; subst. constructor.
  - cbn [stat_rows] in Hrun. unfold Get, count_of in *.
    destruct (kDexSectionInfoMap !! type section) as [info|] eqn:Hinfo;
      cbn [mbind option_bind] in Hrun; [|discriminate].
    destruct (resident_pages !! type section) as [r|] eqn:Hr;
      cbn [mbind option_bind] in Hrun; [|discriminate].
    destruct (mapped_pages !! type section) as [mp|] eqn:Hmp;
      cbn [mbind option_bind] in Hrun; [|discriminate].
    destruct (stat_rows tg resident_pages mapped_pages rest _) as [[rows1 total1]|] eqn:Hrest;
      cbn [mbind option_bind] in Hrun; [|discriminate].
    inversion Hrun; subst; clear Hrun.
    constructor; [|eapply IH; exact Hrest].
    simpl. rewrite Hr, Hmp, Hinfo. auto.
Qed.

Lemma Forall2_left {A B} (P : A -> B -> Prop) (Q : A -> Prop) (l : list A) (k : list B) :
  Forall2 P l k -> (forall a b, P a b -> Q a) -> Forall Q l.
Proof.
  intros H2 Himp. induction H2 as [|a b l k Hab _ IH]; constructor; eauto.
Qed.

(** X17: in the statistics table the rows are those of the sections in
    reverse list order, each under the name of its type; the resident count
    of a row is the number of resident pages of the range attributed to its
    type and the mapped count the number of all pages of the range attributed
    to it, so no row shows more resident pages than mapped pages, nor more
    mapped pages than the range has. *)
Theorem statistics_rows_resident_within_mapped
    (flags : Flags) (pagemap : list Z) (start end_ : Z) (sections : list DexFileSection) :
  0 <= start < end_ ->
  end_ <= Z.of_nat (length pagemap) ->
  end_ < 2 ^ size_t_bits tg ->
  Forall known_section sections ->
  Z.of_nat (length sections) * (end_ - start) < 2 ^ size_t_bits tg ->
  exists counts chars rows total,
    ProcessPageMap tg kPageSize PM_PAGEMAP_PRESENT flags pagemap start end_ sections
                   PageCount_new = Some (counts, chars) /\
    DisplayDexStatistics tg kPageSize start end_ counts sections
      = Some [OutStatistics rows total (end_ - start)] /\
    Forall2 (fun row s =>
               row_resident row =
                 attributed_resident kPageSize PM_PAGEMAP_PRESENT pagemap sections (type s)
                                     (pages_from start (Z.to_nat (end_ - start))) /\
               row_mapped row =
                 attributed kPageSize sections (type s)
                            (pages_from start (Z.to_nat (end_ - start))) /\
               name <$> kDexSectionInfoMap !! type s = Some (row_name row))
            rows (rev sections) /\
    Forall (fun row => 0 <= row_resident row <= row_mapped row /\
                       row_mapped row <= end_ - start) rows.
Proof.
  intros Hrange Hlen Hfit Hknown Hsum.
  destruct (ProcessPageMap_then_statistics tg kPageSize PM_PAGEMAP_PRESENT flags pagemap
              start end_ sections Hrange Hlen Hfit Hknown Hsum)
    as (counts & chars & rows & total & Hpm & Hdisp & _ & _).
  exists counts, chars, rows, total. split; [exact Hpm|]. split; [exact Hdisp|].
  pose proof (ProcessPageMap_counts_resident_pages_aux flags pagemap start end_ sections
                counts chars ltac:(lia) Hlen Hfit Hpm) as Hres.
  set (pages := pages_from start (Z.to_nat (end_ - start))) in *.
  set (mapped := count_mapped tg kPageSize start (Z.to_nat (end_ - start)) sections
                              PageCount_new).
  assert (Hmapped : forall ty, count_of mapped ty = attributed kPageSize sections ty pages).
  { intros ty. unfold mapped.
    rewrite (count_mapped_pointwise sections _ start PageCount_new 0); try lia.
    - rewrite count_of_new. unfold pages. lia.
    - apply counts_ok_new. }
  assert (Hrows : Forall2 (fun row s =>
             row_resident row = count_of counts (type s) /\
             row_mapped row = count_of mapped (type s) /\
             name <$> kDexSectionInfoMap !! type s = Some (row_name row))
          rows (rev sections)).
  { unfold DisplayDexStatistics in Hdisp.
    destruct (Z.leb_spec start end_) as [_|Hbad]; [|lia].
    cbn [DCHECK mbind option_bind] in Hdisp.
    rewrite (size_t_id tg (end_ - start)) in Hdisp by lia.
    destruct (Z.eqb_spec (end_ - start) 0) as [Hz|_]; [lia|].
    fold mapped in Hdisp.
    destruct (stat_rows tg counts mapped (rev sections) 0) as [[rows1 total1]|] eqn:Hst;
      cbn [mbind option_bind] in Hdisp; [|discriminate].
    inversion Hdisp; subst. eapply stat_rows_rows. exact Hst. }
  assert (Hrows' : Forall2 (fun row s =>
             row_resident row =
               attributed_resident kPageSize PM_PAGEMAP_PRESENT pagemap sections (type s) pages /\
             row_mapped row = attributed kPageSize sections (type s) pages /\
             name <$> kDexSectionInfoMap !! type s = Some (row_name row))
          rows (rev sections)).
  { eapply Forall2_impl; [exact Hrows|]. cbv beta. intros row s (A & B & C).
    rewrite A, B, Hres, Hmapped. auto. }
  split; [exact Hrows'|].
  eapply Forall2_left; [exact Hrows'|]. cbv beta. intros row s (A & B & _).
  rewrite A, B.
  pose proof (attributed_bounds sections pagemap (type s) pages) as [Hb1 Hb2].
  assert (Hlenp : Z.of_nat (length pages) = end_ - start)
    by (unfold pages; rewrite length_pages_from; lia).
  lia.
Qed.

End Counting.

Lemma ProcessPageMap_counts_resident_pages_witness :
  exists counts chars,
    ProcessPageMap LP64 4096 pagemap_present statistics_only scenario_C_pagemap 0 6
                   scenario_C_sections PageCount_new = Some (counts, chars) /\
    forall ty, count_of counts ty =
      attributed_resident 4096 pagemap_present scenario_C_pagemap scenario_C_sections ty
                          (pages_from 0 (Z.to_nat (6 - 0))).
Proof.
  apply (ProcessPageMap_counts_resident_pages LP64 4096 pagemap_present statistics_only
           scenario_C_pagemap 0 6 scenario_C_sections).
  - lia.
  - simpl. lia.
  - vm_compute. reflexivity.
Defined.

Lemma statistics_rows_resident_within_mapped_witness :
  exists counts chars rows total,
    ProcessPageMap LP64 4096 pagemap_present statistics_only scenario_C_pagemap 0 6
                   scenario_C_sections PageCount_new = Some (counts, chars) /\
    DisplayDexStatistics LP64 4096 0 6 counts scenario_C_sections
      = Some [OutStatistics rows total (6 - 0)] /\
    Forall2 (fun row s =>
               row_resident row =
                 attributed_resident 4096 pagemap_present scenario_C_pagemap
                                     scenario_C_sections (type s)
                                     (pages_from 0 (Z.to_nat (6 - 0))) /\
               row_mapped row =
                 attributed 4096 scenario_C_sections (type s)
                            (pages_from 0 (Z.to_nat (6 - 0))) /\
               name <$> kDexSectionInfoMap !! type s = Some (row_name row))
            rows (rev scenario_C_sections) /\
    Forall (fun row => 0 <= row_resident row <= row_mapped row /\
                       row_mapped row <= 6 - 0) rows.
Proof.
  apply (statistics_rows_resident_within_mapped LP64 4096 pagemap_present statistics_only
           scenario_C_pagemap 0 6 scenario_C_sections).
  - lia.
  - simpl. lia.
  - vm_compute. reflexivity.
  - exact scenario_C_known.
  - vm_compute. reflexivity.
Defined.

(** *** The verbose page map *)

Section VerboseMap.

Variable tg : Target.
Variable kPageSize : Z.
Variable PM_PAGEMAP_PRESENT : Z -> bool.

Lemma string_cons_app (x : ascii) (a b : string) :
  (String x a ++ b)%string = String x (a ++ b)%string.
Proof. reflexivity. Qed.

Lemma string_app_assoc (a b c : string) : ((a ++ b) ++ c)%string = (a ++ (b ++ c))%string.
Proof.
  induction a as [|x a IH]; [reflexivity|]. rewrite !string_cons_app, IH. reflexivity.
Qed.

Lemma string_app_nil_r (a : string) : (a ++ EmptyString)%string = a.
Proof.
  induction a as [|x a IH]; [reflexivity|]. rewrite string_cons_app, IH. reflexivity.
Qed.

Lemma string_length_app (a b : string) :
  String.length (a ++ b)%string = (String.length a + String.length b)%nat.
Proof.
  induction a as [|x a IH]; [reflexivity|].
  rewrite string_cons_app. cbn [String.length]. rewrite IH. reflexivity.
Qed.

Lemma remove_newlines_app (a b : string) :
  remove_newlines (a ++ b)%string = (remove_newlines a ++ remove_newlines b)%string.
Proof.
  induction a as [|x a IH]; [reflexivity|].
  rewrite string_cons_app. cbn [remove_newlines].
  destruct (is_newline x); rewrite IH; reflexivity.
Qed.

Lemma remove_newlines_char (c : ascii) :
  is_newline c = false -> remove_newlines (String c EmptyString) = String c EmptyString.
Proof. intros Hc. cbn [remove_newlines]. rewrite Hc. reflexivity. Qed.

Lemma PageTypeChar_not_newline ty : is_newline (PageTypeChar ty) = false.
Proof.
  unfold PageTypeChar. destruct (kDexSectionInfoMap !! ty) as [info|] eqn:Hinfo;
    [|reflexivity].
  each_known_type Hinfo; reflexivity.
Qed.

Lemma page_char_not_newline pagemap sections page :
  is_newline (page_char kPageSize PM_PAGEMAP_PRESENT pagemap sections page) = false.
Proof.
  unfold page_char. destruct (page_is_resident PM_PAGEMAP_PRESENT pagemap page);
    [apply PageTypeChar_not_newline | reflexivity].
Qed.

Lemma line_break_count (j : Z) :
  0 <= j -> (j + 1) / 32 = j / 32 + (if j mod 32 =? 31 then 1 else 0).
Proof.
  intros Hj. destruct (Z.eqb_spec (j mod 32) 31); Z.div_mod_to_equations; lia.
Qed.

(** The verbose loop appends one character per page and a line break
    behind every 32nd page of the range. *)
Lemma ProcessPageMap_loop_verbose pagemap start sections n :
  forall page counts out counts' out',
    0 <= start <= page -> page + Z.of_nat n <= Z.of_nat (length pagemap) ->
    page + Z.of_nat n < 2 ^ size_t_bits tg ->
    ProcessPageMap_loop tg kPageSize PM_PAGEMAP_PRESENT true pagemap start page n
                        sections counts out = Some (counts', out') ->
    remove_newlines out' =
      (remove_newlines out ++
       string_of_list_ascii
         (map (page_char kPageSize PM_PAGEMAP_PRESENT pagemap sections)
              (pages_from page n)))%string /\
    Z.of_nat (String.length out') =
      Z.of_nat (String.length out) + Z.of_nat n +
      ((page - start + Z.of_nat n) / 32 - (page - start) / 32).
Proof.
  induction n as [|n IH]; intros page counts out counts' out' Hp Hlen Hfit Hrun.
  - simpl in Hrun. inversion Hrun; subst.
    cbn [pages_from map string_of_list_ascii]. change (Z.of_nat 0) with 0.
    rewrite string_app_nil_r, !Z.add_0_r, Z.sub_diag. split; [reflexivity | lia].
  - cbn [ProcessPageMap_loop] in Hrun. cbn [pages_from map string_of_list_ascii].
    destruct (lookup_lt_is_Some_2 pagemap (Z.to_nat page)) as [entry Hentry]; [lia|].
    rewrite Hentry in Hrun. cbn [mbind option_bind] in Hrun.
    rewrite (size_t_id tg (page + 1)) in Hrun by lia.
    set (c := page_char kPageSize PM_PAGEMAP_PRESENT pagemap sections page).
    assert (Hc : (if PM_PAGEMAP_PRESENT entry
                  then PageTypeChar (FindSectionTypeForPage kPageSize page sections)
                  else "."%char) = c).
    { unfold c, page_char, page_is_resident. rewrite Hentry. reflexivity. }
    assert (Hnl : is_newline c = false) by apply page_char_not_newline.
    pose proof (line_break_count (page - start) ltac:(lia)) as Hbrk.
    unfold kLineLength in Hrun. change (32 - 1) with 31 in Hrun.
    assert (Hnext : exists counts1 out1,
      ProcessPageMap_loop tg kPageSize PM_PAGEMAP_PRESENT true pagemap start (page + 1) n
                          sections counts1 out1 = Some (counts', out') /\
      remove_newlines out1 = (remove_newlines out ++ String c EmptyString)%string /\
      Z.of_nat (String.length out1) =
        Z.of_nat (String.length out) + 1 +
        (if (page - start) mod 32 =? 31 then 1 else 0)).
    { destruct (PM_PAGEMAP_PRESENT entry); rewrite Hc in Hrun;
        destruct ((page - start) mod 32 =? 31);
        eexists _, _; (split; [exact Hrun|]);
        rewrite ?remove_newlines_app, ?string_length_app, remove_newlines_char by exact Hnl;
        cbn [remove_newlines newline is_newline Ascii.eqb Bool.eqb String.length];
        rewrite ?string_app_nil_r; split; try reflexivity; lia. }
    destruct Hnext as (counts1 & out1 & Hrun1 & Hstr1 & Hlen1).
    apply IH in Hrun1 as [Hstr Hlong]; [|lia|lia|lia].
    split.
    + rewrite Hstr, Hstr1, string_app_assoc. reflexivity.
    + rewrite Hlong, Hlen1.
      replace (page + 1 - start) with (page - start + 1) by lia.
      replace (page - start + 1 + Z.of_nat n) with (page - start + Z.of_nat (S n)) by lia.
      lia.
Qed.

(** X18: with -v ProcessPageMap prints the page map of the range: without
    its line breaks it has exactly one character per page, in page order, '.'
    for a page that is not resident and the letter of its section otherwise;
    the line breaks add one character for every 32 pages begun, so the text
    is (end - start) + ceil((end - start) / 32) characters long.  Without -v
    nothing is printed. *)
Theorem verbose_map_has_one_character_per_page
    (flags : Flags) (pagemap : list Z) (start end_ : Z) (sections : list DexFileSection) :
  0 <= start <= end_ ->
  end_ <= Z.of_nat (length pagemap) ->
  end_ < 2 ^ size_t_bits tg ->
  exists counts out,
    ProcessPageMap tg kPageSize PM_PAGEMAP_PRESENT flags pagemap start end_ sections
                   PageCount_new
      = Some (counts, if g_verbose flags then [OutPageChars out] else []) /\
    (g_verbose flags = true ->
       remove_newlines out =
         string_of_list_ascii
           (map (page_char kPageSize PM_PAGEMAP_PRESENT pagemap sections)
                (pages_from start (Z.to_nat (end_ - start)))) /\
       Z.of_nat (String.length out) = (end_ - start) + (end_ - start + 31) / 32).
Proof.
  intros Hrange Hlen Hfit.
  destruct (ProcessPageMap_loop_counts tg kPageSize PM_PAGEMAP_PRESENT (g_verbose flags)
              pagemap start sections (Z.to_nat (end_ - start)) start PageCount_new
              EmptyString 0)
    as (counts & out & Hrun & _); try lia; [apply counts_ok_new|].
  unfold ProcessPageMap. rewrite Hrun. cbn [mbind option_bind].
  destruct (g_verbose flags) eqn:Hv.
  - apply ProcessPageMap_loop_verbose in Hrun as [Hstr Hlong]; [|lia|lia|lia].
    rewrite Z.sub_diag, Z.add_0_l, Z2Nat.id in Hlong by lia.
    change (String.length EmptyString) with 0%nat in Hlong.
    change (remove_newlines EmptyString) with EmptyString in Hstr.
    rewrite (size_t_id tg (end_ - start)) by lia. unfold kLineLength.
    destruct (Z.eqb_spec ((end_ - start) mod 32) 0) as [Hm|Hm]; cbn [negb];
      eexists _, _; (split; [reflexivity|]); intros _.
    + split; [exact Hstr|]. rewrite Hlong. Z.div_mod_to_equations. lia.
    + rewrite remove_newlines_app, string_length_app, Hstr.
      cbn [remove_newlines newline is_newline Ascii.eqb Bool.eqb String.length].
      rewrite string_app_nil_r. split; [reflexivity|].
      rewrite Nat2Z.inj_add, Hlong. Z.div_mod_to_equations. lia.
  - exists counts, EmptyString. split; [reflexivity|]. discriminate.
Qed.

End VerboseMap.

Lemma verbose_map_has_one_character_per_page_witness :
  exists counts out,
    ProcessPageMap LP64 4096 pagemap_present verbose_only scenario_C_pagemap 0 6
                   scenario_C_sections PageCount_new
      = Some (counts, [OutPageChars out]) /\
    remove_newlines out = "H.S..X"%string /\
    Z.of_nat (String.length out) = 7.
Proof.
  destruct (verbose_map_has_one_character_per_page LP64 4096 pagemap_present verbose_only
              scenario_C_pagemap 0 6 scenario_C_sections)
    as (counts & out & Hrun & Hout); [lia | simpl; lia | vm_compute; reflexivity |].
  exists counts, out. split; [exact Hrun|]. exact (Hout eq_refl).
Defined.

(** *** The page range of a dex file *)

(** X19: the page range ProcessOneDexMapping computes ends at
    ceil((start + size) / kPageSize), where start is the start page and size
    the size in bytes; it is not empty exactly when size exceeds
    start * (kPageSize - 1); and for a dex file that begins where its
    container begins it is exactly the pages the bytes of the file lie in. *)
Theorem dex_page_range_nonempty_iff
    (kPageSize dex_file_start dex_file_size vdex_start : Z) :
  0 < kPageSize ->
  0 <= vdex_start <= dex_file_start ->
  dex_file_start < 2 ^ 64 ->
  0 <= dex_file_size ->
  (dex_file_start - vdex_start) / kPageSize + dex_file_size + kPageSize - 1 < 2 ^ 64 ->
  let '(start, end_) := dex_page_range kPageSize dex_file_start dex_file_size vdex_start in
  end_ = (start + dex_file_size + kPageSize - 1) / kPageSize /\
  (start < end_ <-> start * (kPageSize - 1) < dex_file_size) /\
  (dex_file_start = vdex_start ->
     start = 0 /\
     (forall b, 0 <= b < dex_file_size ->
                start <= (dex_file_start - vdex_start + b) / kPageSize < end_) /\
     (0 < dex_file_size ->
        end_ - 1 = (dex_file_start - vdex_start + dex_file_size - 1) / kPageSize)).
Proof.
  intros Hp Hv Hd Hs Hfit. unfold dex_page_range.
  assert (Hstart : to_uint64 (dex_file_start - vdex_start) = dex_file_start - vdex_start)
    by (apply wrap_small; lia).
  rewrite Hstart.
  set (start := (dex_file_start - vdex_start) / kPageSize) in *.
  assert (Hs0 : 0 <= start) by (apply Z.div_pos; lia).
  assert (Hsum : to_uint64 (start + dex_file_size) = start + dex_file_size)
    by (apply wrap_small; lia).
  rewrite Hsum.
  destruct (RoundUp_spec kPageSize (start + dex_file_size) Hp ltac:(lia) ltac:(lia))
    as [Hru Hbound].
  rewrite Hru, Z.div_mul by lia.
  set (X := start + dex_file_size + kPageSize - 1) in *.
  split; [reflexivity|]. split; [split|].
  - intros Hlt.
    destruct (Z.lt_ge_cases X (kPageSize * (start + 1))) as [Hsmall|Hbig]; [|unfold X in *; nia].
    apply Z.div_lt_upper_bound in Hsmall; lia.
  - intros Hsize.
    assert (Hle : start + 1 <= X / kPageSize)
      by (apply Z.div_le_lower_bound; [lia | unfold X; nia]).
    lia.
  - intros Heq.
    assert (Hzero : start = 0).
    { unfold start. rewrite Heq, Z.sub_diag. apply Z.div_0_l. lia. }
    split; [exact Hzero|]. rewrite Hru in Hbound. fold X in Hbound.
    rewrite Heq, Z.sub_diag. split.
    + intros b Hb. rewrite Z.add_0_l. split; [rewrite Hzero; apply Z.div_pos; lia|].
      apply Z.div_lt_upper_bound; [lia | nia].
    + intros Hpos.
      assert (HX : X = 0 + dex_file_size - 1 + 1 * kPageSize) by (unfold X; lia).
      rewrite HX, Z.div_add by lia. lia.
Qed.

Lemma dex_page_range_nonempty_iff_witness :
  (let '(start, end_) := dex_page_range 4096 0x11000 0x1000 0x1000 in
   end_ = (start + 0x1000 + 4096 - 1) / 4096 /\
   (start < end_ <-> start * (4096 - 1) < 0x1000)) /\
  (let '(start, end_) := dex_page_range 4096 0x7000 0x5800 0x7000 in
   start = 0 /\
   (forall b, 0 <= b < 0x5800 -> start <= (0x7000 - 0x7000 + b) / 4096 < end_) /\
   (end_ - 1 = (0x7000 - 0x7000 + 0x5800 - 1) / 4096)).
Proof.
  split.
  - pose proof (dex_page_range_nonempty_iff 4096 0x11000 0x1000 0x1000) as H.
    destruct (dex_page_range 4096 0x11000 0x1000 0x1000) as [start end_].
    destruct H as (Hend & Hiff & _).
    + lia.
    + lia.
    + lia.
    + lia.
    + vm_compute. reflexivity.
    + split; [exact Hend | exact Hiff].
  - pose proof (dex_page_range_nonempty_iff 4096 0x7000 0x5800 0x7000) as H.
    destruct (dex_page_range 4096 0x7000 0x5800 0x7000) as [start end_].
    destruct H as (_ & _ & Hall).
    + lia.
    + lia.
    + lia.
    + lia.
    + vm_compute. reflexivity.
    + destruct (Hall eq_refl) as (Hz & Hin & Hlast).
      split; [exact Hz|]. split; [exact Hin|]. apply Hlast. lia.
Defined.

(** *** Options *)

Lemma parse_flags_from (args : list string) : forall flags,
  forallb is_option args = true ->
  parse_flags args flags =
    Some {| g_show_key := g_show_key flags || existsb (fun a => String.eqb a "-k") args;
            g_verbose := g_verbose flags || existsb (fun a => String.eqb a "-v") args;
            g_show_statistics :=
              g_show_statistics flags || existsb (fun a => String.eqb a "-s") args |}.
Proof.
  induction args as [|arg rest IH]; intros [k v st] Hall.
  - simpl. rewrite !orb_false_r. reflexivity.
  - cbn [forallb] in Hall. apply andb_true_iff in Hall as [Harg Hrest].
    cbn [parse_flags existsb]. unfold is_option in Harg.
    destruct (String.eqb_spec arg "-k") as [->|Hk].
    { rewrite IH by exact Hrest. simpl. rewrite ?orb_true_r. reflexivity. }
    destruct (String.eqb_spec arg "-s") as [->|Hs].
    { rewrite IH by exact Hrest. simpl. rewrite ?orb_true_r. reflexivity. }
    destruct (String.eqb_spec arg "-v") as [->|Hv].
    { rewrite IH by exact Hrest. simpl. rewrite ?orb_true_r. reflexivity. }
    simpl in Harg. discriminate.
Qed.

(** X20: the option loop accepts exactly the argument lists made of -k,
    -s and -v; it then sets each flag exactly when its option occurs,
    whatever the order and however often, and on any other argument it gives
    up. *)
Theorem parse_flags_sets_named_flags (args : list string) :
  (forallb is_option args = true ->
     parse_flags args no_flags =
       Some {| g_show_key := existsb (fun a => String.eqb a "-k") args;
               g_verbose := existsb (fun a => String.eqb a "-v") args;
               g_show_statistics := existsb (fun a => String.eqb a "-s") args |}) /\
  (forallb is_option args = false -> parse_flags args no_flags = None).
Proof.
  split.
  - intros Hall. rewrite parse_flags_from by exact Hall. reflexivity.
  - intros Hbad. pose proof (parse_flags_options args no_flags) as Hopts.
    destruct (parse_flags args no_flags); [congruence | reflexivity].
Qed.

Lemma parse_flags_sets_named_flags_witness :
  parse_flags ["-v"; "-k"; "-v"]%string no_flags =
    Some {| g_show_key := true; g_verbose := true; g_show_statistics := false |} /\
  parse_flags ["-v"; "-x"]%string no_flags = None.
Proof.
  split.
  - apply (proj1 (parse_flags_sets_named_flags ["-v"; "-k"; "-v"]%string)). reflexivity.
  - apply (proj2 (parse_flags_sets_named_flags ["-v"; "-x"]%string)). reflexivity.
Defined.

(** *** The command line and the mappings *)

Section MainMore.

Variable tg : Target.
Variable kPageSize : Z.
Variable PM_PAGEMAP_PRESENT : Z -> bool.

Lemma is_option_cases arg :
  is_option arg = true -> arg = "-k"%string \/ arg = "-s"%string \/ arg = "-v"%string.
Proof.
  unfold is_option. intros H.
  destruct (String.eqb_spec arg "-k"); [auto|].
  destruct (String.eqb_spec arg "-s"); [auto|].
  destruct (String.eqb_spec arg "-v"); [auto|]. discriminate.
Qed.

(** X21: the last argument is always read as the process id: when it is
    one of the options -k, -s, -v the run ends with exit code 1, after the
    usage text or the invalid-pid message and nothing else. *)
Theorem option_in_pid_position_fails (env : Env) (argv : list string) :
  is_option (List.last argv EmptyString) = true ->
  exists out,
    DexDiagMain tg kPageSize PM_PAGEMAP_PRESENT env argv = Some (1, out) /\
    (out = [OutUsage (default EmptyString (head argv))] \/
     out = [OutInvalidPid (List.last argv EmptyString)]).
Proof.
  intros Hopt. unfold DexDiagMain, EXIT_FAILURE.
  destruct (length argv <? 2)%nat; [eauto|].
  destruct (parse_flags (removelast (tail argv)) no_flags) as [flags|]; [|eauto].
  destruct (is_option_cases _ Hopt) as [Hl | [Hl | Hl]]; rewrite Hl;
    (eexists; split; [reflexivity | right; reflexivity]).
Qed.

Lemma ProcessPageMap_outputs flags pagemap start end_ sections counts counts' chars :
  ProcessPageMap tg kPageSize PM_PAGEMAP_PRESENT flags pagemap start end_ sections counts
    = Some (counts', chars) ->
  forallb from_mappings chars = true.
Proof.
  unfold ProcessPageMap.
  destruct (ProcessPageMap_loop _ _ _ _ _ _ _ _ _ _ _) as [[c o]|]; [|discriminate].
  cbn [mbind option_bind]. destruct (g_verbose flags); intros H; inversion H; reflexivity.
Qed.

Lemma DisplayDexStatistics_outputs start end_ counts sections out :
  DisplayDexStatistics tg kPageSize start end_ counts sections = Some out ->
  forallb from_mappings out = true.
Proof.
  unfold DisplayDexStatistics.
  destruct (DCHECK (start <=? end_)); [|discriminate]. cbn [mbind option_bind].
  destruct (to_size_t tg (end_ - start) =? 0); [intros H; inversion H; reflexivity|].
  destruct (stat_rows _ _ _ _ _) as [[rows total]|]; [|discriminate].
  cbn [mbind option_bind]. intros H; inversion H; reflexivity.
Qed.

Lemma ProcessOneDexMapping_outputs flags pagemap map_start d vdex_start out :
  ProcessOneDexMapping tg kPageSize PM_PAGEMAP_PRESENT flags pagemap map_start d vdex_start
    = Some out ->
  forallb from_mappings out = true.
Proof.
  unfold ProcessOneDexMapping.
  destruct (Begin d <? vdex_start); [intros H; inversion H; reflexivity|].
  destruct (dex_page_range kPageSize (Begin d) (Size d) vdex_start) as [start end_].
  destruct (ProcessPageMap _ _ _ _ _ _ _ _ _) as [[c chars]|] eqn:Hrun; [|discriminate].
  cbn [mbind option_bind]. apply ProcessPageMap_outputs in Hrun.
  destruct (g_show_statistics flags).
  - destruct (DisplayDexStatistics _ _ _ _ _ _) as [stats|] eqn:Hstat; [|discriminate].
    cbn [mbind option_bind]. apply DisplayDexStatistics_outputs in Hstat.
    intros H; inversion H. cbn [forallb from_mappings]. rewrite forallb_app, Hrun, Hstat.
    reflexivity.
  - cbn [mbind option_bind]. intros H; inversion H. cbn [forallb from_mappings].
    rewrite forallb_app, Hrun. reflexivity.
Qed.

Lemma process_dex_files_outputs flags pagemap map_start vdex_start dex_files :
  forall outs,
  process_dex_files tg kPageSize PM_PAGEMAP_PRESENT flags pagemap map_start dex_files
                    vdex_start = Some outs ->
  forallb from_mappings outs = true.
Proof.
  induction dex_files as [|d rest IH]; intros outs; cbn [process_dex_files].
  - intros H; inversion H; reflexivity.
  - destruct (ProcessOneDexMapping _ _ _ _ _ _ _ _) as [out|] eqn:Hone; [|discriminate].
    cbn [mbind option_bind].
    destruct (process_dex_files _ _ _ _ _ _ _ _) as [outs'|]; [|discriminate].
    cbn [mbind option_bind]. intros H; inversion H.
    rewrite forallb_app, (ProcessOneDexMapping_outputs _ _ _ _ _ _ Hone), (IH outs' eq_refl).
    reflexivity.
Qed.

Lemma DisplayMappingIfFromVdexFile_outputs env flags m ok out :
  DisplayMappingIfFromVdexFile tg kPageSize PM_PAGEMAP_PRESENT env flags m = Some (ok, out) ->
  forallb from_mappings out = true.
Proof.
  unfold DisplayMappingIfFromVdexFile.
  destruct (negb (strstr_found (pm_map_name m) ".vdex"));
    [intros H; inversion H; reflexivity|].
  destruct (VdexFile_Open env (pm_map_name m)) as [vdex|err];
    [|intros H; inversion H; reflexivity].
  destruct (OpenAllDexFiles vdex) as [[opened dex_files] error_msg].
  destruct (pm_map_pagemap m) as [rc pagemap].
  destruct (negb (rc =? 0)).
  { intros H; inversion H. destruct opened; reflexivity. }
  destruct (process_dex_files _ _ _ _ _ _ _ _) as [outs|] eqn:Hrun; [|discriminate].
  cbn [mbind option_bind]. apply process_dex_files_outputs in Hrun.
  intros H; inversion H. rewrite forallb_app. cbn [forallb from_mappings]. rewrite Hrun.
  destruct opened; reflexivity.
Qed.

Lemma display_mappings_outputs env flags maps : forall ok out,
  display_mappings tg kPageSize PM_PAGEMAP_PRESENT env flags maps = Some (ok, out) ->
  forallb from_mappings out = true.
Proof.
  induction maps as [|m rest IH]; intros ok out; cbn [display_mappings].
  - intros H; inversion H; reflexivity.
  - destruct (DisplayMappingIfFromVdexFile _ _ _ _ _ m) as [[ok1 out1]|] eqn:Hone;
      [|discriminate].
    cbn [mbind option_bind]. apply DisplayMappingIfFromVdexFile_outputs in Hone.
    destruct ok1.
    + destruct (display_mappings _ _ _ _ _ rest) as [[ok2 out2]|]; [|discriminate].
      cbn [mbind option_bind]. intros H; inversion H.
      rewrite forallb_app, Hone, (IH ok2 out2 eq_refl). reflexivity.
    + intros H; inversion H. subst. exact Hone.
Qed.

Lemma from_mappings_excludes (other : Output -> bool) (out : list Output) :
  (forall o, from_mappings o = true -> other o = false) ->
  forallb from_mappings out = true -> existsb other out = false.
Proof.
  intros Hex. induction out as [|o rest IH]; cbn [forallb existsb]; [reflexivity|].
  intros H. apply andb_true_iff in H as [Ho Hrest].
  rewrite (Hex o Ho), (IH Hrest). reflexivity.
Qed.

Lemma display_mappings_no_legend env flags maps ok out :
  display_mappings tg kPageSize PM_PAGEMAP_PRESENT env flags maps = Some (ok, out) ->
  existsb is_legend out = false.
Proof.
  intros H. apply display_mappings_outputs in H.
  apply from_mappings_excludes; [|exact H]. intros [] Ho; try reflexivity; discriminate.
Qed.

Lemma display_mappings_no_invalid_pid env flags maps ok out :
  display_mappings tg kPageSize PM_PAGEMAP_PRESENT env flags maps = Some (ok, out) ->
  existsb is_invalid_pid out = false.
Proof.
  intros H. apply display_mappings_outputs in H.
  apply from_mappings_excludes; [|exact H]. intros [] Ho; try reflexivity; discriminate.
Qed.

(** X22: the letter legend is printed exactly by the runs that end with
    exit code 0 and have -k among their options, and then once, as the last
    output; a run that fails prints no legend even with -k. *)
Theorem legend_only_after_success (env : Env) (argv : list string) (code : Z)
    (out : list Output) :
  DexDiagMain tg kPageSize PM_PAGEMAP_PRESENT env argv = Some (code, out) ->
  if (code =? 0) && has_key_option argv
  then exists body, out = body ++ [PrintLetterKey] /\ existsb is_legend body = false
  else existsb is_legend out = false.
Proof.
  unfold DexDiagMain, EXIT_FAILURE, has_key_option.
  destruct (length argv <? 2)%nat; [intros H; inversion H; reflexivity|].
  pose proof (parse_flags_options (removelast (tail argv)) no_flags) as Hopts.
  destruct (parse_flags (removelast (tail argv)) no_flags) as [flags|] eqn:Hflags;
    [|intros H; inversion H; reflexivity].
  rewrite (parse_flags_from _ no_flags Hopts) in Hflags. inversion Hflags as [Hf].
  cbn [g_show_key no_flags orb].
  destruct (strtol tg (List.last argv EmptyString)) as [value endptr].
  destruct (negb (String.eqb endptr EmptyString) || negb (kill env (to_int32 value) =? 0));
    [intros H; inversion H; reflexivity|].
  destruct (negb (pm_kernel_create env =? 0)); [intros H; inversion H; reflexivity|].
  destruct (negb (pm_process_create env (to_int32 value) =? 0));
    [intros H; inversion H; reflexivity|].
  destruct (pm_process_maps env (to_int32 value)) as [rc maps].
  destruct (negb (rc =? 0)); [intros H; inversion H; reflexivity|].
  destruct (display_mappings _ _ _ _ _ _) as [[ok body]|] eqn:Hrun; [|discriminate].
  cbn [mbind option_bind]. apply display_mappings_no_legend in Hrun.
  destruct ok; cbn [negb]; intros H; inversion H; subst.
  - cbn [Z.eqb andb].
    destruct (existsb (fun a => String.eqb a "-k") (removelast (tail argv))).
    + exists body. split; [reflexivity | exact Hrun].
    + rewrite app_nil_r. exact Hrun.
  - exact Hrun.
Qed.

(** X23: a container of which the dex files could not all be opened does
    not fail its mapping: the error is reported, the mapping is shown with
    the dex files that were opened, and the result is true. *)
Theorem unopened_dex_files_do_not_fail_the_mapping (env : Env) (flags : Flags) (m : pm_map)
    (vdex : VdexFile) (dex_files : list DexFile) (error_msg : string) (pagemap : list Z) :
  target_ok tg ->
  is_container m = true ->
  VdexFile_Open env (pm_map_name m) = inl vdex ->
  OpenAllDexFiles vdex = (false, dex_files, error_msg) ->
  pm_map_pagemap m = (0, pagemap) ->
  forallb (dex_file_processable tg kPageSize flags pagemap (vdex_Begin vdex)) dex_files
    = true ->
  exists outs,
    process_dex_files tg kPageSize PM_PAGEMAP_PRESENT flags pagemap (pm_map_start m)
                      dex_files (vdex_Begin vdex) = Some outs /\
    DisplayMappingIfFromVdexFile tg kPageSize PM_PAGEMAP_PRESENT env flags m
      = Some (true, OutDexOpenError (pm_map_name m) error_msg
                    :: OutMapping (pm_map_name m) (pm_map_start m) (pm_map_end m) :: outs).
Proof.
  intros Htg Hcont Hopen Hall Hmap Hproc.
  destruct (process_dex_files_defined tg kPageSize PM_PAGEMAP_PRESENT Htg flags pagemap
              (pm_map_start m) (vdex_Begin vdex) dex_files Hproc) as [outs Houts].
  exists outs. split; [exact Houts|].
  unfold DisplayMappingIfFromVdexFile. unfold is_container in Hcont.
  rewrite Hcont, Hopen, Hall, Hmap. cbn [negb Z.eqb].
  rewrite Houts. reflexivity.
Qed.

Lemma failing_mapping_result env flags m :
  mapping_fails env m = true ->
  exists out,
    DisplayMappingIfFromVdexFile tg kPageSize PM_PAGEMAP_PRESENT env flags m
      = Some (false, out).
Proof.
  unfold mapping_fails, is_container, DisplayMappingIfFromVdexFile. intros Hfail.
  apply andb_true_iff in Hfail as [Hcont Hfail]. rewrite Hcont. cbn [negb].
  destruct (VdexFile_Open env (pm_map_name m)) as [vdex|err]; [|eauto].
  destruct (OpenAllDexFiles vdex) as [[opened dex_files] error_msg].
  destruct (pm_map_pagemap m) as [rc pagemap]. cbn [fst] in Hfail.
  rewrite Hfail. eauto.
Qed.

(** X24: the mapping loop stops at the first container that fails: the
    mappings after it are neither shown nor opened, whatever they are. *)
Theorem mappings_after_a_failure_are_skipped (env : Env) (flags : Flags)
    (before after : list pm_map) (bad : pm_map) :
  mapping_fails env bad = true ->
  display_mappings tg kPageSize PM_PAGEMAP_PRESENT env flags (before ++ bad :: after)
  = display_mappings tg kPageSize PM_PAGEMAP_PRESENT env flags (before ++ [bad]) /\
  forall ok out,
    display_mappings tg kPageSize PM_PAGEMAP_PRESENT env flags (before ++ bad :: after)
      = Some (ok, out) -> ok = false.
Proof.
  intros Hfail. destruct (failing_mapping_result env flags bad Hfail) as [outb Hbad].
  induction before as [|m rest [IHeq IHok]]; cbn [app display_mappings].
  - rewrite Hbad. cbn [mbind option_bind]. split; [reflexivity|].
    intros ok out H; inversion H; reflexivity.
  - destruct (DisplayMappingIfFromVdexFile _ _ _ _ _ m) as [[ok1 out1]|];
      cbn [mbind option_bind]; [|split; [reflexivity | discriminate]].
    destruct ok1; [|split; [reflexivity | intros ok out H; inversion H; reflexivity]].
    split; [rewrite IHeq; reflexivity|].
    destruct (display_mappings _ _ _ _ _ (rest ++ bad :: after)) as [[ok2 out2]|];
      cbn [mbind option_bind]; [|discriminate].
    intros ok out H; inversion H; subst. exact (IHok _ _ eq_refl).
Qed.

Lemma LONG_bounds : target_ok tg -> LONG_MIN tg <= 0 <= LONG_MAX tg.
Proof.
  intros [[Hp|Hp] _]; unfold LONG_MIN, LONG_MAX, size_t_bits; rewrite Hp; simpl; lia.
Qed.

(** X25: an empty text in the place of the process id is accepted and
    read as process id 0: the run is the run for the text 0. *)
Theorem empty_pid_is_pid_0 (env : Env) (cmd : string) (options : list string) :
  target_ok tg ->
  kill env 0 = 0 ->
  DexDiagMain tg kPageSize PM_PAGEMAP_PRESENT env (cmd :: options ++ [EmptyString])
  = DexDiagMain tg kPageSize PM_PAGEMAP_PRESENT env (cmd :: options ++ ["0"%string]) /\
  forall code out,
    DexDiagMain tg kPageSize PM_PAGEMAP_PRESENT env (cmd :: options ++ [EmptyString])
      = Some (code, out) ->
    existsb is_invalid_pid out = false.
Proof.
  intros Htg Hkill. pose proof (LONG_bounds Htg) as Hlong.
  assert (Hzero : strtol tg "0" = (0, EmptyString)).
  { change (strtol tg "0") with (Z.max (LONG_MIN tg) (Z.min (LONG_MAX tg) 0), EmptyString).
    f_equal. lia. }
  assert (Hempty : strtol tg EmptyString = (0, EmptyString)) by reflexivity.
  assert (Hrun : forall pid_arg, strtol tg pid_arg = (0, EmptyString) ->
    DexDiagMain tg kPageSize PM_PAGEMAP_PRESENT env (cmd :: options ++ [pid_arg]) =
    if (length (cmd :: options ++ [pid_arg]) <? 2)%nat then Some (EXIT_FAILURE, [OutUsage cmd])
    else match parse_flags options no_flags with
         | None => Some (EXIT_FAILURE, [OutUsage cmd])
         | Some flags =>
             if negb (pm_kernel_create env =? 0) then Some (EXIT_FAILURE, [OutKernelError])
             else if negb (pm_process_create env 0 =? 0)
             then Some (EXIT_FAILURE, [OutProcessError 0])
             else let '(rc, maps) := pm_process_maps env 0 in
                  if negb (rc =? 0) then Some (EXIT_FAILURE, [OutMapsError])
                  else '(ok, out) ← display_mappings tg kPageSize PM_PAGEMAP_PRESENT env
                                                     flags maps;
                       if negb (ok : bool) then Some (EXIT_FAILURE, out)
                       else Some (0, out ++ (if g_show_key flags then [PrintLetterKey]
                                             else []))
         end).
  { intros pid_arg Hstr. unfold DexDiagMain.
    change (tail (cmd :: options ++ [pid_arg])) with (options ++ [pid_arg]).
    rewrite removelast_last.
    change (cmd :: options ++ [pid_arg]) with ((cmd :: options) ++ [pid_arg]).
    rewrite last_last, Hstr.
    change (to_int32 0) with 0. rewrite Hkill. reflexivity. }
  split.
  - rewrite (Hrun EmptyString Hempty), (Hrun "0"%string Hzero).
    rewrite !length_cons, !length_app. reflexivity.
  - intros code out. rewrite (Hrun EmptyString Hempty).
    destruct (length (cmd :: options ++ [EmptyString]) <? 2)%nat;
      [intros H; inversion H; reflexivity|].
    destruct (parse_flags options no_flags) as [flags|];
      [|intros H; inversion H; reflexivity].
    destruct (negb (pm_kernel_create env =? 0)); [intros H; inversion H; reflexivity|].
    destruct (negb (pm_process_create env 0 =? 0)); [intros H; inversion H; reflexivity|].
    destruct (pm_process_maps env 0) as [rc maps].
    destruct (negb (rc =? 0)); [intros H; inversion H; reflexivity|].
    destruct (display_mappings _ _ _ _ _ _) as [[ok body]|] eqn:Hbody; [|discriminate].
    cbn [mbind option_bind]. apply display_mappings_no_invalid_pid in Hbody.
    destruct ok; cbn [negb]; intros H; inversion H; subst; [|exact Hbody].
    rewrite existsb_app, Hbody. destruct (g_show_key flags); reflexivity.
Qed.

Lemma digit_value_of_digit c :
  is_digit c = true -> digit_value c = Some (Z.of_nat (nat_of_ascii c) - 48).
Proof. unfold is_digit, digit_value. cbv zeta. intros ->. reflexivity. Qed.

Lemma read_digits_all_digits s : forall acc seen,
  all_digits s = true ->
  read_digits s acc seen
  = (decimal_value acc s, EmptyString, seen || negb (String.eqb s EmptyString)).
Proof.
  induction s as [|c r IH]; intros acc seen Hall.
  - simpl. rewrite orb_false_r. reflexivity.
  - cbn [all_digits] in Hall. apply andb_true_iff in Hall as [Hc Hr].
    cbn [read_digits decimal_value]. rewrite (digit_value_of_digit c Hc).
    rewrite (IH _ true Hr). simpl. rewrite orb_true_r. reflexivity.
Qed.

Lemma strtol_of_digit c r :
  is_digit c = true ->
  strtol tg (String c r) =
    let '(magnitude, endptr, seen) := read_digits (String c r) 0 false in
    if seen then (Z.max (LONG_MIN tg) (Z.min (LONG_MAX tg) magnitude), endptr)
    else (0, String c r).
Proof.
  intros Hd.
  destruct c as [[] [] [] [] [] [] [] []]; vm_compute in Hd; try discriminate Hd;
    reflexivity.
Qed.

Lemma LONG_MAX_holds_pid : target_ok tg -> LONG_MIN tg <= 0 /\ 2 ^ 31 - 1 <= LONG_MAX tg.
Proof.
  intros [[Hp|Hp] _]; unfold LONG_MIN, LONG_MAX, size_t_bits; rewrite Hp; simpl; lia.
Qed.

Lemma strtol_decimal s :
  target_ok tg -> valid_pid_text s = true ->
  strtol tg s = (decimal_value 0 s, EmptyString) /\
  to_int32 (decimal_value 0 s) = decimal_value 0 s.
Proof.
  intros Htg Hvalid. unfold valid_pid_text in Hvalid.
  apply andb_true_iff in Hvalid as [Hvalid Hlt].
  apply andb_true_iff in Hvalid as [Hvalid Hpos].
  apply andb_true_iff in Hvalid as [Hne Hall].
  apply Z.ltb_lt in Hlt. apply Z.ltb_lt in Hpos.
  destruct (LONG_MAX_holds_pid Htg) as [Hmin Hmax]. split.
  - destruct s as [|c r]; [discriminate Hne|].
    pose proof Hall as Hall'. cbn [all_digits] in Hall'.
    apply andb_true_iff in Hall' as [Hc _].
    rewrite (strtol_of_digit c r Hc), (read_digits_all_digits _ 0 false Hall).
    cbn [orb negb String.eqb]. f_equal. lia.
  - unfold to_int32, to_signed. rewrite wrap_small by lia.
    destruct (Z.ltb_spec (decimal_value 0 s) (2 ^ (32 - 1))); [reflexivity|].
    change (2 ^ (32 - 1)) with (2 ^ 31) in *. lia.
Qed.

(** X27: for a process id given as decimal digits that name a positive
    pid_t, and options among -k, -s and -v, the run is made for that process
    and ends with exit code 1 exactly when kill, pm_kernel_create,
    pm_process_create or pm_process_maps fails for it or some container among
    its mappings cannot be opened or gives no page table, and with exit code
    0 otherwise. *)
Theorem exit_code_for_decimal_pid
    (env : Env) (cmd : string) (options : list string) (pid_text : string)
    (flags : Flags) :
  target_ok tg ->
  valid_pid_text pid_text = true ->
  parse_flags options no_flags = Some flags ->
  forallb (mapping_processable tg kPageSize env flags)
          (snd (pm_process_maps env (decimal_value 0 pid_text))) = true ->
  exists out,
    DexDiagMain tg kPageSize PM_PAGEMAP_PRESENT env (cmd :: options ++ [pid_text])
    = Some ((if negb (kill env (decimal_value 0 pid_text) =? 0)
                || negb (pm_kernel_create env =? 0)
                || negb (pm_process_create env (decimal_value 0 pid_text) =? 0)
                || negb (fst (pm_process_maps env (decimal_value 0 pid_text)) =? 0)
                || existsb (mapping_fails env)
                           (snd (pm_process_maps env (decimal_value 0 pid_text)))
             then 1 else 0), out).
Proof.
  intros Htg Hvalid Hflags Hproc.
  destruct (strtol_decimal pid_text Htg Hvalid) as [Hstr Hpid].
  set (pid := decimal_value 0 pid_text) in *.
  unfold DexDiagMain, EXIT_FAILURE.
  change (tail (cmd :: options ++ [pid_text])) with (options ++ [pid_text]).
  rewrite removelast_last, Hflags.
  change (cmd :: options ++ [pid_text]) with ((cmd :: options) ++ [pid_text]).
  rewrite last_last, Hstr, Hpid.
  replace (length ((cmd :: options) ++ [pid_text]) <? 2)%nat with false
    by (symmetry; apply Nat.ltb_ge; rewrite length_app; simpl; lia).
  cbn [String.eqb negb orb].
  destruct (kill env pid =? 0); cbn [negb orb]; [|eauto].
  destruct (pm_kernel_create env =? 0); cbn [negb orb]; [|eauto].
  destruct (pm_process_create env pid =? 0); cbn [negb orb]; [|eauto].
  destruct (pm_process_maps env pid) as [rc maps]. cbn [fst snd] in *.
  destruct (rc =? 0); cbn [negb orb]; [|eauto].
  destruct (display_mappings_result tg kPageSize PM_PAGEMAP_PRESENT Htg env flags maps Hproc)
    as [out Hout].
  rewrite Hout. cbn [mbind option_bind].
  destruct (existsb (mapping_fails env) maps); cbn [negb]; eauto.
Qed.

End MainMore.

Lemma exit_code_for_decimal_pid_witness :
  exists out,
    DexDiagMain LP64 4096 pagemap_present scenario_C_env
                ("dexdiag" :: ["-s"; "-v"] ++ ["1234"])%string
    = Some (0, out).
Proof.
  apply (exit_code_for_decimal_pid LP64 4096 pagemap_present scenario_C_env "dexdiag"%string
           ["-s"; "-v"]%string "1234"%string
           {| g_show_key := false; g_verbose := true; g_show_statistics := true |} LP64_ok).
  - reflexivity.
  - reflexivity.
  - vm_compute. reflexivity.
Defined.

Lemma option_in_pid_position_fails_witness :
  exists out,
    DexDiagMain LP64 4096 pagemap_present scenario_C_env ["dexdiag"; "-s"; "-k"]%string
      = Some (1, out) /\
    (out = [OutUsage "dexdiag"] \/ out = [OutInvalidPid "-k"]).
Proof.
  apply (option_in_pid_position_fails LP64 4096 pagemap_present scenario_C_env
           ["dexdiag"; "-s"; "-k"]%string).
  reflexivity.
Defined.

Lemma legend_only_after_success_witness :
  exists out body,
    DexDiagMain LP64 4096 pagemap_present scenario_C_env ["dexdiag"; "-k"; "1234"]%string
      = Some (0, out) /\
    out = body ++ [PrintLetterKey] /\ existsb is_legend body = false.
Proof.
  assert (Hrun : { out | DexDiagMain LP64 4096 pagemap_present scenario_C_env
                           ["dexdiag"; "-k"; "1234"]%string = Some (0, out) })
    by (eexists; vm_compute; reflexivity).
  destruct Hrun as [out Hrun].
  pose proof (legend_only_after_success LP64 4096 pagemap_present scenario_C_env
                ["dexdiag"; "-k"; "1234"]%string 0 out Hrun) as H.
  change (exists body, out = body ++ [PrintLetterKey] /\ existsb is_legend body = false) in H.
  destruct H as (body & Hout & Hbody).
  exists out, body. split; [exact Hrun|]. split; [exact Hout | exact Hbody].
Defined.

Lemma unopened_dex_files_do_not_fail_the_mapping_witness :
  exists outs,
    process_dex_files LP64 4096 pagemap_present statistics_only scenario_C_pagemap 0x10000
                      [scenario_C_dex] 0x7000 = Some outs /\
    DisplayMappingIfFromVdexFile LP64 4096 pagemap_present partly_opened_env statistics_only
                                 container_map
      = Some (true, OutDexOpenError "/data/app/base.vdex" "bad checksum"
                    :: OutMapping "/data/app/base.vdex" 0x10000 0x16000 :: outs).
Proof.
  apply (unopened_dex_files_do_not_fail_the_mapping LP64 4096 pagemap_present
           partly_opened_env statistics_only container_map partly_opened_vdex
           [scenario_C_dex] "bad checksum"%string scenario_C_pagemap LP64_ok).
  - reflexivity.
  - reflexivity.
  - reflexivity.
  - reflexivity.
  - vm_compute. reflexivity.
Defined.

Lemma mappings_after_a_failure_are_skipped_witness :
  display_mappings LP64 4096 pagemap_present scenario_C_env no_flags
                   ([container_map] ++ broken_map :: [container_map])
  = display_mappings LP64 4096 pagemap_present scenario_C_env no_flags
                     ([container_map] ++ [broken_map]) /\
  forall ok out,
    display_mappings LP64 4096 pagemap_present scenario_C_env no_flags
                     ([container_map] ++ broken_map :: [container_map])
      = Some (ok, out) -> ok = false.
Proof.
  apply (mappings_after_a_failure_are_skipped LP64 4096 pagemap_present scenario_C_env
           no_flags [container_map] [container_map] broken_map).
  reflexivity.
Defined.

Lemma empty_pid_is_pid_0_witness :
  DexDiagMain LP64 4096 pagemap_present partly_opened_env ("dexdiag" :: ["-k"] ++ [""])%string
  = DexDiagMain LP64 4096 pagemap_present partly_opened_env
                ("dexdiag" :: ["-k"] ++ ["0"])%string /\
  forall code out,
    DexDiagMain LP64 4096 pagemap_present partly_opened_env
                ("dexdiag" :: ["-k"] ++ [""])%string = Some (code, out) ->
    existsb is_invalid_pid out = false.
Proof.
  apply (empty_pid_is_pid_0 LP64 4096 pagemap_present partly_opened_env "dexdiag"%string
           ["-k"%string] LP64_ok).
  reflexivity.
Defined.

End DexDiagMore.
